(** * forge/experiment_tools.py: checkpoint directories, resume and flags

    A shallow embedding of the experiment bookkeeping module of forge
    ([forge/experiment_tools.py]) and the properties of its checkpoint
    directory protocol.

    Layout of the development:
    - [Py]      the Python built-ins the module calls on [str] values
                ([startswith], [replace], [split], [strip], [int], [str]);
    - [OsPath]  [os.path.join], [os.path.basename], [os.path.splitext];
    - [Re]      the one regular expression of the module;
    - [Fs]      a tree-shaped file system addressed by path strings;
    - the process state ([world]), the exception monad, and the functions
      of the module in the order of the source file;
    - the properties. *)

From Stdlib Require Import ZArith Ascii String DecimalString DecimalZ DecimalPos Sorted.
From stdpp Require Import base tactics option list gmap strings.

Local Open Scope Z_scope.

(** ** Python built-ins on strings *)

Module Py.

(** [s.startswith(p)]. *)
Definition startswith (s p : string) : bool := String.prefix p s.

(** [s[n:]] and [s[:n]] for a non-negative [n]. *)
Fixpoint drop (n : nat) (s : string) : string :=
  match n, s with
  | O, _ => s
  | S _, "" => ""
  | S k, String _ s' => drop k s'
  end.
Fixpoint take (n : nat) (s : string) : string :=
  match n, s with
  | O, _ => ""
  | S _, "" => ""
  | S k, String c s' => String c (take k s')
  end.

(** [s.endswith(p)]. *)
Definition endswith (s p : string) : bool :=
  (String.length p <=? String.length s)%nat
  && String.eqb (drop (String.length s - String.length p) s) p.

(** [s.replace(old, new)] for a non-empty [old]: the occurrences of [old]
    are found from left to right and do not overlap.  [skip] counts the
    characters of an occurrence that remain to be passed over. *)
Fixpoint replace_go (old new : string) (skip : nat) (s : string) : string :=
  match s with
  | "" => ""
  | String c s' =>
      match skip with
      | S k => replace_go old new k s'
      | O =>
          if String.prefix old s
          then new +:+ replace_go old new (String.length old - 1) s'
          else String c (replace_go old new O s')
      end
  end.
Definition replace (s old new : string) : string := replace_go old new O s.

(** [s.split(sep)] for a separator of one character; the result is never
    empty. *)
Fixpoint split (sep : ascii) (s : string) : list string :=
  match s with
  | "" => [""]
  | String c s' =>
      if Ascii.eqb c sep then "" :: split sep s'
      else match split sep s' with
           | [] => [String c ""]
           | piece :: rest => String c piece :: rest
           end
  end.

(** [l[-1]] and [l[0]]; [None] stands for [IndexError]. *)
Definition last_item {A} (l : list A) : option A := last l.
Definition first_item {A} (l : list A) : option A := head l.

(** [s.strip()]: white space is removed at both ends. *)
Fixpoint lstrip (s : string) : string :=
  match s with
  | "" => ""
  | String c s' => if Ascii.is_space c then lstrip s' else s
  end.
Fixpoint rstrip (s : string) : string :=
  match s with
  | "" => ""
  | String c s' =>
      match rstrip s' with
      | "" => if Ascii.is_space c then "" else String c ""
      | r => String c r
      end
  end.
Definition strip (s : string) : string := rstrip (lstrip s).

(** [int(s)] in base ten, as in the Python 2 the module is written for
    ([imp], [iteritems]): surrounding white space, an optional sign and at
    least one ASCII decimal digit.  [None] stands for [ValueError].  Digit
    grouping with [_], which later interpreters accept, and non-ASCII
    digits are not part of the model. *)
Definition int_digits (b : string) : option Z :=
  match b with
  | "" => None
  | _ => Z.of_uint <$> NilEmpty.uint_of_string b
  end.
Definition int (s : string) : option Z :=
  match strip s with
  | String "+" b => int_digits b
  | String "-" b => Z.opp <$> int_digits b
  | b => int_digits b
  end.

(** [str(n)] for an integer. *)
Definition str (n : Z) : string := NilEmpty.string_of_int (Z.to_int n).

(** [sorted(l, key=...)]: a stable insertion sort on the keys (an element
    is inserted in front of the elements that follow it in [l] and have
    the same key). *)
Fixpoint insert_by_key {A} (key : A → Z) (x : A) (l : list A) : list A :=
  match l with
  | [] => [x]
  | y :: l' =>
      if key x <=? key y then x :: y :: l'
      else y :: insert_by_key key x l'
  end.
Definition sorted {A} (key : A → Z) (l : list A) : list A :=
  foldr (λ x acc, insert_by_key key x acc) [] l.

End Py.

(** ** [os.path] on POSIX paths *)

Module OsPath.

(** [os.path.join(a, b)]. *)
Definition join (a b : string) : string :=
  if Py.startswith b "/" then b
  else if String.eqb a "" || Py.endswith a "/" then a +:+ b
  else a +:+ "/" +:+ b.

(** [os.path.basename(p)]: what follows the last slash. *)
Definition basename (p : string) : string :=
  default "" (Py.last_item (Py.split "/" p)).

(** [os.path.splitext(p)[0]]: the extension starts at the last dot of the
    last component, unless only dots precede it there. *)
Fixpoint only_dots (s : string) : bool :=
  match s with
  | "" => true
  | String c s' => Ascii.eqb c "." && only_dots s'
  end.
Definition splitext_root (p : string) : string :=
  let base := basename p in
  let ext := default "" (Py.last_item (Py.split "." base)) in
  let stem := Py.take (String.length base - (String.length ext + 1)) base in
  if (2 <=? length (Py.split "." base))%nat && negb (only_dots stem)
  then Py.take (String.length p - (String.length ext + 1)) p
  else p.

End OsPath.

(** ** The checkpoint pattern

    [re.compile(r'.ckpt-[0-9]+$')]: any character but a newline, the text
    [ckpt-], one or more decimal digits, and the end of the string, which
    [$] also finds in front of a final newline. *)

Module Re.

Definition newline : ascii := "010".

Definition is_digit (c : ascii) : bool :=
  match Ascii.is_nat c with Some _ => true | None => false end.

(** [[0-9]+$] at the start of [s]; [seen] tells that a digit was read. *)
Fixpoint digits_end (seen : bool) (s : string) : bool :=
  match s with
  | "" => seen
  | String c s' =>
      if is_digit c then digits_end true s'
      else seen && String.eqb s (String newline "")
  end.

(** The whole pattern at the start of [s]. *)
Definition match_here (s : string) : bool :=
  match s with
  | "" => false
  | String c rest =>
      negb (Ascii.eqb c newline)
      && String.prefix "ckpt-" rest
      && digits_end false (Py.drop 5 rest)
  end.

(** [pattern.search(s)], as a truth value. *)
Fixpoint search (s : string) : bool :=
  match_here s
  || match s with
     | "" => false
     | String _ s' => search s'
     end.

End Re.

(** ** Flag values and flag sets

    A flag value is a JSON scalar; a flag set (the [__flags] dictionary of
    the registry, the contents of a flag file) is a finite map from flag
    names to values. *)

Inductive value :=
| VNone
| VBool (b : bool)
| VInt (n : Z)
| VStr (s : string).

Global Instance value_eq_dec : EqDecision value.
Proof. solve_decision. Defined.

Abbreviation flagset := (gmap string value).

(** ** The file system

    A tree of directories and files.  A directory lists its entries in the
    order in which [os.listdir] reports them.  A file holds either the JSON
    document written by [json.dump], kept as the flag set it denotes, or
    other text.  Paths are strings; both absolute and relative paths are
    resolved from the top of the tree, the components [""] and ["."] are
    skipped, and there are no links and no [".."] components.  The empty
    path names nothing, as in POSIX. *)

Module Fs.

Inductive content :=
| Json (d : flagset)
| Text (t : string).

#[warnings="-register-all"]
Inductive node :=
| File (c : content)
| Dir (entries : list (string * node)).

Definition components (p : string) : list string :=
  filter (λ c, c ≠ "" ∧ c ≠ ".") (Py.split "/" p).

Fixpoint lookup_entry (name : string) (es : list (string * node)) : option node :=
  match es with
  | [] => None
  | (n, x) :: es' => if decide (n = name) then Some x else lookup_entry name es'
  end.

(** Replaces the entry [name] in place, or appends it. *)
Fixpoint set_entry (name : string) (x : node) (es : list (string * node))
  : list (string * node) :=
  match es with
  | [] => [(name, x)]
  | (n, y) :: es' =>
      if decide (n = name) then (n, x) :: es' else (n, y) :: set_entry name x es'
  end.

Fixpoint walk (cs : list string) (t : node) : option node :=
  match cs with
  | [] => Some t
  | c :: cs' =>
      match t with
      | File _ => None
      | Dir es => lookup_entry c es ≫= walk cs'
      end
  end.

(** Puts [x] at [cs]; the parent of [cs] has to be a directory. *)
Fixpoint put (cs : list string) (x : node) (t : node) : option node :=
  match cs with
  | [] => Some x
  | c :: cs' =>
      match t with
      | File _ => None
      | Dir es =>
          match cs' with
          | [] => Some (Dir (set_entry c x es))
          | _ =>
              sub ← lookup_entry c es;
              sub' ← put cs' x sub;
              Some (Dir (set_entry c sub' es))
          end
      end
  end.

(** Creates the directories of [cs] that are missing. *)
Fixpoint ensure (cs : list string) (t : node) : option node :=
  match cs with
  | [] => Some t
  | c :: cs' =>
      match t with
      | File _ => None
      | Dir es =>
          sub' ← ensure cs' (default (Dir []) (lookup_entry c es));
          Some (Dir (set_entry c sub' es))
      end
  end.

(** The components of a path that can name something. *)
Definition locate (p : string) : option (list string) :=
  if String.eqb p "" then None else Some (components p).

Definition resolve (t : node) (p : string) : option node :=
  locate p ≫= λ cs, walk cs t.

(** [os.path.exists], [os.path.isdir], [os.path.isfile]. *)
Definition exists_ (t : node) (p : string) : bool :=
  bool_decide (is_Some (resolve t p)).
Definition isdir (t : node) (p : string) : bool :=
  match resolve t p with Some (Dir _) => true | _ => false end.
Definition isfile (t : node) (p : string) : bool :=
  match resolve t p with Some (File _) => true | _ => false end.

(** [os.listdir(p)]; [None] stands for [OSError]. *)
Definition listdir (t : node) (p : string) : option (list string) :=
  match resolve t p with
  | Some (Dir es) => Some (es.*1)
  | _ => None
  end.

(** [os.mkdir(p)]: [p] must not exist and its parent must be a directory. *)
Definition mkdir (t : node) (p : string) : option node :=
  if exists_ t p then None else locate p ≫= λ cs, put cs (Dir []) t.

(** [os.makedirs(p)]: [p] must not exist. *)
Definition makedirs (t : node) (p : string) : option node :=
  if exists_ t p then None else locate p ≫= λ cs, ensure cs t.

(** [open(p, 'r').read()] and [open(p, 'w').write(c)]; [None] stands for
    [IOError]. *)
Definition read (t : node) (p : string) : option content :=
  match resolve t p with
  | Some (File c) => Some c
  | _ => None
  end.
Definition write (t : node) (p : string) (c : content) : option node :=
  if isdir t p then None else locate p ≫= λ cs, put cs (File c) t.

End Fs.

(** ** Exceptions

    The exception classes the module raises or lets through.  What the
    specification calls ConfigurationError and ParseError are both
    [ValueError] in the source; its RegistryError is [RuntimeError].
    [OtherError] stands for whatever else a collaborator raises (an import
    error, the exit of the argument parser, a missing [git] program). *)

Inductive exn :=
| ValueError (msg : string)
| RuntimeError (msg : string)
| IndexError
| KeyError
| OSError (path : string)
| IOError (path : string)
| ShutilError (msg : string)
| CalledProcessError
| OtherError (name : string).

Global Instance exn_eq_dec : EqDecision exn.
Proof. solve_decision. Defined.

Definition FLAG_FILE : string := "flags.json".

Section experiment_tools.

(** ** Collaborators

    [forge.flags], the interpreter's import machinery and [git] are not
    part of the module; they are taken as given.

    - [parser] is the state of the flag definitions (what the config
      modules have declared so far);
    - [load_source] and [import_module] run a config module, from the
      contents of its file or from its dotted name: they change the flag
      registry or raise;
    - [FLAGS_parse_flags] is [FLAGS._parse_flags(args=...)]: from the
      registry and the arguments it gives the registry after parsing and
      the arguments it did not recognise, or raises;
    - [git_rev_parse] is the outcome of
      [subprocess.check_output(['git', 'rev-parse', 'HEAD'])]:
      its output, [CalledProcessError] outside a repository, or another
      exception. *)

Variable parser : Type.

Record FlagValues := {
  declared : parser;
  __flags : flagset;
  __parsed : bool;
}.

Variable load_source : string → Fs.content → FlagValues → exn + FlagValues.
Variable import_module : string → FlagValues → exn + FlagValues.
Variable FLAGS_parse_flags :
  FlagValues → list string → exn + (FlagValues * list string).
Variable git_rev_parse : exn + string.

(** ** The state of the process

    The file system, [sys.argv], [sys.modules] (the names of the loaded
    modules) and the global [FLAGS] object of [forge.flags]. *)

Record world := {
  fs : Fs.node;
  sys_argv : list string;
  sys_modules : gset string;
  FLAGS : FlagValues;
}.

Definition set_fs (t : Fs.node) (w : world) : world :=
  {| fs := t; sys_argv := sys_argv w; sys_modules := sys_modules w;
     FLAGS := FLAGS w |}.
Definition set_argv (a : list string) (w : world) : world :=
  {| fs := fs w; sys_argv := a; sys_modules := sys_modules w;
     FLAGS := FLAGS w |}.
Definition set_modules (m : gset string) (w : world) : world :=
  {| fs := fs w; sys_argv := sys_argv w; sys_modules := m;
     FLAGS := FLAGS w |}.
Definition set_FLAGS (f : FlagValues) (w : world) : world :=
  {| fs := fs w; sys_argv := sys_argv w; sys_modules := sys_modules w;
     FLAGS := f |}.
Definition set_flags_dict (d : flagset) (f : FlagValues) : FlagValues :=
  {| declared := declared f; __flags := d; __parsed := __parsed f |}.

(** ** The monad of the module's functions

    A call runs in a world and either returns a value or raises an
    exception; in both cases it leaves a world behind, so that a failed
    call shows what it had changed before it failed. *)

Inductive outcome (A : Type) :=
| Ok (a : A) (w : world)
| Raise (e : exn) (w : world).
Global Arguments Ok {A} a w.
Global Arguments Raise {A} e w.

Definition M (A : Type) : Type := world → outcome A.

Definition ret {A} (a : A) : M A := λ w, Ok a w.
Definition raise {A} (e : exn) : M A := λ w, Raise e w.
Definition bind {A B} (m : M A) (k : A → M B) : M B :=
  λ w, match m w with
       | Ok a w' => k a w'
       | Raise e w' => Raise e w'
       end.
Definition get : M world := λ w, Ok w w.
Definition modify (f : world → world) : M unit := λ w, Ok () (f w).

(** [try: m except <class of handles>: h]. *)
Definition try_except {A} (m : M A) (handles : exn → bool) (h : M A) : M A :=
  λ w, match m w with
       | Ok a w' => Ok a w'
       | Raise e w' => if handles e then h w' else Raise e w'
       end.

(** [for x in l: body x]. *)
Fixpoint for_each {A} (l : list A) (body : A → M unit) : M unit :=
  match l with
  | [] => ret ()
  | x :: l' => bind (body x) (λ _, for_each l' body)
  end.

(** The world a call leaves behind. *)
Definition final {A} (o : outcome A) : world :=
  match o with Ok _ w => w | Raise _ w => w end.

Declare Scope M_scope.
Delimit Scope M_scope with M.
Bind Scope M_scope with M.
Notation "x ← y ; z" := (bind y (λ x, z)) : M_scope.
Notation "y ;; z" := (bind y (λ _, z)) : M_scope.
Notation "' x ← y ; z" := (bind y (λ x, z)) : M_scope.

(** Lifts a file-system operation or a collaborator's result. *)
Definition from_option {A} (o : option A) (e : exn) : M A :=
  match o with Some a => ret a | None => raise e end.
Definition from_sum {A} (r : exn + A) : M A :=
  match r with inr a => ret a | inl e => raise e end.

(** ** The functions of the module *)

(** [json_store(path, data)]: [open(path, 'w')] and [json.dump]. *)
Definition json_store (path : string) (data : flagset) : M unit :=
  (w ← get;
   t ← from_option (Fs.write (fs w) path (Fs.Json data)) (IOError path);
   modify (set_fs t))%M.

(** [json_load(path)]: [open(path, 'r')] and [json.load]; a file that
    holds no JSON document makes the decoder raise its [ValueError]. *)
Definition json_load (path : string) : M flagset :=
  (w ← get;
   c ← from_option (Fs.read (fs w) path) (IOError path);
   match c with
   | Fs.Json d => ret d
   | Fs.Text _ => raise (ValueError "No JSON object could be decoded")
   end)%M.

(** [int(x)] with its exception. *)
Definition int (x : string) : exn + Z :=
  match Py.int x with
  | Some n => inr n
  | None => inl (ValueError ("invalid literal for int() with base 10: '" +:+ x +:+ "'"))
  end.

(** [extract_itr_from_modelfile(model_path)]:
    [int(model_path.split('-')[-1].split('.')[0])]. *)
Definition extract_itr_from_modelfile (model_path : string) : exn + Z :=
  match Py.last_item (Py.split "-" model_path) with
  | None => inl IndexError
  | Some tail =>
      match Py.first_item (Py.split "." tail) with
      | None => inl IndexError
      | Some segment => int segment
      end
  end.

(** The dictionary comprehension of [find_model_files]: the entries are
    added in the order of the list, a later one replaces an earlier one
    with the same key. *)
Fixpoint model_files_dict (model_dir : string) (model_files : list string)
    (acc : gmap Z string) : exn + gmap Z string :=
  match model_files with
  | [] => inr acc
  | f :: rest =>
      match extract_itr_from_modelfile f with
      | inl e => inl e
      | inr itr => model_files_dict model_dir rest (<[itr := OsPath.join model_dir f]> acc)
      end
  end.

(** [find_model_files(model_dir)]. *)
Definition find_model_files (model_dir : string) : M (gmap Z string) :=
  (w ← get;
   names ← from_option (Fs.listdir (fs w) model_dir) (OSError model_dir);
   let model_files := (λ f, Py.replace f ".index" "") <$> names in
   let model_files := filter (λ f, Re.search f = true) model_files in
   from_sum (model_files_dict model_dir model_files ∅))%M.

(** Running the code of a module, as [imp.load_source] and
    [importlib.import_module] do for a module that is not loaded yet: the
    flags it declares change the registry, and the module is entered in
    [sys.modules]. *)
Definition run_module (name : string) (run : FlagValues → exn + FlagValues)
  : M unit :=
  (w ← get;
   f ← from_sum (run (FLAGS w));
   modify (set_FLAGS f);;
   modify (λ w, set_modules ({[name]} ∪ sys_modules w) w))%M.

(** [_import_module(module_path_or_name)].  A path that ends in [.py] is
    loaded from its file under the name of the file without extension,
    anything else is imported by name; a module that is in [sys.modules]
    already is not run again.  The result is the name the source returns
    beside the module. *)
Definition _import_module (module_path_or_name : string) : M string :=
  (module_name ←
     (if Py.endswith module_path_or_name ".py" then
        w ← get;
        if negb (Fs.exists_ (fs w) module_path_or_name) then
          raise (RuntimeError ("File " +:+ module_path_or_name +:+ " does not exist."))
        else
          let file_name := module_path_or_name in
          let module_path_or_name :=
            OsPath.basename (OsPath.splitext_root module_path_or_name) in
          (if decide (module_path_or_name ∈ sys_modules w) then ret ()
           else
             source ← from_option (Fs.read (fs w) file_name) (IOError file_name);
             run_module module_path_or_name
               (load_source module_path_or_name source));;
          ret module_path_or_name
      else
        w ← get;
        (if decide (module_path_or_name ∈ sys_modules w) then ret ()
         else run_module module_path_or_name (import_module module_path_or_name));;
        ret module_path_or_name);
   let dotted := default "" (Py.last_item (Py.split "." module_name)) in
   ret (default "" (Py.last_item (Py.split "/" dotted))))%M.

(** [_load_flags] over its config paths; what it prints is left out. *)
Definition _load_flags (config_paths : list string) : M unit :=
  for_each config_paths (λ config_path, _import_module config_path ;; ret ())%M.

(** [parse_flags()].  The dictionary it returns is [FLAGS.__dict__['__flags']]
    itself, not a copy: the result here is its contents at the time of the
    return, and callers that go on to change it change the registry (see
    [flags_update] and [flags_setitem]). *)
Definition parse_flags : M flagset :=
  (w ← get;
   let f := FLAGS w in
   let args := drop 1 (sys_argv w) in
   let old_flags := __flags f in
   '(f', flags_passthrough) ← from_sum (FLAGS_parse_flags f args);
   modify (set_FLAGS f');;
   modify (set_argv (take 1 (sys_argv w) ++ flags_passthrough));;
   modify (λ w, set_FLAGS (set_flags_dict (old_flags ∪ __flags (FLAGS w)) (FLAGS w)) w);;
   w ← get;
   ret (__flags (FLAGS w)))%M.

(** [flags.update(d)] and [flags[k] = v] on the dictionary that
    [parse_flags] returned, that is, on the registry's own dictionary. *)
Definition flags_update (d : flagset) : M unit :=
  modify (λ w, set_FLAGS (set_flags_dict (d ∪ __flags (FLAGS w)) (FLAGS w)) w).
Definition flags_setitem (k : string) (v : value) : M unit :=
  modify (λ w, set_FLAGS (set_flags_dict (<[k := v]> (__flags (FLAGS w))) (FLAGS w)) w).

(** [_restore_flags(flags)]. *)
Definition _restore_flags (flags : flagset) : M unit :=
  modify (λ w, set_FLAGS {| declared := declared (FLAGS w);
                           __flags := flags; __parsed := true |} w).

(** [assert_all_flags_parsed()]. *)
Definition assert_all_flags_parsed : M unit :=
  (w ← get;
   let not_parsed := filter (λ a, Py.startswith a "--" = true) (drop 1 (sys_argv w)) in
   match not_parsed with
   | [] => ret ()
   | _ => raise (RuntimeError "Failed to parse following flags")
   end)%M.

(** [get_git_revision_hash()]. *)
Definition get_git_revision_hash : M string :=
  (out ← from_sum git_rev_parse; ret (Py.strip out))%M.

(** [shutil.copy(src, dst)]: into [dst] when it is a directory; a file is
    not copied onto itself. *)
Definition shutil_copy (src dst : string) : M unit :=
  (w ← get;
   let dst := if Fs.isdir (fs w) dst then OsPath.join dst (OsPath.basename src) else dst in
   if Fs.exists_ (fs w) src && bool_decide (Fs.locate src = Fs.locate dst) then
     raise (ShutilError "are the same file")
   else
     c ← from_option (Fs.read (fs w) src) (IOError src);
     t ← from_option (Fs.write (fs w) dst c) (IOError dst);
     modify (set_fs t))%M.

(** [[int(x) for x in l]]: the keys that [sorted] computes before it
    sorts; the first name that is no integer raises. *)
Fixpoint int_keys (l : list string) : exn + list Z :=
  match l with
  | [] => inr []
  | x :: l' =>
      match int x with
      | inl e => inl e
      | inr k => match int_keys l' with
                 | inl e => inl e
                 | inr ks => inr (k :: ks)
                 end
      end
  end.

(** [sorted(l, key=lambda x: int(x))]. *)
Definition sorted_by_int (l : list string) : exn + list string :=
  match int_keys l with
  | inl e => inl e
  | inr ks => inr ((Py.sorted fst (zip ks l)).*2)
  end.

(** [max(d.keys())] of a dictionary with integer keys; [None] stands for
    the [ValueError] of an empty sequence. *)
Definition max_key {A} (d : gmap Z A) : option Z :=
  match (map_to_list d).*1 with
  | [] => None
  | k :: ks => Some (foldr Z.max k ks)
  end.

Definition is_CalledProcessError (e : exn) : bool :=
  match e with CalledProcessError => true | _ => false end.

(** [init_checkpoint], first part (the source down to [os.mkdir]): makes
    sure that [checkpoint_dir] exists, finds the job folders and assigns
    one to this job.  The result is the path [experiment_folder]. *)
Definition assign_experiment_folder (checkpoint_dir : string) (resume : bool)
  : M string :=
  (w ← get;
   let checkpoint_dir_exists := Fs.exists_ (fs w) checkpoint_dir in
   (if negb checkpoint_dir_exists then
      if resume then
        raise (ValueError ("Can't resume when the checkpoint dir '"
                           +:+ checkpoint_dir +:+ "' doesn't exist."))
      else
        t ← from_option (Fs.makedirs (fs w) checkpoint_dir) (OSError checkpoint_dir);
        modify (set_fs t)
    else if negb (Fs.isdir (fs w) checkpoint_dir) then
      raise (ValueError ("Checkpoint dir '" +:+ checkpoint_dir
                         +:+ "' is not a directory."))
    else ret ());;
   w ← get;
   names ← from_option (Fs.listdir (fs w) checkpoint_dir) (OSError checkpoint_dir);
   let experiment_folders :=
     filter (λ f, Py.startswith f "_" = false ∧ Py.startswith f "." = false) names in
   experiment_folder ←
     match experiment_folders with
     | _ :: _ =>
         by_number ← from_sum (sorted_by_int experiment_folders);
         highest ← from_option (Py.last_item by_number) IndexError;
         experiment_folder ← from_sum (int highest);
         ret (if resume then experiment_folder else experiment_folder + 1)
     | [] =>
         if resume then
           raise (ValueError ("Can't resume since no experiments were run before in checkpoint dir '"
                              +:+ checkpoint_dir +:+ "'."))
         else ret 1
     end;
   let experiment_folder := OsPath.join checkpoint_dir (Py.str experiment_folder) in
   (if negb resume then
      w ← get;
      t ← from_option (Fs.mkdir (fs w) experiment_folder) (OSError experiment_folder);
      modify (set_fs t)
    else ret ());;
   ret experiment_folder)%M.

(** Second part: the flags of the config files are loaded and parsed.
    What [parse_flags] returns is bound to [flags] in the source: the
    registry's own dictionary. *)
Definition load_and_parse_flags (data_config model_config : string) : M unit :=
  (_load_flags [model_config; data_config];;
   parse_flags;;
   assert_all_flags_parsed)%M.

(** The branch [if resume:]: the flags are restored and the latest model
    checkpoint is found.  The result is [resume_checkpoint]. *)
Definition restore_and_find_checkpoint (experiment_folder flag_path : string)
  : M (option string) :=
  (restored_flags ← json_load flag_path;
   flags_update restored_flags;;
   w ← get;
   _restore_flags (__flags (FLAGS w));;
   model_files ← find_model_files experiment_folder;
   if decide (model_files = ∅) then ret None
   else
     newest ← from_option (max_key model_files) (ValueError "max() arg is an empty sequence");
     resume_checkpoint ← from_option (model_files !! newest) KeyError;
     ret (Some resume_checkpoint))%M.

(** The branch [else:]: the flags are stored with the revision, and the
    config files are copied to the run folder. *)
Definition store_flags_and_configs
    (experiment_folder flag_path data_config model_config : string) : M unit :=
  (try_except
     (git_commit ← get_git_revision_hash;
      flags_setitem "git_commit" (VStr git_commit))
     is_CalledProcessError
     (ret ());;
   w ← get;
   json_store flag_path (__flags (FLAGS w));;
   for_each [model_config; data_config] (λ src,
     let file_name := OsPath.basename src in
     let dst := OsPath.join experiment_folder file_name in
     shutil_copy src dst))%M.

(** [init_checkpoint(checkpoint_dir, data_config, model_config, resume)]. *)
Definition init_checkpoint (checkpoint_dir data_config model_config : string)
    (resume : bool) : M (string * option string) :=
  (experiment_folder ← assign_experiment_folder checkpoint_dir resume;
   let flag_path := OsPath.join experiment_folder FLAG_FILE in
   load_and_parse_flags data_config model_config;;
   if resume then
     resume_checkpoint ← restore_and_find_checkpoint experiment_folder flag_path;
     ret (experiment_folder, resume_checkpoint)
   else
     store_flags_and_configs experiment_folder flag_path data_config model_config;;
     ret (experiment_folder, None))%M.

(** ** The other functions of the module

    What these functions print is left out, as for [_load_flags]. *)

(** The name under which [_import_module] finds or enters the module in
    [sys.modules]: the value of [module_path_or_name] after the branch. *)
Definition module_name_of (module_path_or_name : string) : string :=
  if Py.endswith module_path_or_name ".py"
  then OsPath.basename (OsPath.splitext_root module_path_or_name)
  else module_path_or_name.

(** [load(conf_path, *args, **kwargs)].  [module_load] gives the [load]
    attribute of the module of a name, applied to the arguments of the
    call; [None] stands for [AttributeError]. *)
Variable loaded : Type.
Variable module_load : string → option (M loaded).

Definition load (conf_path : string) : M loaded :=
  (_import_module conf_path;;
   match module_load (module_name_of conf_path) with
   | None =>
       raise (ValueError "The config file should specify 'load' function but no such function was found")
   | Some load_func =>
       parse_flags;;
       load_func
   end)%M.

(** ['{}'.format(v)] for a flag value. *)
Definition format_value (v : value) : string :=
  match v with
  | VNone => "None"
  | VBool true => "True"
  | VBool false => "False"
  | VInt n => Py.str n
  | VStr s => s
  end.

(** [set_flags] for the keyword arguments [flag_dict], listed in the order
    in which [iteritems] gives the items of the dictionary. *)
Definition set_flags (flag_dict : list (string * value)) : M unit :=
  for_each flag_dict (λ '(k, v),
    modify (λ w, set_argv (sys_argv w ++ ["--" +:+ k +:+ "=" +:+ format_value v]) w)).

(** [is_notebook()].  [get_ipython] is the class name of what
    [get_ipython()] returns; [None] stands for the [NameError] of an
    interpreter that does not define it. *)
Variable get_ipython : option string.

Definition is_notebook : M bool :=
  match get_ipython with
  | Some interpreter =>
      if String.eqb interpreter "ZMQInteractiveShell" then ret true
      else if negb (String.eqb interpreter "TerminalInteractiveShell") then
        raise (ValueError ("Unknown interpreter name: " +:+ interpreter))
      else ret false
  | None => ret false
  end.

(** [set_flags_if_notebook] for the keyword arguments [flags_to_set]. *)
Definition set_flags_if_notebook (flags_to_set : list (string * value)) : M unit :=
  (notebook ← is_notebook;
   if notebook && negb (bool_decide (flags_to_set = [])) then
     set_flags flags_to_set
   else ret ())%M.

(** The loop of [format_integer]: [number[:-group_size]] goes on,
    [number[-group_size:]] is appended to [parts].  [fuel] bounds the
    number of rounds; [None] tells that it did not suffice. *)
Fixpoint split_groups (fuel group_size : nat) (number : string)
    (parts : list string) : option (list string) :=
  match number with
  | "" => Some parts
  | _ =>
      match fuel with
      | O => None
      | S fuel' =>
          let cut := (String.length number - group_size)%nat in
          split_groups fuel' group_size (Py.take cut number)
            (parts ++ [Py.drop cut number])
      end
  end.

(** [format_integer(number, group_size)] for an integer [number]; the
    fuel is the length of [str(number)], one round for each character.
    A failed [assert] is [OtherError "AssertionError"]. *)
Definition format_integer (number group_size : Z) : option (exn + string) :=
  if bool_decide (group_size > 0) then
    let number := Py.str number in
    parts ← split_groups (String.length number) (Z.to_nat group_size) number [];
    Some (inr (String.concat " " (reverse parts)))
  else Some (inl (OtherError "AssertionError")).

End experiment_tools.

Arguments declared {parser} _.
Arguments __flags {parser} _.
Arguments __parsed {parser} _.
Arguments fs {parser} _.
Arguments sys_argv {parser} _.
Arguments sys_modules {parser} _.
Arguments FLAGS {parser} _.
Arguments Ok {parser A} a w.
Arguments Raise {parser A} e w.
Arguments final {parser A} o.
Arguments set_fs {parser} t w.
Arguments set_argv {parser} a w.
Arguments set_FLAGS {parser} f w.
Arguments set_modules {parser} m w.
Arguments init_checkpoint {parser} _ _ _ _ _ _ _ _.
Arguments parse_flags {parser} _.
Arguments find_model_files {parser} _.
Arguments assign_experiment_folder {parser} _ _ _.
Arguments load_and_parse_flags {parser} _ _ _ _ _ _.
Arguments restore_and_find_checkpoint {parser} _ _ _.
Arguments store_flags_and_configs {parser} _ _ _ _ _ _.
Arguments json_load {parser} _ _.
Arguments json_store {parser} _ _ _.
Arguments set_flags {parser} _ _.
Arguments is_notebook {parser} _ _.
Arguments set_flags_if_notebook {parser} _ _ _.
Arguments load {parser} _ _ _ {loaded} _ _ _.

(** ** The wording of the specification

    Definitions that follow the specification's sentences instead of the
    source, to be compared with the functions above. *)

Module Spec.

Fixpoint contains (c : ascii) (s : string) : bool :=
  match s with
  | "" => false
  | String a s' => Ascii.eqb a c || contains c s'
  end.

(** The text after the last [c] of [s]; all of [s] when it has no [c]. *)
Fixpoint after_last (c : ascii) (s : string) : string :=
  match s with
  | "" => ""
  | String a s' =>
      if contains c s' then after_last c s'
      else if Ascii.eqb a c then s' else s
  end.

(** The text in front of the first [c] of [s]; all of [s] when it has no
    [c]. *)
Fixpoint before_first (c : ascii) (s : string) : string :=
  match s with
  | "" => ""
  | String a s' => if Ascii.eqb a c then "" else String a (before_first c s')
  end.

(** The text between the last [-] of the path and the first [.] that
    follows it. *)
Definition iteration_segment (path : string) : string :=
  before_first "." (after_last "-" path).

(** Only decimal digits. *)
Fixpoint all_digits (s : string) : bool :=
  match s with
  | "" => true
  | String c s' => Re.is_digit c && all_digits s'
  end.

(** The [.index] marker taken off the end of a name, and only there. *)
Definition strip_index_suffix (f : string) : string :=
  if Py.endswith f ".index" then Py.take (String.length f - 6) f else f.

(** [find_model_files] in the words of the specification: the marker is
    stripped as a suffix, the stripped names that match the pattern are
    kept, and the iteration number of each is sent to the original,
    non-stripped path of the entry. *)
Fixpoint model_files_as_specified (model_dir : string) (names : list string)
    (acc : gmap Z string) : exn + gmap Z string :=
  match names with
  | [] => inr acc
  | f :: rest =>
      if Re.search (strip_index_suffix f) then
        match extract_itr_from_modelfile (strip_index_suffix f) with
        | inl e => inl e
        | inr itr =>
            model_files_as_specified model_dir rest
              (<[itr := OsPath.join model_dir f]> acc)
        end
      else model_files_as_specified model_dir rest acc
  end.

End Spec.

(** ** Notions used in the properties *)

(** An entry of a run folder as [find_model_files] looks at it, and the
    entries it keeps: the checkpoint names. *)
Definition stripped (f : string) : string := Py.replace f ".index" "".
Definition checkpoint_names (names : list string) : list string :=
  filter (λ g, Re.search g = true) (stripped <$> names).

(** The checkpoint that [init_checkpoint] resumes from, given the entries of
    the run folder: none when the folder has no checkpoint name, else the
    path of a checkpoint name whose iteration number is the greatest. *)
Definition newest_checkpoint (folder : string) (names : list string)
    (rc : option string) : Prop :=
  match checkpoint_names names with
  | [] => rc = None
  | _ =>
      ∃ g itr, rc = Some (OsPath.join folder g)
        ∧ g ∈ checkpoint_names names
        ∧ extract_itr_from_modelfile g = inr itr
        ∧ extract_itr_from_modelfile (OsPath.join folder g) = inr itr
        ∧ ∀ g' itr', g' ∈ checkpoint_names names →
            extract_itr_from_modelfile g' = inr itr' → itr' ≤ itr
  end.

(** The entries of the checkpoint directory that count as job folders. *)
Definition job_folders (names : list string) : list string :=
  filter (λ f, Py.startswith f "_" = false ∧ Py.startswith f "." = false) names.

(** A call [m] preserves [R] when [R] relates the world it starts in to the
    world it leaves behind, whether it returns or raises. *)
Definition preserves {parser A} (R : relation (world parser)) (m : M parser A)
  : Prop :=
  ∀ w, R w (final (m w)).

(** Relations between the worlds before and after a call. *)
Definition same_fs {parser} (w w' : world parser) : Prop := fs w' = fs w.
Definition dirs_kept {parser} (w w' : world parser) : Prop :=
  ∀ p, Fs.isdir (fs w) p = true → Fs.isdir (fs w') p = true.
Definition file_kept {parser} (q : string) (w w' : world parser) : Prop :=
  ∀ c, Fs.read (fs w) q = Some c → Fs.read (fs w') q = Some c.
Definition same_FLAGS {parser} (w w' : world parser) : Prop := FLAGS w' = FLAGS w.
Definition same_argv {parser} (w w' : world parser) : Prop := sys_argv w' = sys_argv w.

(** The directory [d] keeps its entries, and its entry [folder] stays a
    directory. *)
Definition listing_kept {parser} (folder d : string) (w w' : world parser) : Prop :=
  Fs.isdir (fs w) folder = true →
  Fs.isdir (fs w') folder = true ∧ Fs.listdir (fs w') d = Fs.listdir (fs w) d.

(** The two copies at the end of the [else] branch of [init_checkpoint]. *)
Definition copy_configs {parser} (folder data_config model_config : string)
  : M parser () :=
  for_each parser [model_config; data_config] (λ src,
    shutil_copy parser src (OsPath.join folder (OsPath.basename src))).

(** The flags that the [else] branch stores, from the flags that were
    parsed: with the revision when [git] gave one, unchanged when [git]
    failed with [CalledProcessError]. *)
Definition stored_flags (git_rev_parse : exn + string) (flags : flagset)
  : option flagset :=
  match git_rev_parse with
  | inr out => Some (<["git_commit" := VStr (Py.strip out)]> flags)
  | inl CalledProcessError => Some flags
  | inl _ => None
  end.

(** A call [m] raises only exceptions of the kind [P]. *)
Definition raises_only {parser A} (P : exn → Prop) (m : M parser A) : Prop :=
  ∀ w e w', m w = Raise e w' → P e.

(** ** A small instance of the collaborators

    A flag registry in which a config module declares one flag, named after
    the module, and in which [--name=value] sets a declared flag; it is used
    to run the module on concrete inputs. *)

Module Example.

Abbreviation registry := (FlagValues (list string)).

Definition load_source (name : string) (source : Fs.content) (f : registry)
  : exn + registry :=
  inr {| declared := name :: declared f; __flags := __flags f;
         __parsed := __parsed f |}.

Definition import_module (name : string) (f : registry) : exn + registry :=
  inl (OtherError "ImportError").

(** The flag an argument sets, if it is [--name=value] for a declared
    name. *)
Definition known (f : registry) (arg : string) : option (string * value) :=
  match Py.split "=" arg with
  | [k; v] =>
      if Py.startswith k "--" && bool_decide (Py.drop 2 k ∈ declared f)
      then Some (Py.drop 2 k, VStr v) else None
  | _ => None
  end.

Definition parse (f : registry) (args : list string)
  : exn + (registry * list string) :=
  let defaults : flagset := list_to_map ((λ k, (k, VNone)) <$> declared f) in
  let parsed : flagset := list_to_map (omap (known f) args) in
  inr ({| declared := declared f;
          __flags := parsed ∪ defaults ∪ __flags f;
          __parsed := true |},
       filter (λ a, known f a = None) args).

Definition configs : string * Fs.node :=
  ("cfg", Fs.Dir [("data.py", Fs.File (Fs.Text "flags of the data"));
                  ("model.py", Fs.File (Fs.Text "flags of the model"))]).

Definition empty_registry : registry :=
  {| declared := []; __flags := ∅; __parsed := false |}.

Definition start (root : list (string * Fs.node)) (argv : list string)
  : world (list string) :=
  {| fs := Fs.Dir (configs :: root); sys_argv := argv; sys_modules := ∅;
     FLAGS := empty_registry |}.

(** A checkpoint directory with two runs and a folder that is ignored.
    The second run was made with [--data=cifar] and has checkpoints of the
    iterations 10 and 200. *)
Definition checkpoint_file : Fs.node := Fs.File (Fs.Text "tensors").
Definition second_run_flags : flagset :=
  <["data" := VStr "cifar"]> (<["git_commit" := VStr "0a1b2c"]> ∅).
Definition two_runs : list (string * Fs.node) :=
  [("ckpt",
    Fs.Dir [("2", Fs.Dir [("flags.json", Fs.File (Fs.Json second_run_flags));
                          ("model.ckpt-200.index", checkpoint_file);
                          ("model.ckpt-10.index", checkpoint_file);
                          ("model.ckpt-200.meta", checkpoint_file);
                          ("model.ckpt-10.meta", checkpoint_file);
                          ("events.out", checkpoint_file)]);
            ("_old", Fs.Dir []);
            ("1", Fs.Dir [("flags.json", Fs.File (Fs.Json ∅))])])].

(** The folder of the specification's example for [find_model_files]. *)
Definition three_checkpoints : list (string * Fs.node) :=
  [("run", Fs.Dir [("b.ckpt-12", checkpoint_file);
                   ("a.ckpt-5.index", checkpoint_file);
                   ("a.ckpt-5", checkpoint_file)])].

(** Folders in which [.index] is the end of the only entry, and in which
    it is in the middle of it. *)
Definition index_only : list (string * Fs.node) :=
  [("run", Fs.Dir [("a.ckpt-5.index", checkpoint_file)])].
Definition index_inside : list (string * Fs.node) :=
  [("run", Fs.Dir [("m.ckpt-.index7", checkpoint_file)])].

(** A checkpoint directory whose only entry is a regular file with a
    number for its name. *)
Definition numbered_file : list (string * Fs.node) :=
  [("ckpt", Fs.Dir [("7", Fs.File (Fs.Text "notes"))])].

(** A registry in which [data] is declared and set already. *)
Definition preset (argv : list string) : world (list string) :=
  {| fs := Fs.Dir [configs]; sys_argv := argv; sys_modules := ∅;
     FLAGS := {| declared := ["data"]; __flags := {["data" := VStr "preset"]};
                 __parsed := true |} |}.

(** The command line, and what [git] may give. *)
Definition argv : list string := ["train.py"; "--data=mnist"].
Definition not_a_repository : exn + string := inl CalledProcessError.
Definition revision : exn + string :=
  inr (" 4f2a9c" +:+ String Re.newline "").

(** [init_checkpoint] with these collaborators and the two config files;
    [git] tells what the revision lookup gives. *)
Definition run (git : exn + string) (checkpoint_dir : string) (resume : bool)
  : M (list string) (string * option string) :=
  init_checkpoint load_source import_module parse git
    checkpoint_dir "cfg/data.py" "cfg/model.py" resume.

(** The second part of [init_checkpoint] with these collaborators. *)
Definition load_and_parse : M (list string) () :=
  load_and_parse_flags load_source import_module parse
    "cfg/data.py" "cfg/model.py".

(** A checkpoint directory whose run folders are numbered with gaps, the
    last of them spelled [007]. *)
Definition odd_runs : list (string * Fs.node) :=
  [("ckpt",
    Fs.Dir [("007", Fs.Dir [("flags.json", Fs.File (Fs.Json ∅))]);
            ("3", Fs.Dir [("flags.json", Fs.File (Fs.Json ∅))]);
            (".git", Fs.Dir []);
            ("1", Fs.Dir [])])].

(** A checkpoint directory with a file of notes beside the run folder. *)
Definition with_notes : list (string * Fs.node) :=
  [("ckpt",
    Fs.Dir [("1", Fs.Dir [("flags.json", Fs.File (Fs.Json ∅))]);
            ("notes.txt", Fs.File (Fs.Text "learning rate too high"))])].

(** Another model config of the same file name, in another directory. *)
Definition other_model : list (string * Fs.node) :=
  [("other", Fs.Dir [("model.py", Fs.File (Fs.Text "flags of another model"))])].

(** The [load] functions of the config modules: the model config has
    one, the data config has none. *)
Definition module_load (name : string) : option (M (list string) string) :=
  if String.eqb name "model" then Some (λ w, Ok "a model" w) else None.

(** The world of a new process that finds the files of [w]. *)
Definition restarted (w : world (list string)) : world (list string) :=
  {| fs := fs w; sys_argv := ["train.py"; "--model=resnet"]; sys_modules := ∅;
     FLAGS := empty_registry |}.

End Example.

Section strings.
Implicit Types (s t : string) (c a : ascii).

Lemma split_nonempty c s : Py.split c s ≠ [].
Proof.
  induction s as [|a s IH]; simpl; [done|].
  destruct (Ascii.eqb a c); [done|]. by destruct (Py.split c s).
Qed.

Lemma split_without c s : Spec.contains c s = false → Py.split c s = [s].
Proof.
  induction s as [|a s IH]; simpl; [done|].
  destruct (Ascii.eqb a c); simpl; [done|]. intros H. by rewrite IH.
Qed.

Lemma split_with c s :
  Spec.contains c s = true → ∃ x y l, Py.split c s = x :: y :: l.
Proof.
  induction s as [|a s IH]; simpl; [done|].
  destruct (Ascii.eqb a c); simpl.
  - intros _. destruct (Spec.contains c s) eqn:Hc.
    + destruct (IH eq_refl) as (x & y & l & ->). eauto.
    + rewrite split_without by done. eauto.
  - intros H. destruct (IH H) as (x & y & l & ->). eauto.
Qed.

Lemma last_split c s : Py.last_item (Py.split c s) = Some (Spec.after_last c s).
Proof.
  unfold Py.last_item.
  induction s as [|a s IH]; simpl; [done|].
  destruct (Spec.contains c s) eqn:Hc.
  - destruct (split_with c s Hc) as (x & y & l & Hs). rewrite Hs in IH.
    rewrite Hs. destruct (Ascii.eqb a c); rewrite <- IH; done.
  - rewrite split_without by done. by destruct (Ascii.eqb a c).
Qed.

Lemma head_split c s : Py.first_item (Py.split c s) = Some (Spec.before_first c s).
Proof.
  unfold Py.first_item. induction s as [|a s IH]; simpl; [done|].
  destruct (Ascii.eqb a c); [done|].
  destruct (Py.split c s); simpl in *; [done|]. by simplify_eq.
Qed.

Lemma extract_itr_segment path :
  extract_itr_from_modelfile path = int (Spec.iteration_segment path).
Proof.
  unfold extract_itr_from_modelfile, Spec.iteration_segment.
  by rewrite last_split, head_split.
Qed.
End strings.

Section numbers.
Implicit Types (s t : string) (c a : ascii).

Lemma is_digit_cases c :
  Re.is_digit c = true →
  c ∈ ["0"; "1"; "2"; "3"; "4"; "5"; "6"; "7"; "8"; "9"]%char.
Proof.
  destruct c as [[] [] [] [] [] [] [] []]; cbv; intros H; try discriminate H;
    repeat (first [apply list_elem_of_here | apply list_elem_of_further]).
Qed.

Lemma is_digit_not_space c : Re.is_digit c = true → Ascii.is_space c = false.
Proof. intros H%is_digit_cases. set_unfold. by repeat destruct H as [->|H]. Qed.

Lemma uint_of_char_digit c u :
  Re.is_digit c = true → is_Some (uint_of_char c (Some u)).
Proof. intros H%is_digit_cases. set_unfold. by repeat destruct H as [->|H]. Qed.

Lemma all_digits_uint s :
  Spec.all_digits s = true → is_Some (NilEmpty.uint_of_string s).
Proof.
  induction s as [|c s IH]; simpl; [done|].
  intros [Hc Hs]%andb_true_iff. destruct (IH Hs) as [u ->].
  by apply uint_of_char_digit.
Qed.

Lemma all_digits_rstrip s : Spec.all_digits s = true → Py.rstrip s = s.
Proof.
  induction s as [|c s IH]; simpl; [done|].
  intros [Hc Hs]%andb_true_iff. rewrite IH by done.
  rewrite is_digit_not_space by done. by destruct s.
Qed.

Lemma all_digits_rstrip_newline s :
  Spec.all_digits s = true → Py.rstrip (s +:+ String Re.newline "") = s.
Proof.
  induction s as [|c s IH]; simpl; [done|].
  intros [Hc Hs]%andb_true_iff. change (String.append s ?t) with (s +:+ t).
  rewrite IH by done.
  rewrite is_digit_not_space by done. by destruct s.
Qed.

Lemma all_digits_int_digits c s t :
  Re.is_digit c = true → Spec.all_digits s = true →
  Py.strip t = String c s →
  ∃ n, Py.int t = Some n ∧ 0 ≤ n.
Proof.
  intros Hc Hs Ht. unfold Py.int. rewrite Ht.
  assert (Hd : Spec.all_digits (String c s) = true) by (simpl; by rewrite Hc, Hs).
  destruct (all_digits_uint _ Hd) as [u Hu].
  assert (Py.int_digits (String c s) = Some (Z.of_uint u)) as Hi.
  { unfold Py.int_digits. by rewrite Hu. }
  exists (Z.of_uint u). split; [|unfold Z.of_uint; lia].
  apply is_digit_cases in Hc. set_unfold.
  by repeat destruct Hc as [->|Hc].
Qed.
End numbers.

Section decimal.
Implicit Types (s t : string) (c a : ascii).

Lemma string_of_uint_digits u :
  Spec.all_digits (NilEmpty.string_of_uint u) = true.
Proof. induction u; simpl; auto. Qed.

Lemma string_of_uint_nonempty p :
  ∃ c s, NilEmpty.string_of_uint (Pos.to_uint p) = String c s
         ∧ Re.is_digit c = true ∧ Spec.all_digits s = true.
Proof.
  pose proof (string_of_uint_digits (Pos.to_uint p)) as Hd.
  pose proof (Unsigned.to_uint_nonnil p) as Hn.
  destruct (Pos.to_uint p) as [|u|u|u|u|u|u|u|u|u|u]; [done|..]; simpl in *; eauto.
Qed.

Lemma int_digits_str_pos p :
  Py.int_digits (NilEmpty.string_of_uint (Pos.to_uint p)) = Some (Z.pos p).
Proof.
  destruct (string_of_uint_nonempty p) as (c & s & Hs & _).
  unfold Py.int_digits. rewrite Hs, <- Hs, NilEmpty.usu. simpl.
  unfold Z.of_uint. by rewrite Unsigned.of_to.
Qed.

Lemma strip_str_pos p :
  Py.strip (NilEmpty.string_of_uint (Pos.to_uint p))
  = NilEmpty.string_of_uint (Pos.to_uint p).
Proof.
  destruct (string_of_uint_nonempty p) as (c & s & Hs & Hc & Hd).
  rewrite Hs. unfold Py.strip. simpl. rewrite is_digit_not_space by done.
  apply (all_digits_rstrip (String c s)). simpl. by rewrite Hc, Hd.
Qed.

(** [int(str(n))] is [n]. *)
Lemma int_str n : Py.int (Py.str n) = Some n.
Proof.
  unfold Py.str. destruct n as [|p|p]; simpl; [done| |].
  - unfold Py.int. rewrite strip_str_pos.
    destruct (string_of_uint_nonempty p) as (c & s & Hs & Hc & Hd).
    rewrite <- int_digits_str_pos. rewrite Hs.
    apply is_digit_cases in Hc. set_unfold. by repeat destruct Hc as [->|Hc].
  - unfold Py.int, Py.strip. simpl.
    change (Py.rstrip (String "-" ?s)) with
      (match Py.rstrip s with "" => "-" | r => String "-" r end).
    pose proof (strip_str_pos p) as Hs. unfold Py.strip in Hs.
    destruct (string_of_uint_nonempty p) as (c & s & Hp & Hc & Hd).
    rewrite Hp in *. simpl in Hs. rewrite is_digit_not_space in Hs by done.
    rewrite Hs. rewrite <- Hp, int_digits_str_pos. done.
Qed.

Lemma str_pos_digits n :
  0 < n → ∃ c s, Py.str n = String c s ∧ Re.is_digit c = true ∧ Spec.all_digits s = true.
Proof. destruct n as [|p|p]; [lia| |lia]. intros _. apply string_of_uint_nonempty. Qed.

Lemma str_nonempty n : Py.str n ≠ "".
Proof.
  intros H. pose proof (int_str n) as Hn. rewrite H in Hn. done.
Qed.

Lemma str_inj n m : Py.str n = Py.str m → n = m.
Proof. intros H. apply (f_equal Py.int) in H. rewrite !int_str in H. congruence. Qed.
End decimal.

Section pattern.
Implicit Types (s t : string) (c a : ascii).

Lemma contains_app c s t :
  Spec.contains c (s +:+ t) = Spec.contains c s || Spec.contains c t.
Proof.
  induction s as [|a s IH]; [done|].
  change (String a s +:+ t) with (String a (s +:+ t)). simpl.
  rewrite IH. by rewrite orb_assoc.
Qed.

Lemma all_digits_contains c s :
  Re.is_digit c = false → Spec.all_digits s = true → Spec.contains c s = false.
Proof.
  intros Hc. induction s as [|a s IH]; simpl; [done|].
  intros [Ha Hs]%andb_true_iff. rewrite IH by done.
  destruct (Ascii.eqb_spec a c) as [->|]; [congruence|done].
Qed.

(** What [[0-9]+$] accepts: digits, and maybe one final newline. *)
Lemma digits_end_inv seen s :
  Re.digits_end seen s = true →
  ∃ ds tail, s = ds +:+ tail ∧ Spec.all_digits ds = true
    ∧ (tail = "" ∨ tail = String Re.newline "")
    ∧ (seen = false → ds ≠ "").
Proof.
  revert seen. induction s as [|a s IH]; intros seen; cbn [Re.digits_end].
  - intros ->. exists "", "". naive_solver.
  - destruct (Re.is_digit a) eqn:Ha.
    + intros (ds & tail & -> & Hd & Ht & _)%IH.
      exists (String a ds), tail. simpl. rewrite Ha, Hd. naive_solver.
    + intros [-> Hs%String.eqb_eq]%andb_true_iff.
      exists "", (String a s). naive_solver.
Qed.

Lemma app_empty_r s : s +:+ "" = s.
Proof. induction s as [|a s IH]; [done|]. change (String a s +:+ "") with (String a (s +:+ "")). by f_equal. Qed.

Lemma digits_tail_int ds tail :
  Spec.all_digits ds = true → ds ≠ "" →
  tail = "" ∨ tail = String Re.newline "" →
  ∃ n, Py.int (ds +:+ tail) = Some n ∧ 0 ≤ n.
Proof.
  intros Hd Hne Ht. destruct ds as [|c ds]; [done|].
  pose proof Hd as Hcd.
  simpl in Hd. apply andb_true_iff in Hd as [Hc Hd].
  apply (all_digits_int_digits c ds); [done..|].
  unfold Py.strip.
  assert (Py.lstrip (String c ds +:+ tail) = String c ds +:+ tail) as ->.
  { change (String c ds +:+ tail) with (String c (ds +:+ tail)).
    simpl. by rewrite is_digit_not_space. }
  destruct Ht as [-> | ->].
  - rewrite app_empty_r. by apply all_digits_rstrip.
  - by apply all_digits_rstrip_newline.
Qed.

Lemma prefix_inv p s : String.prefix p s = true → s = p +:+ Py.drop (String.length p) s.
Proof.
  revert s. induction p as [|a p IH]; intros s; [done|].
  destruct s as [|b s]; [done|]. simpl.
  destruct (Ascii.ascii_dec a b) as [->|]; [|done].
  intros H. apply IH in H. change (String b p +:+ ?t) with (String b (p +:+ t)). by f_equal.
Qed.

Lemma before_first_without c s :
  Spec.contains c s = false → Spec.before_first c s = s.
Proof.
  induction s as [|a s IH]; simpl; [done|].
  destruct (Ascii.eqb a c); simpl; [done|]. intros H. by rewrite IH.
Qed.

Lemma after_last_without c s :
  Spec.contains c s = false → Spec.after_last c s = s.
Proof.
  destruct s as [|a s]; simpl; [done|].
  destruct (Ascii.eqb a c); simpl; [done|]. by intros ->.
Qed.

Lemma after_last_app c s t :
  Spec.contains c t = false →
  Spec.after_last c (s +:+ String c t) = t.
Proof.
  intros Ht. induction s as [|a s IH].
  - change ("" +:+ ?x) with x. simpl. by rewrite Ht, Ascii.eqb_refl.
  - change (String a s +:+ ?x) with (String a (s +:+ x)). simpl.
    rewrite contains_app. simpl. rewrite Ascii.eqb_refl. simpl.
    by rewrite orb_true_r.
Qed.

(** The pattern at the start of [s]: the iteration segment is its digits. *)
Lemma match_here_segment s :
  Re.match_here s = true →
  ∃ n, Py.int (Spec.iteration_segment s) = Some n ∧ 0 ≤ n.
Proof.
  destruct s as [|c rest]; [done|]. simpl.
  intros [[_ Hp]%andb_true_iff Hd]%andb_true_iff.
  apply prefix_inv in Hp.
  apply digits_end_inv in Hd as (ds & tail & Hdt & Hds & Htail & Hne).
  simpl in Hp. rewrite Hdt in Hp.
  assert (Spec.contains "-" (ds +:+ tail) = false) as Hc1.
  { rewrite contains_app, (all_digits_contains "-") by done. by destruct Htail as [-> | ->]. }
  assert (Spec.contains "." (ds +:+ tail) = false) as Hc2.
  { rewrite contains_app, (all_digits_contains ".") by done. by destruct Htail as [-> | ->]. }
  unfold Spec.iteration_segment.
  replace (String c rest) with (String c "ckpt" +:+ String "-" (ds +:+ tail))
    by (rewrite Hp; done).
  rewrite after_last_app by done. rewrite before_first_without by done.
  apply digits_tail_int; auto.
Qed.

Lemma match_here_contains s : Re.match_here s = true → Spec.contains "-" s = true.
Proof.
  destruct s as [|c rest]; [done|]. simpl.
  intros [[_ Hp]%andb_true_iff _]%andb_true_iff.
  apply prefix_inv in Hp. rewrite Hp. simpl. by rewrite orb_true_r.
Qed.

Lemma search_contains s : Re.search s = true → Spec.contains "-" s = true.
Proof.
  induction s as [|a s IH]; [done|].
  change (Re.search (String a s)) with (Re.match_here (String a s) || Re.search s).
  intros [H|H]%orb_true_iff; [by apply match_here_contains|].
  simpl. rewrite IH by done. by rewrite orb_true_r.
Qed.

(** A name that the pattern finds has an iteration number: on it
    [extract_itr_from_modelfile] does not raise. *)
Lemma search_extract s :
  Re.search s = true → ∃ n, extract_itr_from_modelfile s = inr n ∧ 0 ≤ n.
Proof.
  rewrite extract_itr_segment. unfold int.
  induction s as [|a s IH]; [done|].
  change (Re.search (String a s)) with (Re.match_here (String a s) || Re.search s).
  destruct (Re.match_here (String a s)) eqn:Hm.
  - intros _. destruct (match_here_segment _ Hm) as (n & -> & ?). eauto.
  - simpl. intros Hs. destruct (IH Hs) as (n & Hn & ?).
    unfold Spec.iteration_segment in *. simpl.
    rewrite (search_contains s Hs). eauto.
Qed.
End pattern.

Section paths.
Implicit Types (s t p a b : string) (c : ascii).

Lemma app_assoc_string s t u : (s +:+ t) +:+ u = s +:+ (t +:+ u).
Proof.
  induction s as [|x s IH]; [done|].
  change (String x s +:+ t) with (String x (s +:+ t)).
  change (String x ?y +:+ ?z) with (String x (y +:+ z)). by f_equal.
Qed.

Lemma split_app c s t :
  Py.split c (s +:+ String c t) = Py.split c s ++ Py.split c t.
Proof.
  induction s as [|y s IH].
  - change ("" +:+ ?x) with x. simpl. by rewrite Ascii.eqb_refl.
  - change (String y s +:+ ?x) with (String y (s +:+ x)). simpl.
    rewrite IH. destruct (Ascii.eqb y c); [done|].
    pose proof (split_nonempty c s). by destruct (Py.split c s).
Qed.

Lemma take_drop n s : Py.take n s +:+ Py.drop n s = s.
Proof.
  revert s. induction n as [|n IH]; intros [|z s]; simpl; try done.
  change (String z ?x +:+ ?y) with (String z (x +:+ y)). by rewrite IH.
Qed.

Lemma endswith_inv s p : Py.endswith s p = true → ∃ s', s = s' +:+ p.
Proof.
  unfold Py.endswith. intros [_ H%String.eqb_eq]%andb_true_iff.
  exists (Py.take (String.length s - String.length p) s).
  rewrite <- H at 2. by rewrite take_drop.
Qed.

Lemma components_app_sep s t :
  Fs.components (s +:+ String "/" t) = Fs.components s ++ Fs.components t.
Proof. unfold Fs.components. by rewrite split_app, filter_app. Qed.

(** The components of [os.path.join(a, b)] for a relative [b]. *)
Lemma components_join a b :
  Py.startswith b "/" = false →
  Fs.components (OsPath.join a b) = Fs.components a ++ Fs.components b.
Proof.
  intros Hb. unfold OsPath.join. rewrite Hb.
  destruct (String.eqb_spec a "") as [->|Ha]; [done|]. simpl.
  destruct (Py.endswith a "/") eqn:He.
  - apply endswith_inv in He as [a' ->].
    rewrite app_assoc_string. change ("/" +:+ b) with (String "/" b).
    rewrite components_app_sep.
    replace (a' +:+ "/") with (a' +:+ String "/" "") by done.
    rewrite components_app_sep. simpl. by rewrite app_nil_r.
  - change ("/" +:+ b) with (String "/" b). apply components_app_sep.
Qed.

(** A name without a slash, other than [""] and ["."], is one component. *)
Lemma components_name s :
  Spec.contains "/" s = false → s ≠ "" → s ≠ "." →
  Fs.components s = [s].
Proof.
  intros Hc Hn Hd. unfold Fs.components. rewrite split_without by done.
  rewrite filter_cons_True by done. done.
Qed.

Lemma startswith_contains s c :
  Spec.contains c s = false → Py.startswith s (String c "") = false.
Proof.
  destruct s as [|z s]; [done|]. unfold Py.startswith. simpl.
  destruct (Ascii.eqb_spec z c) as [->|Hne]; [done|]. intros _.
  destruct (Ascii.ascii_dec c z) as [->|]; [done|]. done.
Qed.

Lemma components_join_name a s :
  Spec.contains "/" s = false → s ≠ "" → s ≠ "." →
  Fs.components (OsPath.join a s) = Fs.components a ++ [s].
Proof.
  intros. rewrite components_join by by apply startswith_contains.
  by rewrite (components_name s).
Qed.

Lemma app_eq_empty s t : s +:+ t = "" → t = "".
Proof. destruct s; [done|]. by intros [=]. Qed.

Lemma join_nonempty a b : b ≠ "" → OsPath.join a b ≠ "".
Proof.
  intros Hb. unfold OsPath.join. destruct (Py.startswith b "/"); [done|].
  destruct (_ || _).
  - by intros ?%app_eq_empty.
  - intros H%app_eq_empty. by apply app_eq_empty in H.
Qed.

Lemma str_is_name n :
  0 < n →
  Spec.contains "/" (Py.str n) = false ∧ Py.str n ≠ "" ∧ Py.str n ≠ "."
  ∧ Py.startswith (Py.str n) "_" = false ∧ Py.startswith (Py.str n) "." = false.
Proof.
  intros Hn. destruct (str_pos_digits n Hn) as (c & s & -> & Hc & Hs).
  assert (Spec.all_digits (String c s) = true) as Hd by (simpl; by rewrite Hc, Hs).
  split; [by apply all_digits_contains|].
  apply is_digit_cases in Hc. set_unfold.
  repeat destruct Hc as [->|Hc]; try done.
Qed.

Lemma components_join_str a n :
  0 < n → Fs.components (OsPath.join a (Py.str n)) = Fs.components a ++ [Py.str n].
Proof. intros (? & ? & ? & _)%str_is_name. by apply components_join_name. Qed.

Lemma components_join_flag_file a :
  Fs.components (OsPath.join a FLAG_FILE) = Fs.components a ++ [FLAG_FILE].
Proof. by apply components_join_name. Qed.
End paths.

Section file_system.
Import Fs.
Implicit Types (t x : node) (cs ds : list string) (es : list (string * node)).

Local Ltac obind := cbn [mbind option_bind].

Lemma put_cons c c' cs x es :
  put (c :: c' :: cs) x (Dir es)
  = lookup_entry c es ≫= λ sub, put (c' :: cs) x sub
                      ≫= λ sub', Some (Dir (set_entry c sub' es)).
Proof. done. Qed.

Lemma walk_app cs ds t : walk (cs ++ ds) t = walk cs t ≫= walk ds.
Proof.
  revert t. induction cs as [|c cs IH]; intros t; simpl; [done|].
  destruct t as [|es]; [done|]. destruct (lookup_entry c es); simpl; auto.
Qed.

Lemma lookup_set_entry c x es : lookup_entry c (set_entry c x es) = Some x.
Proof.
  induction es as [|[n y] es IH]; simpl.
  - by rewrite decide_True.
  - destruct (decide (n = c)) as [->|Hne]; simpl.
    + by rewrite decide_True.
    + by rewrite decide_False.
Qed.

Lemma lookup_set_entry_ne c d x es :
  c ≠ d → lookup_entry d (set_entry c x es) = lookup_entry d es.
Proof.
  intros Hcd. induction es as [|[n y] es IH]; simpl.
  - by rewrite decide_False.
  - destruct (decide (n = c)) as [->|Hne]; simpl.
    + by rewrite !decide_False.
    + destruct (decide (n = d)); auto.
Qed.

Lemma lookup_entry_None c es : lookup_entry c es = None ↔ c ∉ es.*1.
Proof.
  induction es as [|[n y] es IH]; simpl.
  - split; [|done]. intros _. apply not_elem_of_nil.
  - rewrite not_elem_of_cons. destruct (decide (n = c)) as [->|Hne].
    + split; [done|]. by intros [? _].
    + rewrite IH. split; [by split|by intros [_ ?]].
Qed.

Lemma set_entry_new c x es :
  lookup_entry c es = None → set_entry c x es = es ++ [(c, x)].
Proof.
  induction es as [|[n y] es IH]; simpl; [done|].
  destruct (decide (n = c)); [done|]. intros H. by rewrite IH.
Qed.

(** What was put at [cs] is found at [cs]. *)
Lemma walk_put cs x t t' : put cs x t = Some t' → walk cs t' = Some x.
Proof.
  revert t t'. induction cs as [|c cs IH]; intros t t'.
  - by intros [= ->].
  - destruct t as [|es]; [done|]. destruct cs as [|c' cs].
    + intros [= <-]. simpl. by rewrite lookup_set_entry.
    + rewrite put_cons. destruct (lookup_entry c es) as [sub|]; obind; [|done].
      destruct (put (c' :: cs) x sub) as [sub'|] eqn:Hp; obind; [|done].
      intros [= <-]. cbn [walk]. rewrite lookup_set_entry. obind.
      by apply (IH sub).
Qed.

(** An entry can be put into a directory. *)
Lemma put_child cs c x t es :
  walk cs t = Some (Dir es) →
  ∃ t', put (cs ++ [c]) x t = Some t'
        ∧ walk cs t' = Some (Dir (set_entry c x es)).
Proof.
  revert t. induction cs as [|d cs IH]; intros t; simpl.
  - intros [= ->]. eauto.
  - destruct t as [|es0]; [done|].
    destruct (lookup_entry d es0) as [sub|] eqn:Hd; simpl; [|done].
    intros Hw. destruct (IH sub Hw) as (sub' & Hp & Hw').
    rewrite Hp. simpl. destruct (cs ++ [c]) eqn:Hcs; [by destruct cs|].
    eexists. split; [done|]. simpl. by rewrite lookup_set_entry.
Qed.

(** Putting a file where no directory is keeps every directory. *)
Lemma put_file_keeps_dirs cs c t t' ds :
  (∀ es, walk cs t ≠ Some (Dir es)) →
  put cs (File c) t = Some t' →
  is_Some (walk ds t ≫= λ x, match x with Dir es => Some es | _ => None end) →
  is_Some (walk ds t' ≫= λ x, match x with Dir es => Some es | _ => None end).
Proof.
  revert t t' ds. induction cs as [|a cs IH]; intros t t' ds Hnd.
  - intros [= <-]. simpl in Hnd. destruct t as [c0|es]; [|by destruct (Hnd es)].
    destruct ds; simpl; by intros [? ?].
  - destruct t as [c0|es]; [done|]. destruct cs as [|a' cs].
    + intros [= <-]. destruct ds as [|d ds]; simpl; [eauto|].
      destruct (decide (a = d)) as [->|Hne].
      * rewrite lookup_set_entry. simpl in Hnd.
        destruct (lookup_entry d es) as [[c1|es1]|]; simpl in *;
          [|by destruct (Hnd es1)|by intros [? ?]].
        destruct ds; simpl; by intros [? ?].
      * by rewrite lookup_set_entry_ne.
    + rewrite put_cons. destruct (lookup_entry a es) as [sub|] eqn:Ha; obind; [|done].
      destruct (put (a' :: cs) (File c) sub) as [sub'|] eqn:Hp; obind; [|done].
      intros [= <-]. destruct ds as [|d ds]; simpl; [eauto|].
      destruct (decide (a = d)) as [->|Hne].
      * rewrite lookup_set_entry, Ha. simpl. apply (IH sub); [|done].
        intros es1. specialize (Hnd es1). cbn [walk] in Hnd. by rewrite Ha in Hnd.
      * by rewrite lookup_set_entry_ne.
Qed.

Lemma locate_Some p cs : locate p = Some cs ↔ p ≠ "" ∧ cs = components p.
Proof.
  unfold locate. destruct (String.eqb_spec p "") as [->|Hp].
  - split; [done|]. by intros [? _].
  - split; [by intros [= <-]|]. by intros [_ ->].
Qed.

Lemma locate_nonempty p : p ≠ "" → locate p = Some (components p).
Proof. intros Hp. by apply locate_Some. Qed.

Lemma locate_join_name a s :
  Spec.contains "/" s = false → s ≠ "" → s ≠ "." →
  locate (OsPath.join a s) = Some (components a ++ [s]).
Proof.
  intros. rewrite locate_nonempty by by apply join_nonempty.
  by rewrite components_join_name.
Qed.

Lemma locate_join_str a n :
  0 < n → locate (OsPath.join a (Py.str n)) = Some (components a ++ [Py.str n]).
Proof. intros (? & ? & ? & _)%str_is_name. by apply locate_join_name. Qed.

Lemma locate_join_flag_file a :
  locate (OsPath.join a FLAG_FILE) = Some (components a ++ [FLAG_FILE]).
Proof. by apply locate_join_name. Qed.

Lemma resolve_located t p cs : locate p = Some cs → resolve t p = walk cs t.
Proof. unfold resolve. by intros ->. Qed.

Lemma isdir_walk t p :
  isdir t p = true ↔ ∃ cs es, locate p = Some cs ∧ walk cs t = Some (Dir es).
Proof.
  unfold isdir, resolve. destruct (locate p) as [cs|]; simpl.
  - destruct (walk cs t) as [[|es]|] eqn:Hw.
    + split; [done|]. intros (? & ? & ? & ?). by simplify_eq.
    + split; [eauto|done].
    + split; [done|]. intros (? & ? & ? & ?). by simplify_eq.
  - split; [done|]. intros (? & ? & ? & ?). by simplify_eq.
Qed.

Lemma listdir_walk t p names :
  listdir t p = Some names →
  p ≠ "" ∧ ∃ es, walk (components p) t = Some (Dir es) ∧ names = es.*1.
Proof.
  unfold listdir, resolve. destruct (locate p) as [cs|] eqn:Hcs; simpl; [|done].
  apply locate_Some in Hcs as [Hp ->].
  destruct (walk (components p) t) as [[|es]|]; [done| |done].
  intros [= <-]. eauto.
Qed.

Lemma exists_false t p cs :
  locate p = Some cs → exists_ t p = false ↔ walk cs t = None.
Proof.
  intros Hp. unfold exists_. rewrite (resolve_located _ _ _ Hp).
  rewrite bool_decide_eq_false, <- eq_None_not_Some. done.
Qed.

Lemma exists_empty t : exists_ t "" = false.
Proof. done. Qed.

(** [open(q, 'w')] removes no directory. *)
Lemma write_keeps_dirs t q c t' p :
  write t q c = Some t' → isdir t p = true → isdir t' p = true.
Proof.
  unfold write. destruct (isdir t q) eqn:Hq; [done|].
  destruct (locate q) as [cs|] eqn:Hcs; simpl; [|done]. intros Hp.
  rewrite !isdir_walk. intros (ds & es & Hds & Hes).
  pose proof (put_file_keeps_dirs cs c t t' ds) as H.
  destruct H as [es' H]; [|done|by rewrite Hes; eauto|].
  - intros es1 Hw. assert (isdir t q = true) by (apply isdir_walk; eauto). congruence.
  - destruct (walk ds t') as [[|es1]|] eqn:Hw; simpl in H; try done. eauto.
Qed.

Lemma read_write t q c t' : write t q c = Some t' → read t' q = Some c.
Proof.
  unfold write, read, resolve. destruct (isdir t q); [done|].
  destruct (locate q) as [cs|]; simpl; [|done].
  intros H%walk_put. by rewrite H.
Qed.

(** [os.makedirs] of a missing path leaves an empty directory there. *)
Lemma walk_ensure cs t t' :
  walk cs t = None ∨ t = Dir [] →
  ensure cs t = Some t' → walk cs t' = Some (Dir []).
Proof.
  revert t t'. induction cs as [|c cs IH]; intros t t'; simpl.
  - intros [?| ->]; [done|]. by intros [= <-].
  - destruct t as [|es]; [done|]. intros Hw.
    destruct (ensure cs (default (Dir []) (lookup_entry c es))) as [sub'|] eqn:He; simpl; [|done].
    intros [= <-]. simpl. rewrite lookup_set_entry. simpl.
    apply IH in He; [done|].
    destruct (lookup_entry c es) as [sub|] eqn:Hc; simpl; [|by right].
    destruct Hw as [Hw|[= ->]]; [by left|done].
Qed.
End file_system.

Section find_model_files.
Variable parser : Type.
Implicit Types (w : world parser) (names gs : list string).

Lemma find_model_files_listing model_dir w names :
  Fs.listdir (fs w) model_dir = Some names →
  find_model_files model_dir w
  = from_sum parser (model_files_dict model_dir (checkpoint_names names) ∅) w.
Proof. intros H. unfold find_model_files, bind, get. rewrite H. done. Qed.

(** The dictionary comprehension: for each key, the last name with that
    key gives the path. *)
Lemma model_files_dict_lookup model_dir gs acc :
  Forall (λ g, Re.search g = true) gs →
  ∃ m, model_files_dict model_dir gs acc = inr m ∧
    ∀ itr, m !! itr =
      match last (filter (λ g, extract_itr_from_modelfile g = inr itr) gs) with
      | Some g => Some (OsPath.join model_dir g)
      | None => acc !! itr
      end.
Proof.
  intros Hgs. revert acc. induction Hgs as [|g gs Hg Hgs IH]; intros acc.
  - exists acc. done.
  - simpl. destruct (search_extract g Hg) as (n & Hn & _). rewrite Hn.
    destruct (IH (<[n:=OsPath.join model_dir g]> acc)) as (m & -> & Hm).
    exists m. split; [done|]. intros itr. rewrite Hm.
    destruct (decide (n = itr)) as [->|Hne].
    + rewrite filter_cons_True by done. rewrite lookup_insert_eq.
      destruct (filter _ gs) as [|g' l] eqn:Hf; [done|].
      rewrite last_cons_cons.
      destruct (last (g' :: l)) eqn:Hl; [done|]. by apply last_None in Hl.
    + rewrite filter_cons_False by congruence. by rewrite lookup_insert_ne.
Qed.
End find_model_files.

Section max_key.
Context {A : Type}.
Implicit Types (d : gmap Z A).

Lemma foldr_max_ge k ks : k ≤ foldr Z.max k ks ∧ Forall (λ x, x ≤ foldr Z.max k ks) ks.
Proof.
  induction ks as [|x ks [IH1 IH2]]; simpl; [split; [lia|constructor]|].
  split; [lia|]. constructor; [lia|].
  eapply Forall_impl; [done|]. simpl. lia.
Qed.

Lemma foldr_max_in k ks : foldr Z.max k ks ∈ k :: ks.
Proof.
  induction ks as [|x ks IH]; simpl; [apply list_elem_of_here|].
  destruct (Z.max_spec x (foldr Z.max k ks)) as [[_ ->]|[_ ->]].
  - apply elem_of_cons in IH as [IH|IH].
    + rewrite IH. apply list_elem_of_here.
    + by do 2 apply list_elem_of_further.
  - apply list_elem_of_further, list_elem_of_here.
Qed.

Lemma max_key_Some d : d ≠ ∅ → is_Some (max_key d).
Proof.
  intros Hd. unfold max_key. destruct (map_to_list d) as [|[k a] l] eqn:Hl.
  - by apply map_to_list_empty_iff in Hl.
  - simpl. eauto.
Qed.

Lemma max_key_spec d k :
  max_key d = Some k → is_Some (d !! k) ∧ ∀ k', is_Some (d !! k') → k' ≤ k.
Proof.
  unfold max_key. destruct (map_to_list d).*1 as [|k0 ks] eqn:Hl; [done|].
  intros [= <-].
  assert (∀ k', is_Some (d !! k') ↔ k' ∈ k0 :: ks) as Hdom.
  { intros k'. rewrite <- Hl, list_elem_of_fmap. split.
    - intros [a Ha]. exists (k', a). split; [done|]. by apply elem_of_map_to_list.
    - intros ([k1 a] & -> & Ha). exists a. by apply elem_of_map_to_list. }
  split.
  - apply Hdom, foldr_max_in.
  - intros k' Hk'%Hdom. destruct (foldr_max_ge k0 ks) as [H1 H2].
    apply elem_of_cons in Hk' as [->|Hk']; [done|].
    rewrite Forall_forall in H2. by apply H2.
Qed.
End max_key.

Section monad.
Variable parser : Type.
Abbreviation M := (M parser).
Abbreviation world := (world parser).
Implicit Types (w : world) (e : exn).

Lemma bind_step {A B} (m : M A) (k : A → M B) w a w1 :
  m w = Ok a w1 → bind parser m k w = k a w1.
Proof. unfold bind. by intros ->. Qed.

Lemma bind_raise {A B} (m : M A) (k : A → M B) w e w1 :
  m w = Raise e w1 → bind parser m k w = Raise e w1.
Proof. unfold bind. by intros ->. Qed.

Lemma bind_Ok_inv {A B} (m : M A) (k : A → M B) w b w' :
  bind parser m k w = Ok b w' → ∃ a w1, m w = Ok a w1 ∧ k a w1 = Ok b w'.
Proof. unfold bind. destruct (m w) as [a w1|e w1]; [eauto|done]. Qed.

Lemma bind_Raise_inv {A B} (m : M A) (k : A → M B) w e w' :
  bind parser m k w = Raise e w' →
  m w = Raise e w' ∨ ∃ a w1, m w = Ok a w1 ∧ k a w1 = Raise e w'.
Proof. unfold bind. destruct (m w) as [a w1|e1 w1]; [eauto|]. intros [= -> ->]. eauto. Qed.

Section preserves.
Variable R : relation world.
Context `{!PreOrder R}.

Lemma preserves_ret {A} (a : A) : preserves R (ret parser a).
Proof. intros w. simpl. done. Qed.
Lemma preserves_raise {A} e : preserves R (raise parser (A:=A) e).
Proof. intros w. simpl. done. Qed.
Lemma preserves_get : preserves R (get parser).
Proof. intros w. simpl. done. Qed.
Lemma preserves_modify f : (∀ w, R w (f w)) → preserves R (modify parser f).
Proof. intros H w. simpl. done. Qed.
Lemma preserves_bind {A B} (m : M A) (k : A → M B) :
  preserves R m → (∀ a, preserves R (k a)) → preserves R (bind parser m k).
Proof.
  intros Hm Hk w. unfold bind. specialize (Hm w).
  destruct (m w) as [a w1|e w1]; simpl in *; [|done].
  etrans; [done|]. apply Hk.
Qed.
Lemma preserves_from_option {A} (o : option A) e : preserves R (from_option parser o e).
Proof. destruct o; [apply preserves_ret|apply preserves_raise]. Qed.
Lemma preserves_from_sum {A} (r : exn + A) : preserves R (from_sum parser r).
Proof. destruct r; [apply preserves_raise|apply preserves_ret]. Qed.
Lemma preserves_try_except {A} (m : M A) handles h :
  preserves R m → preserves R h → preserves R (try_except parser m handles h).
Proof.
  intros Hm Hh w. unfold try_except. specialize (Hm w).
  destruct (m w) as [a w1|e w1]; simpl in *; [done|].
  destruct (handles e); [|done]. etrans; [done|]. apply Hh.
Qed.
Lemma preserves_for_each {A} (l : list A) body :
  (∀ x, preserves R (body x)) → preserves R (for_each parser l body).
Proof.
  intros Hb. induction l as [|x l IH]; simpl; [apply preserves_ret|].
  apply preserves_bind; auto.
Qed.
Lemma preserves_if {A} (b : bool) (m1 m2 : M A) :
  preserves R m1 → preserves R m2 → preserves R (if b then m1 else m2).
Proof. intros H1 H2. destruct b; assumption. Qed.
Lemma preserves_decide {A} P `{!Decision P} (m1 m2 : M A) :
  preserves R m1 → preserves R m2 → preserves R (if decide P then m1 else m2).
Proof. intros H1 H2. destruct (decide P); assumption. Qed.
End preserves.

Global Instance same_fs_preorder : PreOrder (@same_fs parser).
Proof. split; [done|]. intros w1 w2 w3. unfold same_fs. congruence. Qed.
Global Instance dirs_kept_preorder : PreOrder (@dirs_kept parser).
Proof. split; [by intros w p|]. intros w1 w2 w3 H1 H2 p Hp. auto. Qed.
Global Instance file_kept_preorder q : PreOrder (@file_kept parser q).
Proof. split; [by intros w c|]. intros w1 w2 w3 H1 H2 c Hc. auto. Qed.

Lemma same_fs_dirs_kept w w' : same_fs w w' → dirs_kept w w'.
Proof. intros H p. by rewrite H. Qed.
Lemma same_fs_file_kept q w w' : same_fs w w' → file_kept q w w'.
Proof. intros H c. by rewrite H. Qed.

Lemma preserves_weaken {A} (R R' : relation world) (m : M A) :
  (∀ w w', R w w' → R' w w') → preserves R m → preserves R' m.
Proof. intros H Hm w. apply H, Hm. Qed.
End monad.

(** Frame conditions, function by function. *)

Ltac preserves_step :=
  lazymatch goal with
  | |- preserves _ (bind _ _ _) => apply preserves_bind; [tc_solve| |intros ?]
  | |- preserves _ (ret _ _) => apply preserves_ret; tc_solve
  | |- preserves _ (raise _ _) => apply preserves_raise; tc_solve
  | |- preserves _ (get _) => apply preserves_get; tc_solve
  | |- preserves _ (from_option _ _ _) => apply preserves_from_option; tc_solve
  | |- preserves _ (from_sum _ _) => apply preserves_from_sum; tc_solve
  | |- preserves _ (modify _ _) => apply preserves_modify; [tc_solve|intros ?]
  | |- preserves _ (try_except _ _ _ _) => apply preserves_try_except; [tc_solve| |]
  | |- preserves _ (for_each _ _ _) => apply preserves_for_each; [tc_solve|intros ?]
  | |- preserves _ (if ?b then _ else _) => destruct b
  | |- preserves _ (match ?x with _ => _ end) => destruct x
  end.

Section frames.
Variable parser : Type.
Variable load_source : string → Fs.content → FlagValues parser → exn + FlagValues parser.
Variable import_module : string → FlagValues parser → exn + FlagValues parser.
Variable FLAGS_parse_flags :
  FlagValues parser → list string → exn + (FlagValues parser * list string).
Variable git_rev_parse : exn + string.
Implicit Types (w : world parser).

Lemma json_load_same_fs path : preserves same_fs (json_load (parser:=parser) path).
Proof. unfold json_load. repeat preserves_step. Qed.

Lemma find_model_files_same_fs model_dir :
  preserves same_fs (find_model_files (parser:=parser) model_dir).
Proof. unfold find_model_files. repeat preserves_step. Qed.

Lemma run_module_same_fs name run : preserves same_fs (run_module parser name run).
Proof. unfold run_module. repeat preserves_step; done. Qed.

Lemma _import_module_same_fs path :
  preserves same_fs (_import_module parser load_source import_module path).
Proof.
  unfold _import_module.
  repeat first [apply run_module_same_fs | preserves_step].
Qed.

Lemma _load_flags_same_fs paths :
  preserves same_fs (_load_flags parser load_source import_module paths).
Proof.
  unfold _load_flags.
  repeat first [apply _import_module_same_fs | preserves_step].
Qed.

Lemma parse_flags_same_fs : preserves same_fs (parse_flags FLAGS_parse_flags).
Proof. unfold parse_flags. repeat preserves_step; done. Qed.

Lemma assert_all_flags_parsed_same_fs :
  preserves same_fs (assert_all_flags_parsed parser).
Proof. unfold assert_all_flags_parsed. repeat preserves_step. Qed.

Lemma load_and_parse_flags_same_fs dc mc :
  preserves same_fs
    (load_and_parse_flags load_source import_module FLAGS_parse_flags dc mc).
Proof.
  unfold load_and_parse_flags.
  repeat first [apply _load_flags_same_fs | apply parse_flags_same_fs
               | apply assert_all_flags_parsed_same_fs | preserves_step].
Qed.

Lemma restore_and_find_checkpoint_same_fs folder flag_path :
  preserves same_fs (restore_and_find_checkpoint (parser:=parser) folder flag_path).
Proof.
  unfold restore_and_find_checkpoint, flags_update, _restore_flags.
  repeat first [apply json_load_same_fs | apply find_model_files_same_fs
               | preserves_step]; done.
Qed.
End frames.

Section resume.
Variable parser : Type.
Implicit Types (w : world parser).

Lemma json_load_Ok path w d w' :
  json_load path w = Ok d w' → w' = w ∧ Fs.read (fs w) path = Some (Fs.Json d).
Proof.
  unfold json_load, bind, get, from_option.
  destruct (Fs.read (fs w) path) as [[d'|]|]; simpl; [|done..].
  by intros [= -> ->].
Qed.

Lemma json_load_read path w d :
  Fs.read (fs w) path = Some (Fs.Json d) → json_load path w = Ok d w.
Proof. unfold json_load, bind, get, from_option. by intros ->. Qed.

(** A folder that holds a flag file can be listed. *)
Lemma listdir_of_flag_file t folder c :
  folder ≠ "" →
  Fs.read t (OsPath.join folder FLAG_FILE) = Some c →
  ∃ names, Fs.listdir t folder = Some names.
Proof.
  intros Hf. unfold Fs.read, Fs.listdir.
  rewrite (resolve_located _ _ _ (locate_join_flag_file folder)).
  rewrite (resolve_located _ _ _ (locate_nonempty folder Hf)), walk_app.
  destruct (Fs.walk (Fs.components folder) t) as [[|es]|]; simpl; [done| |done].
  eauto.
Qed.

Lemma after_last_app_contains c s t :
  Spec.contains c t = true → Spec.after_last c (s +:+ t) = Spec.after_last c t.
Proof.
  intros Ht. induction s as [|a s IH]; [done|].
  change (String a s +:+ t) with (String a (s +:+ t)). simpl.
  by rewrite contains_app, Ht, orb_true_r.
Qed.

Lemma join_suffix a b : ∃ s, OsPath.join a b = s +:+ b.
Proof.
  unfold OsPath.join. destruct (Py.startswith b "/"); [by exists ""|].
  destruct (_ || _); [by exists a|].
  exists (a +:+ "/"). by rewrite app_assoc_string.
Qed.

(** The iteration number of a checkpoint name is that of its path. *)
Lemma extract_itr_join folder g :
  Re.search g = true →
  extract_itr_from_modelfile (OsPath.join folder g) = extract_itr_from_modelfile g.
Proof.
  intros Hg%search_contains. rewrite !extract_itr_segment.
  unfold Spec.iteration_segment. destruct (join_suffix folder g) as [s ->].
  by rewrite after_last_app_contains.
Qed.

Lemma checkpoint_names_search names :
  Forall (λ g, Re.search g = true) (checkpoint_names names).
Proof. apply Forall_forall. intros g [? _]%list_elem_of_filter. done. Qed.

Lemma last_filter_elem {A} (P : A → Prop) `{!∀ x, Decision (P x)} (l : list A) x :
  last (filter P l) = Some x → x ∈ l ∧ P x.
Proof.
  intros Hlast. assert (x ∈ filter P l) as Hx.
  { apply last_Some in Hlast as [l' ->]. set_solver. }
  apply list_elem_of_filter in Hx. tauto.
Qed.

Lemma last_filter_some {A} (P : A → Prop) `{!∀ x, Decision (P x)} (l : list A) x :
  x ∈ l → P x → is_Some (last (filter P l)).
Proof.
  intros Hx HP. destruct (last (filter P l)) eqn:Hl; [eauto|].
  apply last_None in Hl. assert (x ∈ filter P l) as Hf by (by apply list_elem_of_filter).
  rewrite Hl in Hf. by apply elem_of_nil in Hf.
Qed.

Lemma restore_and_find_checkpoint_Ok folder w restored :
  folder ≠ "" →
  json_load (OsPath.join folder FLAG_FILE) w = Ok restored w →
  ∃ names rc,
    Fs.listdir (fs w) folder = Some names
    ∧ restore_and_find_checkpoint folder (OsPath.join folder FLAG_FILE) w
      = Ok rc (set_FLAGS {| declared := declared (FLAGS w);
                            __flags := restored ∪ __flags (FLAGS w);
                            __parsed := true |} w)
    ∧ newest_checkpoint folder names rc.
Proof.
  intros Hf Hj. pose proof Hj as [_ Hread]%json_load_Ok.
  destruct (listdir_of_flag_file _ _ _ Hf Hread) as [names Hnames].
  exists names. unfold restore_and_find_checkpoint.
  rewrite (bind_step _ _ _ _ _ _ Hj).
  unfold flags_update, _restore_flags.
  do 3 (erewrite bind_step; [|reflexivity]).
  set (w' := set_FLAGS _ _).
  assert (w' = set_FLAGS {| declared := declared (FLAGS w);
                            __flags := restored ∪ __flags (FLAGS w);
                            __parsed := true |} w) as -> by done.
  set (w' := set_FLAGS _ _).
  destruct (model_files_dict_lookup folder (checkpoint_names names) ∅
              (checkpoint_names_search names)) as (m & Hdict & Hm).
  rewrite (bind_step _ _ _ w' m w').
  2:{ rewrite (find_model_files_listing _ _ _ names) by done. by rewrite Hdict. }
  unfold newest_checkpoint.
  destruct (decide (m = ∅)) as [->|Hne].
  - exists None. split; [done|]. split; [done|].
    destruct (checkpoint_names names) as [|g gs] eqn:Hgs; [done|].
    exfalso. pose proof (checkpoint_names_search names) as Hs. rewrite Hgs in Hs.
    apply Forall_cons in Hs as [Hg _].
    destruct (search_extract g Hg) as (n & Hn & _).
    specialize (Hm n). rewrite lookup_empty in Hm.
    destruct (last_filter_some (λ g, extract_itr_from_modelfile g = inr n)
                (g :: gs) g) as [g' Hg']; [set_solver|done|].
    by rewrite Hg' in Hm.
  - destruct (max_key_Some m Hne) as [k Hk]. rewrite Hk.
    destruct (max_key_spec m k Hk) as [[path Hpath] Hmax].
    exists (Some path). split; [done|]. split.
    { unfold bind. simpl. by rewrite Hpath. }
    pose proof (Hm k) as Hmk. rewrite Hpath in Hmk.
    destruct (last (filter _ _)) as [g|] eqn:Hl in Hmk; [|by rewrite lookup_empty in Hmk].
    apply last_filter_elem in Hl as [Hg Hgk].
    destruct (checkpoint_names names) as [|g0 gs] eqn:Hgs; [by apply elem_of_nil in Hg|].
    exists g, k. split; [congruence|]. split; [done|]. split; [done|].
    split.
    { rewrite extract_itr_join; [done|].
      pose proof (checkpoint_names_search names) as Hs. rewrite Hgs in Hs.
      rewrite Forall_forall in Hs. by apply Hs. }
    intros g' k' Hg' Hk'. apply Hmax. rewrite Hm.
    destruct (last_filter_some (λ g, extract_itr_from_modelfile g = inr k')
                (g0 :: gs) g' Hg' Hk') as [g'' ->]. eauto.
Qed.
End resume.

Section sorting.
Context {A : Type} (key : A → Z).
Implicit Types (l : list A) (x y : A).

Local Abbreviation by_key := (λ x y, key x ≤ key y).

Lemma insert_by_key_perm x l : Py.insert_by_key key x l ≡ₚ x :: l.
Proof.
  induction l as [|y l IH]; simpl; [done|].
  destruct (key x <=? key y); [done|]. rewrite IH. apply Permutation_swap.
Qed.

Lemma sorted_perm l : Py.sorted key l ≡ₚ l.
Proof.
  induction l as [|x l IH]; simpl; [done|].
  rewrite insert_by_key_perm. by rewrite IH.
Qed.

Lemma insert_by_key_sorted x l :
  StronglySorted by_key l → StronglySorted by_key (Py.insert_by_key key x l).
Proof.
  induction 1 as [|y l Hl IH Hy]; simpl; [repeat constructor|].
  destruct (Z.leb_spec (key x) (key y)) as [Hxy|Hxy].
  - constructor; [by constructor|]. constructor; [done|].
    eapply Forall_impl; [done|]. simpl. lia.
  - constructor; [done|]. rewrite insert_by_key_perm.
    constructor; [lia|done].
Qed.

Lemma sorted_sorted l : StronglySorted by_key (Py.sorted key l).
Proof.
  induction l as [|x l IH]; simpl; [constructor|]. by apply insert_by_key_sorted.
Qed.

Lemma strongly_sorted_last l x :
  StronglySorted by_key l → last l = Some x → Forall (λ y, key y ≤ key x) l.
Proof.
  induction 1 as [|y l Hl IH Hy]; [done|].
  destruct l as [|z l].
  - intros [= ->]. by repeat constructor.
  - rewrite last_cons_cons. intros Hx. specialize (IH Hx).
    constructor; [|done].
    assert (x ∈ z :: l) as Hin.
    { apply last_Some in Hx as [l' ->]. set_solver. }
    rewrite Forall_forall in Hy. by apply Hy.
Qed.

(** The last element of [sorted(l, key=...)] is in [l] and has the
    greatest key. *)
Lemma last_sorted l :
  l ≠ [] →
  ∃ x, Py.last_item (Py.sorted key l) = Some x ∧ x ∈ l
       ∧ ∀ y, y ∈ l → key y ≤ key x.
Proof.
  intros Hl. unfold Py.last_item.
  destruct (last (Py.sorted key l)) as [x|] eqn:Hx.
  - exists x. split; [done|].
    pose proof (strongly_sorted_last _ _ (sorted_sorted l) Hx) as Hmax.
    assert (x ∈ Py.sorted key l) as Hin.
    { apply last_Some in Hx as [l' ->]. set_solver. }
    rewrite sorted_perm in Hin. split; [done|].
    intros y Hy. rewrite <- sorted_perm in Hy.
    rewrite Forall_forall in Hmax. by apply Hmax.
  - apply last_None in Hx. pose proof (sorted_perm l) as Hp.
    rewrite Hx in Hp. by apply Permutation_nil_l in Hp.
Qed.
End sorting.

Section job_numbers.
Implicit Types (l : list string) (ks : list Z).

Lemma int_Some x n : Py.int x = Some n → int x = inr n.
Proof. unfold int. by intros ->. Qed.

Lemma int_None x : Py.int x = None → ∃ msg, int x = inl (ValueError msg).
Proof. unfold int. intros ->. eauto. Qed.

Lemma int_keys_Some l :
  Forall (λ x, is_Some (Py.int x)) l →
  int_keys l = inr ((λ x, default 0 (Py.int x)) <$> l).
Proof.
  induction 1 as [|x l [n Hn] Hl IH]; simpl; [done|].
  by rewrite (int_Some x n), IH, Hn.
Qed.

Lemma int_keys_None l :
  Exists (λ x, Py.int x = None) l → ∃ msg, int_keys l = inl (ValueError msg).
Proof.
  induction 1 as [x l Hx|x l Hl IH]; simpl.
  - destruct (int_None x Hx) as [msg ->]. eauto.
  - destruct (Py.int x) as [n|] eqn:Hx.
    + rewrite (int_Some x n Hx). destruct IH as [msg ->]. eauto.
    + destruct (int_None x Hx) as [msg ->]. eauto.
Qed.
End job_numbers.

Section highest_job.
Implicit Types (l : list string) (ks : list Z).

Lemma zip_fmap_elem (f : string → Z) l k x :
  (k, x) ∈ zip (f <$> l) l ↔ x ∈ l ∧ k = f x.
Proof.
  induction l as [|y l IH]; simpl.
  - rewrite !elem_of_nil. tauto.
  - rewrite !elem_of_cons, IH. split.
    + intros [[= -> ->]|[? ->]]; auto.
    + intros [[->|?] ->]; auto.
Qed.

(** [int(sorted(l, key=lambda x: int(x))[-1])] is the greatest of the
    numbers that the names of [l] stand for. *)
Lemma sorted_by_int_last l :
  Forall (λ x, is_Some (Py.int x)) l → l ≠ [] →
  ∃ l' h n, sorted_by_int l = inr l' ∧ Py.last_item l' = Some h
    ∧ h ∈ l ∧ Py.int h = Some n
    ∧ ∀ x m, x ∈ l → Py.int x = Some m → m ≤ n.
Proof.
  intros Hl Hne. unfold sorted_by_int. rewrite int_keys_Some by done.
  set (f := λ x, default 0 (Py.int x)).
  destruct (last_sorted fst (zip (f <$> l) l)) as ([n h] & Hlast & Hin & Hmax).
  { destruct l; [done|]. done. }
  exists ((Py.sorted fst (zip (f <$> l) l)).*2), h, n.
  split; [done|]. split.
  { unfold Py.last_item in *. by rewrite fmap_last, Hlast. }
  apply zip_fmap_elem in Hin as [Hh ->]. split; [done|].
  rewrite Forall_forall in Hl. destruct (Hl h Hh) as [n Hn].
  split; [by unfold f; rewrite Hn|].
  intros x m Hx Hm. specialize (Hmax (f x, x)). simpl in Hmax.
  assert (f x = m) as <- by (unfold f; by rewrite Hm).
  apply Hmax. by apply zip_fmap_elem.
Qed.

Lemma sorted_by_int_fail l :
  Exists (λ x, Py.int x = None) l → ∃ msg, sorted_by_int l = inl (ValueError msg).
Proof.
  intros [msg H]%int_keys_None. unfold sorted_by_int. rewrite H. eauto.
Qed.

(** The run folders [1 .. k], in any order of listing. *)
Lemma numbered_folders l (k : Z) :
  l ≡ₚ Py.str <$> seqZ 1 k →
  Forall (λ x, is_Some (Py.int x)) l
  ∧ ∀ x m, x ∈ l → Py.int x = Some m → 1 ≤ m ≤ k ∧ x = Py.str m.
Proof.
  intros Hp. split.
  - apply Forall_forall. intros x Hx. rewrite Hp in Hx.
    apply list_elem_of_fmap in Hx as (i & -> & _). rewrite int_str. eauto.
  - intros x m Hx Hm. rewrite Hp in Hx.
    apply list_elem_of_fmap in Hx as (i & -> & Hi). rewrite int_str in Hm.
    simplify_eq. apply elem_of_seqZ in Hi. split; [lia|done].
Qed.
End highest_job.

Ltac unfold_monad :=
  unfold bind, get, modify, from_option, from_sum, ret, raise in *.

Section assign.
Variable parser : Type.
Implicit Types (w : world parser) (names : list string).

Lemma listdir_isdir t p names :
  Fs.listdir t p = Some names → Fs.exists_ t p = true ∧ Fs.isdir t p = true.
Proof.
  unfold Fs.listdir, Fs.exists_, Fs.isdir.
  destruct (Fs.resolve t p) as [[|es]|] eqn:Hr; [done| |done].
  intros _. split; [|done]. apply bool_decide_eq_true. eauto.
Qed.

Lemma isdir_listdir t p :
  Fs.isdir t p = true → ∃ names, Fs.listdir t p = Some names.
Proof.
  unfold Fs.listdir, Fs.isdir. destruct (Fs.resolve t p) as [[|es]|]; [done| |done].
  eauto.
Qed.

(** A new numbered folder can be made in a listed directory. *)
Lemma mkdir_numbered t dir names n :
  Fs.listdir t dir = Some names → 0 < n → Py.str n ∉ names →
  Fs.exists_ t (OsPath.join dir (Py.str n)) = false
  ∧ ∃ t', Fs.mkdir t (OsPath.join dir (Py.str n)) = Some t'
       ∧ Fs.resolve t' (OsPath.join dir (Py.str n)) = Some (Fs.Dir [])
       ∧ Fs.listdir t' dir = Some (names ++ [Py.str n]).
Proof.
  intros Hl Hn Hnew. apply listdir_walk in Hl as (Hdir & es & Hw & ->).
  pose proof (locate_join_str dir n Hn) as Hloc.
  assert (Fs.exists_ t (OsPath.join dir (Py.str n)) = false) as Hex.
  { apply (exists_false _ _ _ Hloc). rewrite walk_app, Hw.
    simpl. apply lookup_entry_None in Hnew. by rewrite Hnew. }
  split; [done|]. unfold Fs.mkdir. rewrite Hex, Hloc. simpl.
  destruct (put_child _ (Py.str n) (Fs.Dir []) _ _ Hw) as (t' & Hp & Hw').
  exists t'. split; [done|]. split.
  - rewrite (resolve_located _ _ _ Hloc). by eapply walk_put.
  - unfold Fs.listdir. rewrite (resolve_located _ _ _ (locate_nonempty dir Hdir)), Hw'.
    rewrite set_entry_new by by apply lookup_entry_None.
    by rewrite fmap_app.
Qed.

Lemma assign_missing_resume dir w :
  Fs.exists_ (fs w) dir = false →
  ∃ msg, assign_experiment_folder dir true w = Raise (ValueError msg) w.
Proof.
  intros He. unfold assign_experiment_folder. unfold_monad. rewrite He. simpl. eauto.
Qed.

Lemma assign_not_a_directory dir resume w :
  Fs.exists_ (fs w) dir = true → Fs.isdir (fs w) dir = false →
  ∃ msg, assign_experiment_folder dir resume w = Raise (ValueError msg) w.
Proof.
  intros He Hd. unfold assign_experiment_folder. unfold_monad.
  rewrite He, Hd. simpl. eauto.
Qed.

(** The choice of the folder number once the directory is listed. *)
Lemma assign_listed dir resume w names :
  Fs.listdir (fs w) dir = Some names →
  assign_experiment_folder dir resume w =
  let make n :=
    let p := OsPath.join dir (Py.str n) in
    match Fs.mkdir (fs w) p with
    | Some t => Ok p (set_fs t w)
    | None => Raise (OSError p) w
    end in
  match job_folders names with
  | [] =>
      if resume then
        Raise (ValueError ("Can't resume since no experiments were run before in checkpoint dir '"
                           +:+ dir +:+ "'.")) w
      else make 1
  | _ =>
      match sorted_by_int (job_folders names) with
      | inl e => Raise e w
      | inr by_number =>
          match Py.last_item by_number with
          | None => Raise IndexError w
          | Some highest =>
              match int highest with
              | inl e => Raise e w
              | inr n => if resume then Ok (OsPath.join dir (Py.str n)) w
                         else make (n + 1)
              end
          end
      end
  end.
Proof.
  intros Hl. destruct (listdir_isdir _ _ _ Hl) as [He Hd].
  unfold assign_experiment_folder. unfold_monad. rewrite He, Hd. simpl.
  rewrite Hl. simpl. fold (job_folders names).
  destruct (job_folders names) as [|f fs']; simpl.
  - destruct resume; simpl; [done|]. by destruct (Fs.mkdir _ _).
  - destruct (sorted_by_int (f :: fs')) as [e|l]; simpl; [done|].
    destruct (Py.last_item l) as [h|]; simpl; [|done].
    destruct (int h) as [e|n]; simpl; [done|].
    destruct resume; simpl; [done|]. by destruct (Fs.mkdir _ _).
Qed.
End assign.

Section assign_outcomes.
Variable parser : Type.
Implicit Types (w : world parser) (names : list string).

Lemma makedirs_listdir t dir t' :
  Fs.makedirs t dir = Some t' → Fs.listdir t' dir = Some [].
Proof.
  unfold Fs.makedirs. destruct (Fs.exists_ t dir) eqn:He; [done|].
  destruct (Fs.locate dir) as [cs|] eqn:Hcs; simpl; [|done].
  apply (exists_false _ _ _ Hcs) in He. intros Hen.
  unfold Fs.listdir. rewrite (resolve_located _ _ _ Hcs).
  by erewrite walk_ensure; [|left|].
Qed.

(** A checkpoint directory that is missing is made, and the job gets the
    folder [1]. *)
Lemma assign_missing_fresh dir w :
  Fs.exists_ (fs w) dir = false →
  match Fs.makedirs (fs w) dir with
  | None => assign_experiment_folder dir false w = Raise (OSError dir) w
  | Some t =>
      ∃ t', Fs.mkdir t (OsPath.join dir (Py.str 1)) = Some t'
        ∧ assign_experiment_folder dir false w
          = Ok (OsPath.join dir (Py.str 1)) (set_fs t' w)
  end.
Proof.
  intros He. destruct (Fs.makedirs (fs w) dir) as [t|] eqn:Hm.
  - pose proof (makedirs_listdir _ _ _ Hm) as Hl.
    destruct (mkdir_numbered t dir [] 1 Hl) as (_ & t' & Hmk & _);
      [done|apply not_elem_of_nil|].
    exists t'. split; [done|].
    assert (assign_experiment_folder dir false w
            = assign_experiment_folder dir false (set_fs t w)) as ->.
    { destruct (listdir_isdir _ _ _ Hl) as [He' Hd'].
      unfold assign_experiment_folder. unfold_monad. simpl.
      rewrite He, Hm, He', Hd'. simpl. done. }
    rewrite (assign_listed _ dir false (set_fs t w) []) by done.
    simpl. rewrite Hmk. done.
  - unfold assign_experiment_folder. unfold_monad. by rewrite He, Hm.
Qed.

(** A failure of the first part leaves the world as it was. *)
Lemma assign_Raise_unchanged dir resume w e w' :
  assign_experiment_folder dir resume w = Raise e w' → w' = w.
Proof.
  destruct (Fs.exists_ (fs w) dir) eqn:He.
  - destruct (Fs.isdir (fs w) dir) eqn:Hd.
    + destruct (isdir_listdir _ _ Hd) as [names Hl].
      rewrite (assign_listed _ dir resume w names Hl). simpl.
      repeat case_match; naive_solver.
    + destruct (assign_not_a_directory _ dir resume w He Hd) as [msg ->].
      naive_solver.
  - destruct resume.
    + destruct (assign_missing_resume _ dir w He) as [msg ->]. naive_solver.
    + pose proof (assign_missing_fresh dir w He) as H.
      destruct (Fs.makedirs (fs w) dir); [|rewrite H; naive_solver].
      destruct H as (t' & _ & ->). done.
Qed.

(** With [resume] the first part changes nothing. *)
Lemma assign_resume_unchanged dir w :
  final (assign_experiment_folder dir true w) = w.
Proof.
  destruct (assign_experiment_folder dir true w) as [p w'|e w'] eqn:Ha; simpl.
  - destruct (Fs.exists_ (fs w) dir) eqn:He.
    + destruct (Fs.isdir (fs w) dir) eqn:Hd.
      * destruct (isdir_listdir _ _ Hd) as [names Hl].
        rewrite (assign_listed _ dir true w names Hl) in Ha. simpl in Ha.
        repeat case_match; naive_solver.
      * destruct (assign_not_a_directory _ dir true w He Hd) as [msg Hr]. congruence.
    + destruct (assign_missing_resume _ dir w He) as [msg Hr]. congruence.
  - by eapply assign_Raise_unchanged.
Qed.

Lemma assign_resume_same_fs dir :
  preserves same_fs (assign_experiment_folder (parser:=parser) dir true).
Proof. intros w. by rewrite assign_resume_unchanged. Qed.

(** Without [resume] the folder that is returned is a directory. *)
Lemma assign_fresh_isdir dir w p w' :
  assign_experiment_folder dir false w = Ok p w' → Fs.isdir (fs w') p = true.
Proof.
  assert (∀ t q t', Fs.mkdir t q = Some t' → Fs.isdir t' q = true) as Hmk.
  { intros t q t'. unfold Fs.mkdir. destruct (Fs.exists_ t q); [done|].
    destruct (Fs.locate q) as [cs|] eqn:Hcs; simpl; [|done].
    intros Hp%walk_put. apply isdir_walk. eauto. }
  destruct (Fs.exists_ (fs w) dir) eqn:He.
  - destruct (Fs.isdir (fs w) dir) eqn:Hd.
    + destruct (isdir_listdir _ _ Hd) as [names Hl].
      rewrite (assign_listed _ dir false w names Hl). simpl.
      repeat case_match; try done; intros [= <- <-]; simpl; eauto.
    + destruct (assign_not_a_directory _ dir false w He Hd) as [msg ->]. done.
  - pose proof (assign_missing_fresh dir w He) as H.
    destruct (Fs.makedirs (fs w) dir); [|by rewrite H].
    destruct H as (t' & Hm & ->). intros [= <- <-]. simpl. eauto.
Qed.

(** The folder that is returned is the directory joined with a number. *)
Lemma assign_Ok_path dir resume w p w' :
  assign_experiment_folder dir resume w = Ok p w' →
  ∃ n, p = OsPath.join dir (Py.str n).
Proof.
  destruct (Fs.exists_ (fs w) dir) eqn:He.
  - destruct (Fs.isdir (fs w) dir) eqn:Hd.
    + destruct (isdir_listdir _ _ Hd) as [names Hl].
      rewrite (assign_listed _ dir resume w names Hl). simpl.
      repeat case_match; try done; intros [= <- <-]; eauto.
    + destruct (assign_not_a_directory _ dir resume w He Hd) as [msg ->]. done.
  - destruct resume.
    + destruct (assign_missing_resume _ dir w He) as [msg ->]. done.
    + pose proof (assign_missing_fresh dir w He) as H.
      destruct (Fs.makedirs (fs w) dir); [|by rewrite H].
      destruct H as (t' & Hm & ->). intros [= <- <-]. eauto.
Qed.

Lemma assign_Ok_nonempty dir resume w p w' :
  assign_experiment_folder dir resume w = Ok p w' → p ≠ "".
Proof.
  intros [n ->]%assign_Ok_path. apply join_nonempty, str_nonempty.
Qed.
End assign_outcomes.

Section writes.
Import Fs.
Implicit Types (t x : node) (cs ds : list string) (es : list (string * node)).

Local Ltac obind := cbn [mbind option_bind].

(** Putting a file where no directory is leaves the other files alone. *)
Lemma put_file_keeps_files cs c t t' ds c0 :
  (∀ es, walk cs t ≠ Some (Dir es)) →
  put cs (File c) t = Some t' →
  cs ≠ ds →
  walk ds t = Some (File c0) → walk ds t' = Some (File c0).
Proof.
  revert t t' ds. induction cs as [|a cs IH]; intros t t' ds Hnd.
  - intros [= <-] Hne. simpl in Hnd. destruct t as [c1|es]; [|by destruct (Hnd es)].
    destruct ds; [done|]. done.
  - destruct t as [c1|es]; [done|]. destruct ds as [|d ds]; [by intros _ _ [=]|].
    destruct cs as [|a' cs].
    + intros [= <-] Hne. cbn [walk].
      destruct (decide (a = d)) as [->|Had]; [|by rewrite lookup_set_entry_ne].
      rewrite lookup_set_entry. specialize (Hnd). cbn [walk] in Hnd.
      destruct (lookup_entry d es) as [[c2|es2]|]; obind; [| |done].
      * destruct ds; [done|]. done.
      * by destruct (Hnd es2).
    + rewrite put_cons. destruct (lookup_entry a es) as [sub|] eqn:Ha; obind; [|done].
      destruct (put (a' :: cs) (File c) sub) as [sub'|] eqn:Hp; obind; [|done].
      intros [= <-] Hne. cbn [walk].
      destruct (decide (a = d)) as [->|Had]; [|by rewrite lookup_set_entry_ne].
      rewrite lookup_set_entry, Ha. obind. apply (IH sub); [|done|congruence].
      intros es1. specialize (Hnd es1). cbn [walk] in Hnd. by rewrite Ha in Hnd.
Qed.

Lemma write_keeps_file t q c t' q0 c0 :
  write t q c = Some t' → locate q ≠ locate q0 →
  read t q0 = Some c0 → read t' q0 = Some c0.
Proof.
  unfold write, read, resolve. destruct (isdir t q) eqn:Hq; [done|].
  destruct (locate q) as [cs|] eqn:Hcs; simpl; [|done].
  destruct (locate q0) as [ds|] eqn:Hds; simpl; [|done].
  intros Hp Hne Hr.
  destruct (walk ds t) as [[c1|]|] eqn:Hw; simplify_eq.
  erewrite put_file_keeps_files; [done| |done|congruence|done].
  intros es Hes. assert (isdir t q = true) by (apply isdir_walk; eauto). congruence.
Qed.

Lemma resolve_Some t p x :
  resolve t p = Some x → p ≠ "" ∧ walk (components p) t = Some x.
Proof.
  unfold resolve. destruct (locate p) as [cs|] eqn:Hcs; simpl; [|done].
  apply locate_Some in Hcs as [? ->]. done.
Qed.

(** A file can be written into an empty directory. *)
Lemma write_into_empty t folder name c :
  resolve t folder = Some (Dir []) →
  Spec.contains "/" name = false → name ≠ "" → name ≠ "." →
  ∃ t', write t (OsPath.join folder name) c = Some t'.
Proof.
  intros [Hf Hw]%resolve_Some ? ? ?.
  unfold write, isdir. rewrite (resolve_located _ _ _ (locate_join_name folder name
    ltac:(done) ltac:(done) ltac:(done))).
  rewrite locate_join_name by done.
  rewrite walk_app, Hw. simpl.
  destruct (put_child _ name (File c) _ _ Hw) as (t' & -> & _). eauto.
Qed.
End writes.

Section basename.
Implicit Types (s p : string) (c : ascii).

Lemma split_pieces c s : Forall (λ x, Spec.contains c x = false) (Py.split c s).
Proof.
  induction s as [|a s IH]; simpl; [by repeat constructor|].
  destruct (Ascii.eqb a c) eqn:Ha; [by constructor|].
  destruct (Py.split c s) as [|x l].
  { repeat constructor. simpl. by rewrite Ha. }
  apply Forall_cons in IH as [Hx Hl]. constructor; [|done].
  simpl. by rewrite Ha.
Qed.

Lemma basename_no_slash p : Spec.contains "/" (OsPath.basename p) = false.
Proof.
  unfold OsPath.basename, Py.last_item.
  destruct (last (Py.split "/" p)) as [b|] eqn:Hl; [|done]. simpl.
  pose proof (split_pieces "/" p) as Hf. rewrite Forall_forall in Hf.
  apply Hf. apply last_Some in Hl as [l' ->]. set_solver.
Qed.

(** Where [os.path.join(folder, os.path.basename(src))] points to. *)
Lemma components_join_basename folder src :
  Fs.components (OsPath.join folder (OsPath.basename src))
  = Fs.components folder ++ Fs.components (OsPath.basename src)
  ∧ (Fs.components (OsPath.basename src) = []
     ∨ Fs.components (OsPath.basename src) = [OsPath.basename src]).
Proof.
  pose proof (basename_no_slash src) as Hb. split.
  - apply components_join. by apply startswith_contains.
  - unfold Fs.components. rewrite split_without by done.
    destruct (decide (OsPath.basename src ≠ "" ∧ OsPath.basename src ≠ ".")).
    + right. by rewrite filter_cons_True.
    + left. by rewrite filter_cons_False.
Qed.
End basename.

Section store.
Variable parser : Type.
Variable git_rev_parse : exn + string.
Implicit Types (w : world parser).

Lemma json_store_dirs_kept path d :
  preserves dirs_kept (json_store (parser:=parser) path d).
Proof.
  intros w. unfold json_store. unfold_monad.
  destruct (Fs.write (fs w) path (Fs.Json d)) as [t|] eqn:Hw; simpl; [|done].
  intros p. by eapply write_keeps_dirs.
Qed.

Lemma json_store_file_kept path d q :
  Fs.locate path ≠ Fs.locate q →
  preserves (file_kept q) (json_store (parser:=parser) path d).
Proof.
  intros Hne w. unfold json_store. unfold_monad.
  destruct (Fs.write (fs w) path (Fs.Json d)) as [t|] eqn:Hw; simpl; [|done].
  intros c. by eapply write_keeps_file.
Qed.

Lemma shutil_copy_dirs_kept src dst :
  preserves dirs_kept (shutil_copy parser src dst).
Proof.
  intros w. unfold shutil_copy. unfold_monad.
  repeat case_match; simplify_eq/=; try done.
  all: intros p; by eapply write_keeps_dirs.
Qed.

(** The copy of a config file does not touch the flag file, unless the
    config file is itself named like the flag file. *)
Lemma shutil_copy_keeps_flag_file folder src :
  OsPath.basename src ≠ FLAG_FILE →
  preserves (file_kept (OsPath.join folder FLAG_FILE))
    (shutil_copy parser src (OsPath.join folder (OsPath.basename src))).
Proof.
  intros Hb w. unfold shutil_copy. unfold_monad.
  destruct (components_join_basename folder src) as [Hj Hc].
  set (dst := OsPath.join folder (OsPath.basename src)) in *.
  set (dst' := if Fs.isdir (fs w) dst then OsPath.join dst (OsPath.basename src) else dst).
  assert (Fs.locate dst' ≠ Fs.locate (OsPath.join folder FLAG_FILE)) as Hne.
  { rewrite locate_join_flag_file. intros [_ Heq]%locate_Some. revert Heq.
    unfold dst'. destruct (Fs.isdir (fs w) dst).
    - rewrite components_join
        by (apply startswith_contains, basename_no_slash).
      rewrite Hj, <- app_assoc. intros H%app_inv_head.
      destruct Hc as [Hc|Hc]; rewrite Hc in H; simplify_eq/=.
    - rewrite Hj. intros H%app_inv_head.
      destruct Hc as [Hc|Hc]; rewrite Hc in H; simplify_eq/=. }
  fold dst'. repeat case_match; simplify_eq/=; try done.
  intros c0. by eapply write_keeps_file.
Qed.

Lemma record_revision_same_fs :
  preserves same_fs
    (try_except parser
       (bind parser (get_git_revision_hash parser git_rev_parse)
          (λ git_commit, flags_setitem parser "git_commit" (VStr git_commit)))
       is_CalledProcessError (ret parser ())).
Proof.
  unfold get_git_revision_hash, flags_setitem. repeat preserves_step; done.
Qed.

Lemma store_flags_and_configs_dirs_kept folder flag_path dc mc :
  preserves dirs_kept
    (store_flags_and_configs (parser:=parser) git_rev_parse folder flag_path dc mc).
Proof.
  unfold store_flags_and_configs.
  apply preserves_bind; [tc_solve| |intros _].
  { eapply preserves_weaken; [apply same_fs_dirs_kept|apply record_revision_same_fs]. }
  repeat first [apply json_store_dirs_kept | apply shutil_copy_dirs_kept
               | preserves_step].
Qed.
End store.

(** * The properties of the specification *)

(** C8. [extract_itr_from_modelfile] is a function of the path alone; it
    returns the integer that the text between the last [-] of the path and
    the first [.] after it stands for, [17] for [model.ckpt-17], and it
    fails with [ValueError] (the specification's ParseError) whenever that
    text is no integer. *)
Theorem extract_itr_is_the_iteration_segment :
  (∀ path n, Py.int (Spec.iteration_segment path) = Some n →
             extract_itr_from_modelfile path = inr n)
  ∧ (∀ path, Py.int (Spec.iteration_segment path) = None →
             ∃ msg, extract_itr_from_modelfile path = inl (ValueError msg))
  ∧ extract_itr_from_modelfile "model.ckpt-17" = inr 17
  ∧ extract_itr_from_modelfile (Py.replace "model.ckpt-17.index" ".index" "") = inr 17.
Proof.
  split; [|split; [|split]].
  - intros path n Hn. rewrite extract_itr_segment. by apply int_Some.
  - intros path Hn. rewrite extract_itr_segment. by apply int_None.
  - reflexivity.
  - reflexivity.
Qed.

Section find_model_files_properties.
Variable parser : Type.
Implicit Types (w : world parser) (names : list string).

Lemma permutation_3 {A} (l : list A) a b c :
  l ≡ₚ [a; b; c] →
  l = [a; b; c] ∨ l = [a; c; b] ∨ l = [b; a; c]
  ∨ l = [b; c; a] ∨ l = [c; a; b] ∨ l = [c; b; a].
Proof.
  intros Hp. pose proof (Permutation_length Hp) as Hlen.
  destruct l as [|x [|y [|z [|? ?]]]]; simplify_eq/=.
  apply Permutation_cons_inv_r in Hp as (l1 & l2 & Hl & Hp').
  destruct l1 as [|x1 [|x2 [|x3 l1]]]; simplify_eq/=.
  - apply Permutation_length_2_inv in Hp' as [?|?]; simplify_eq; auto 10.
  - apply Permutation_length_2_inv in Hp' as [?|?]; simplify_eq; auto 10.
  - apply Permutation_length_2_inv in Hp' as [?|?]; simplify_eq; auto 10.
  - destruct l1; simplify_eq/=.
Qed.

End find_model_files_properties.

Section find_model_files_mapping.
Variable parser : Type.
Implicit Types (w : world parser) (names : list string).

(** C6, as the code has it.  [find_model_files] removes every occurrence
    of [.index] from the name of an entry, keeps the names that the
    pattern then finds, and never fails on a folder that can be listed;
    the mapping sends an iteration number to the folder joined with the
    stripped name of the last listed entry that has this number, and has
    no other keys. *)
Theorem find_model_files_maps_to_stripped_paths model_dir w names :
  Fs.listdir (fs w) model_dir = Some names →
  ∃ m, find_model_files model_dir w = Ok m w
    ∧ ∀ itr, m !! itr =
        (λ g, OsPath.join model_dir g) <$>
          last (filter (λ g, extract_itr_from_modelfile g = inr itr)
                  (filter (λ g, Re.search g = true)
                     ((λ f, Py.replace f ".index" "") <$> names))).
Proof.
  intros Hl. rewrite (find_model_files_listing _ _ _ names Hl).
  destruct (model_files_dict_lookup model_dir (checkpoint_names names) ∅
              (checkpoint_names_search names)) as (m & -> & Hm).
  exists m. split; [done|]. intros itr. rewrite Hm.
  unfold checkpoint_names, stripped.
  destruct (last _); [done|]. by rewrite lookup_empty.
Qed.
End find_model_files_mapping.

Section parse_flags_properties.
Variable parser : Type.
Variable FLAGS_parse_flags :
  FlagValues parser → list string → exn + (FlagValues parser * list string).
Implicit Types (w : world parser).

Lemma parse_flags_Ok w f' rest :
  FLAGS_parse_flags (FLAGS w) (drop 1 (sys_argv w)) = inr (f', rest) →
  parse_flags FLAGS_parse_flags w
  = Ok (__flags (FLAGS w) ∪ __flags f')
       {| fs := fs w; sys_argv := take 1 (sys_argv w) ++ rest;
          sys_modules := sys_modules w;
          FLAGS := {| declared := declared f';
                      __flags := __flags (FLAGS w) ∪ __flags f';
                      __parsed := __parsed f' |} |}.
Proof. intros H. unfold parse_flags. unfold_monad. rewrite H. done. Qed.

(** C10. Whenever the registry's parser returns, [parse_flags] returns,
    and every flag that was in the registry before the call has its
    former value afterwards, in the registry and in the mapping that is
    returned, which is the registry's dictionary: the arguments of the
    command line do not override what the registry held. *)
Theorem parse_flags_restores_registry w f' rest :
  FLAGS_parse_flags (FLAGS w) (drop 1 (sys_argv w)) = inr (f', rest) →
  ∃ flags w', parse_flags FLAGS_parse_flags w = Ok flags w'
    ∧ flags = __flags (FLAGS w')
    ∧ ∀ k v, __flags (FLAGS w) !! k = Some v → flags !! k = Some v.
Proof.
  intros H. rewrite (parse_flags_Ok w f' rest H).
  eexists _, _. split; [done|]. split; [done|].
  intros k v Hk. by apply lookup_union_Some_l.
Qed.
End parse_flags_properties.

Section init_checkpoint_properties.
Variable parser : Type.
Variable load_source : string → Fs.content → FlagValues parser → exn + FlagValues parser.
Variable import_module : string → FlagValues parser → exn + FlagValues parser.
Variable FLAGS_parse_flags :
  FlagValues parser → list string → exn + (FlagValues parser * list string).
Variable git_rev_parse : exn + string.
Implicit Types (w : world parser) (names : list string).

Local Abbreviation init_checkpoint' :=
  (init_checkpoint load_source import_module FLAGS_parse_flags git_rev_parse).
Local Abbreviation load_and_parse_flags' :=
  (load_and_parse_flags load_source import_module FLAGS_parse_flags).

(** ** How a call is made of its parts *)

Lemma init_assign_Raise dir dc mc resume w e w' :
  assign_experiment_folder dir resume w = Raise e w' →
  init_checkpoint' dir dc mc resume w = Raise e w'.
Proof. intros H. unfold init_checkpoint. by rewrite (bind_raise _ _ _ _ _ _ H). Qed.

Lemma init_load_Raise dir dc mc resume w p w1 e w' :
  assign_experiment_folder dir resume w = Ok p w1 →
  load_and_parse_flags' dc mc w1 = Raise e w' →
  init_checkpoint' dir dc mc resume w = Raise e w'.
Proof.
  intros Ha Hl. unfold init_checkpoint.
  rewrite (bind_step _ _ _ _ _ _ Ha). by rewrite (bind_raise _ _ _ _ _ _ Hl).
Qed.

Lemma init_resume_steps dir dc mc w p w1 w2 :
  assign_experiment_folder dir true w = Ok p w1 →
  load_and_parse_flags' dc mc w1 = Ok () w2 →
  init_checkpoint' dir dc mc true w =
  match restore_and_find_checkpoint p (OsPath.join p FLAG_FILE) w2 with
  | Ok rc w' => Ok (p, rc) w'
  | Raise e w' => Raise e w'
  end.
Proof.
  intros Ha Hl. unfold init_checkpoint.
  rewrite (bind_step _ _ _ _ _ _ Ha), (bind_step _ _ _ _ _ _ Hl).
  unfold bind, ret. by destruct (restore_and_find_checkpoint _ _ _).
Qed.

Lemma init_fresh_steps dir dc mc w p w1 w2 :
  assign_experiment_folder dir false w = Ok p w1 →
  load_and_parse_flags' dc mc w1 = Ok () w2 →
  init_checkpoint' dir dc mc false w =
  match store_flags_and_configs git_rev_parse p (OsPath.join p FLAG_FILE) dc mc w2 with
  | Ok _ w' => Ok (p, None) w'
  | Raise e w' => Raise e w'
  end.
Proof.
  intros Ha Hl. unfold init_checkpoint.
  rewrite (bind_step _ _ _ _ _ _ Ha), (bind_step _ _ _ _ _ _ Hl).
  unfold bind, ret. by destruct (store_flags_and_configs _ _ _ _ _ _).
Qed.

Lemma init_Ok_inv dir dc mc resume w r w' :
  init_checkpoint' dir dc mc resume w = Ok r w' →
  ∃ w1 w2,
    assign_experiment_folder dir resume w = Ok r.1 w1
    ∧ load_and_parse_flags' dc mc w1 = Ok () w2
    ∧ if resume
      then restore_and_find_checkpoint r.1 (OsPath.join r.1 FLAG_FILE) w2 = Ok r.2 w'
      else store_flags_and_configs git_rev_parse r.1 (OsPath.join r.1 FLAG_FILE) dc mc w2
           = Ok () w' ∧ r.2 = None.
Proof.
  unfold init_checkpoint.
  intros (p & w1 & Ha & H)%bind_Ok_inv.
  apply bind_Ok_inv in H as ([] & w2 & Hl & H).
  exists w1, w2. destruct resume.
  - apply bind_Ok_inv in H as (rc & w3 & Hr & [= <- <-]). done.
  - apply bind_Ok_inv in H as ([] & w3 & Hs & [= <- <-]). done.
Qed.

(** With [resume] no call changes the file system, whatever its outcome. *)
Lemma init_resume_same_fs dir dc mc :
  preserves same_fs (init_checkpoint' dir dc mc true).
Proof.
  unfold init_checkpoint.
  repeat first [apply assign_resume_same_fs | apply load_and_parse_flags_same_fs
               | apply restore_and_find_checkpoint_same_fs | preserves_step].
Qed.


(** C4. With [resume], the registry is left with the parsed flags
    overlaid by the flag file: a key of the flag file has the restored
    value, any other key has the value that was parsed. *)
Theorem resume_overlays_the_flag_file dir dc mc w p w1 w2 restored :
  assign_experiment_folder dir true w = Ok p w1 →
  load_and_parse_flags' dc mc w1 = Ok () w2 →
  json_load (OsPath.join p FLAG_FILE) w2 = Ok restored w2 →
  ∃ rc w', init_checkpoint' dir dc mc true w = Ok (p, rc) w'
    ∧ __parsed (FLAGS w') = true
    ∧ __flags (FLAGS w') = restored ∪ __flags (FLAGS w2)
    ∧ (∀ k v, restored !! k = Some v → __flags (FLAGS w') !! k = Some v)
    ∧ (∀ k, restored !! k = None →
            __flags (FLAGS w') !! k = __flags (FLAGS w2) !! k).
Proof.
  intros Ha Hl Hj.
  destruct (restore_and_find_checkpoint_Ok _ p w2 restored
              (assign_Ok_nonempty _ _ _ _ _ _ Ha) Hj)
    as (names & rc & _ & Hr & _).
  exists rc. eexists. split.
  { by rewrite (init_resume_steps dir dc mc w p w1 w2 Ha Hl), Hr. }
  simpl. split; [done|]. split; [done|]. split.
  - intros k v Hk. by apply lookup_union_Some_l.
  - intros k Hk. by apply lookup_union_r.
Qed.
End init_checkpoint_properties.

Section numbered_run_folders.
Variable parser : Type.
Implicit Types (w : world parser) (names : list string).

Lemma preserves_Ok {A} (R : relation (world parser)) (m : M parser A) w a w' :
  preserves R m → m w = Ok a w' → R w w'.
Proof. intros Hm Hw. specialize (Hm w). by rewrite Hw in Hm. Qed.

Lemma job_folders_elem names f :
  f ∈ job_folders names
  ↔ (Py.startswith f "_" = false ∧ Py.startswith f "." = false) ∧ f ∈ names.
Proof. unfold job_folders. by rewrite list_elem_of_filter. Qed.

(** The number after the run folders [1 .. k] is free. *)
Lemma next_number_free names k :
  0 ≤ k → job_folders names ≡ₚ Py.str <$> seqZ 1 k → Py.str (k + 1) ∉ names.
Proof.
  intros Hk Hp Hin. destruct (numbered_folders _ _ Hp) as [_ Hnum].
  destruct (str_is_name (k + 1)) as (_ & _ & _ & H1 & H2); [lia|].
  destruct (Hnum (Py.str (k + 1)) (k + 1)) as [? _]; [|apply int_str|lia].
  by apply job_folders_elem.
Qed.

(** The folder that the first part assigns when the run folders are
    [1 .. k]. *)
Lemma assign_numbered dir w names k :
  Fs.listdir (fs w) dir = Some names →
  0 ≤ k →
  job_folders names ≡ₚ Py.str <$> seqZ 1 k →
  (1 ≤ k → assign_experiment_folder dir true w = Ok (OsPath.join dir (Py.str k)) w)
  ∧ ∃ t', Fs.mkdir (fs w) (OsPath.join dir (Py.str (k + 1))) = Some t'
      ∧ assign_experiment_folder dir false w
        = Ok (OsPath.join dir (Py.str (k + 1))) (set_fs t' w).
Proof.
  intros Hl Hk Hp.
  destruct (mkdir_numbered (fs w) dir names (k + 1) Hl) as (_ & t' & Hmk & _);
    [lia|by apply next_number_free|].
  destruct (numbered_folders _ _ Hp) as [Hint Hnum].
  destruct (decide (k = 0)) as [->|Hk0].
  - split; [lia|]. exists t'. split; [done|].
    rewrite (assign_listed _ dir false w names Hl).
    apply Permutation_nil_r in Hp. rewrite Hp.
    simpl. change (0 + 1) with 1 in *. by rewrite Hmk.
  - assert (job_folders names ≠ []) as Hne.
    { intros Hnil. rewrite Hnil in Hp. apply Permutation_nil_l in Hp.
      symmetry in Hp. apply fmap_nil_inv in Hp. assert (1 ∈ seqZ 1 k) as H1 by (apply elem_of_seqZ; lia).
      rewrite Hp in H1. by apply elem_of_nil in H1. }
    destruct (sorted_by_int_last _ Hint Hne) as (l' & h & n & Hs & Hlast & Hh & Hn & Hmax).
    assert (n = k) as ->.
    { destruct (Hnum h n Hh Hn) as [? _].
      assert (Py.str k ∈ job_folders names) as Hkin.
      { rewrite Hp. apply list_elem_of_fmap_2, elem_of_seqZ. lia. }
      specialize (Hmax (Py.str k) k Hkin (int_str k)). lia. }
    assert (∀ resume, assign_experiment_folder dir resume w =
              if resume then Ok (OsPath.join dir (Py.str k)) w
              else Ok (OsPath.join dir (Py.str (k + 1))) (set_fs t' w)) as Hassign.
    { intros resume. rewrite (assign_listed _ dir resume w names Hl). simpl.
      destruct (job_folders names) as [|f fs'] eqn:Hjf; [done|].
      rewrite Hs, Hlast, (int_Some h k Hn). destruct resume; [done|]. by rewrite Hmk. }
    split; [intros _; apply (Hassign true)|].
    exists t'. split; [done|]. apply (Hassign false).
Qed.
End numbered_run_folders.

Section selection.
Variable parser : Type.
Variable load_source : string → Fs.content → FlagValues parser → exn + FlagValues parser.
Variable import_module : string → FlagValues parser → exn + FlagValues parser.
Variable FLAGS_parse_flags :
  FlagValues parser → list string → exn + (FlagValues parser * list string).
Variable git_rev_parse : exn + string.
Implicit Types (w : world parser) (names : list string).

Local Abbreviation init_checkpoint' :=
  (init_checkpoint load_source import_module FLAGS_parse_flags git_rev_parse).

(** Without [resume], the run folder of a call that returns is a
    directory when the call returns. *)
Lemma init_fresh_isdir dir dc mc w r w' :
  init_checkpoint' dir dc mc false w = Ok r w' → Fs.isdir (fs w') r.1 = true.
Proof.
  intros (w1 & w2 & Ha & Hl & Hs & _)%init_Ok_inv.
  apply assign_fresh_isdir in Ha.
  apply (preserves_Ok _ same_fs) in Hl; [|apply load_and_parse_flags_same_fs].
  apply (preserves_Ok _ dirs_kept) in Hs; [|apply store_flags_and_configs_dirs_kept].
  apply Hs. by rewrite Hl.
Qed.


(** C2, as the code has it.  With [resume] the call fails with
    [ValueError] (the specification's ConfigurationError), and leaves the
    world as it was, when the checkpoint directory does not exist and when
    none of its entries that do not start with [_] or [.] has an integer
    for its name, whatever the kind of the entry; with or without
    [resume] it fails so when the path exists and is no directory. *)
Theorem resume_needs_a_numbered_entry dir dc mc w :
  (Fs.exists_ (fs w) dir = false →
   ∃ msg, init_checkpoint' dir dc mc true w = Raise (ValueError msg) w)
  ∧ (Fs.exists_ (fs w) dir = true → Fs.isdir (fs w) dir = false →
     ∀ resume, ∃ msg, init_checkpoint' dir dc mc resume w = Raise (ValueError msg) w)
  ∧ (∀ names, Fs.listdir (fs w) dir = Some names →
     Forall (λ f, Py.int f = None) (job_folders names) →
     ∃ msg, init_checkpoint' dir dc mc true w = Raise (ValueError msg) w).
Proof.
  split; [|split].
  - intros He. destruct (assign_missing_resume _ dir w He) as [msg Hr].
    exists msg. by apply init_assign_Raise.
  - intros He Hd resume.
    destruct (assign_not_a_directory _ dir resume w He Hd) as [msg Hr].
    exists msg. by apply init_assign_Raise.
  - intros names Hl Hnone.
    assert (∃ msg, assign_experiment_folder dir true w = Raise (ValueError msg) w)
      as [msg Hr]; [|exists msg; by apply init_assign_Raise].
    rewrite (assign_listed _ dir true w names Hl). simpl.
    destruct (job_folders names) as [|f fs'] eqn:Hjf; [eauto|].
    destruct (sorted_by_int_fail (f :: fs')) as [msg ->]; [|eauto].
    apply Forall_cons in Hnone as [Hf _]. by constructor.
Qed.
End selection.

Section store_branch.
Variable parser : Type.
Variable git_rev_parse : exn + string.
Implicit Types (w : world parser).

Global Instance same_FLAGS_preorder : PreOrder (@same_FLAGS parser).
Proof. split; [done|]. intros w1 w2 w3. unfold same_FLAGS. congruence. Qed.

Lemma shutil_copy_same_FLAGS src dst :
  preserves same_FLAGS (shutil_copy parser src dst).
Proof. unfold shutil_copy. repeat preserves_step; done. Qed.

Lemma shutil_copy_raises src dst :
  raises_only (λ e, e ≠ CalledProcessError) (shutil_copy parser src dst).
Proof.
  intros w e w'. unfold shutil_copy. unfold_monad.
  repeat (case_match; simplify_eq/=); by intros [= <- <-].
Qed.

Lemma copy_configs_raises folder dc mc :
  raises_only (λ e, e ≠ CalledProcessError) (copy_configs (parser:=parser) folder dc mc).
Proof.
  intros w e w'. unfold copy_configs. simpl.
  intros [H|(? & w1 & _ & H)]%bind_Raise_inv; [by eapply shutil_copy_raises|].
  apply bind_Raise_inv in H as [H|(? & w2 & _ & H)]; [by eapply shutil_copy_raises|].
  done.
Qed.

Lemma copy_configs_keeps_flag_file folder dc mc :
  OsPath.basename mc ≠ FLAG_FILE → OsPath.basename dc ≠ FLAG_FILE →
  preserves (file_kept (OsPath.join folder FLAG_FILE)) (copy_configs (parser:=parser) folder dc mc).
Proof.
  intros Hmc Hdc. unfold copy_configs. simpl.
  repeat first [by apply shutil_copy_keeps_flag_file | preserves_step].
Qed.

Lemma copy_configs_same_FLAGS folder dc mc :
  preserves same_FLAGS (copy_configs (parser:=parser) folder dc mc).
Proof.
  unfold copy_configs. repeat first [apply shutil_copy_same_FLAGS | preserves_step].
Qed.

Lemma store_flags_and_configs_steps folder dc mc w flags :
  Fs.resolve (fs w) folder = Some (Fs.Dir []) →
  stored_flags git_rev_parse (__flags (FLAGS w)) = Some flags →
  ∃ t,
    Fs.write (fs w) (OsPath.join folder FLAG_FILE) (Fs.Json flags) = Some t
    ∧ store_flags_and_configs git_rev_parse folder (OsPath.join folder FLAG_FILE) dc mc w
      = copy_configs folder dc mc
          (set_fs t (set_FLAGS (set_flags_dict parser flags (FLAGS w)) w)).
Proof.
  intros Hdir Hst.
  destruct (write_into_empty (fs w) folder FLAG_FILE (Fs.Json flags) Hdir)
    as [t Ht]; [done..|].
  exists t. split; [done|].
  unfold store_flags_and_configs, copy_configs, stored_flags in *.
  unfold try_except, get_git_revision_hash, flags_setitem, json_store.
  unfold_monad.
  destruct git_rev_parse as [[]|out]; simplify_eq/=; rewrite Ht; simpl; try done.
  by destruct w as [? ? ? []].
Qed.
End store_branch.

Section failures_and_revision.
Variable parser : Type.
Variable load_source : string → Fs.content → FlagValues parser → exn + FlagValues parser.
Variable import_module : string → FlagValues parser → exn + FlagValues parser.
Variable FLAGS_parse_flags :
  FlagValues parser → list string → exn + (FlagValues parser * list string).
Variable git_rev_parse : exn + string.
Implicit Types (w : world parser) (names : list string).

Local Abbreviation init_checkpoint' :=
  (init_checkpoint load_source import_module FLAGS_parse_flags git_rev_parse).
Local Abbreviation load_and_parse_flags' :=
  (load_and_parse_flags load_source import_module FLAGS_parse_flags).

(** The folder that is made for a job is empty. *)
Lemma assign_fresh_empty dir w p w' :
  assign_experiment_folder dir false w = Ok p w' →
  Fs.resolve (fs w') p = Some (Fs.Dir []).
Proof.
  assert (∀ t q t', Fs.mkdir t q = Some t' → Fs.resolve t' q = Some (Fs.Dir [])) as Hmk.
  { intros t q t'. unfold Fs.mkdir. destruct (Fs.exists_ t q); [done|].
    destruct (Fs.locate q) as [cs|] eqn:Hcs; simpl; [|done].
    intros Hp%walk_put. by rewrite (resolve_located _ _ _ Hcs). }
  destruct (Fs.exists_ (fs w) dir) eqn:He.
  - destruct (Fs.isdir (fs w) dir) eqn:Hd.
    + destruct (isdir_listdir _ _ Hd) as [names Hl].
      rewrite (assign_listed _ dir false w names Hl). simpl.
      repeat case_match; try done; intros [= <- <-]; simpl; eauto.
    + destruct (assign_not_a_directory _ dir false w He Hd) as [msg ->]. done.
  - pose proof (assign_missing_fresh _ dir w He) as H.
    destruct (Fs.makedirs (fs w) dir); [|by rewrite H].
    destruct H as (t' & Hm & ->). intros [= <- <-]. simpl. eauto.
Qed.

(** Without [resume], the folder that the first part made stays,
    whatever the rest of the call does. *)
Lemma init_fresh_leaves_folder dir dc mc w p w1 :
  assign_experiment_folder dir false w = Ok p w1 →
  Fs.isdir (fs (final (init_checkpoint' dir dc mc false w))) p = true.
Proof.
  intros Ha. pose proof (assign_fresh_isdir _ _ _ _ _ Ha) as Hd.
  destruct (load_and_parse_flags' dc mc w1) as [[] w2|e w2] eqn:Hl.
  - rewrite (init_fresh_steps _ _ _ _ _ _ _ _ _ _ _ _ Ha Hl).
    pose proof (load_and_parse_flags_same_fs _ load_source import_module
                  FLAGS_parse_flags dc mc w1) as H1. rewrite Hl in H1.
    pose proof (store_flags_and_configs_dirs_kept _ git_rev_parse p
                  (OsPath.join p FLAG_FILE) dc mc w2) as H2.
    unfold same_fs in H1. simpl in H1.
    destruct (store_flags_and_configs _ _ _ _ _ _); simpl in *; apply H2; by rewrite H1.
  - erewrite init_load_Raise; [|done..]. simpl.
    pose proof (load_and_parse_flags_same_fs _ load_source import_module
                  FLAGS_parse_flags dc mc w1) as H1. rewrite Hl in H1.
    unfold same_fs in H1. simpl in H1. by rewrite H1.
Qed.


End failures_and_revision.

(** * The properties on concrete runs *)


(** C2, as the code has it, on a directory that is missing, on a path that
    is a file, and on a directory whose entries have no numbers for names. *)
Lemma resume_needs_a_numbered_entry_witness :
  let w := Example.start Example.two_runs Example.argv in
  (∃ msg, Example.run Example.not_a_repository "nowhere" true w = Raise (ValueError msg) w)
  ∧ (∀ resume, ∃ msg, Example.run Example.not_a_repository "cfg/data.py" resume w
                      = Raise (ValueError msg) w)
  ∧ (∃ msg, Example.run Example.not_a_repository "cfg" true w = Raise (ValueError msg) w).
Proof.
  intros w. split; [|split].
  - apply (proj1 (resume_needs_a_numbered_entry (list string) Example.load_source
             Example.import_module Example.parse Example.not_a_repository
             "nowhere" "cfg/data.py" "cfg/model.py" w)).
    reflexivity.
  - apply (proj1 (proj2 (resume_needs_a_numbered_entry (list string)
             Example.load_source Example.import_module Example.parse
             Example.not_a_repository "cfg/data.py" "cfg/data.py" "cfg/model.py" w)));
      reflexivity.
  - apply (proj2 (proj2 (resume_needs_a_numbered_entry (list string)
             Example.load_source Example.import_module Example.parse
             Example.not_a_repository "cfg" "cfg/data.py" "cfg/model.py" w))
             ["data.py"; "model.py"]).
    + reflexivity.
    + vm_compute. repeat constructor.
Defined.

(** C2 as it is stated fails on a checkpoint directory whose only entry is
    a regular file named [7]: the directory has no numbered subfolder, yet
    the file is taken for the run folder and the call fails with [IOError]
    when it opens the flag file, not with [ValueError]. *)
Lemma resume_on_a_numbered_file :
  let w := Example.start Example.numbered_file Example.argv in
  let o := Example.run Example.not_a_repository "ckpt" true w in
  Fs.listdir (fs w) "ckpt" = Some ["7"]
  ∧ Fs.isdir (fs w) "ckpt/7" = false
  ∧ o = Raise (IOError "ckpt/7/flags.json") (final o)
  ∧ ∀ msg w', o ≠ Raise (ValueError msg) w'.
Proof.
  intros w o.
  assert (o = Raise (IOError "ckpt/7/flags.json") (final o)) as Ho
    by (vm_compute; reflexivity).
  split; [reflexivity|]. split; [reflexivity|]. split; [exact Ho|].
  intros msg w' Hw'. rewrite Hw' in Ho. discriminate Ho.
Qed.


(** The run that the witness of C3 is about, evaluated. *)
Example resume_second_run :
  let w := Example.start Example.two_runs Example.argv in
  ∃ w', Example.run Example.not_a_repository "ckpt" true w
        = Ok ("ckpt/2", Some "ckpt/2/model.ckpt-200") w'
    ∧ __flags (FLAGS w') !! "data" = Some (VStr "cifar").
Proof.
  intros w. exists (final (Example.run Example.not_a_repository "ckpt" true w)).
  split; vm_compute; reflexivity.
Qed.

(** C4 on the second run of the example: [data] was parsed as [mnist] and
    is restored as [cifar]. *)
Lemma resume_overlays_the_flag_file_witness :
  let w := Example.start Example.two_runs Example.argv in
  let w2 := final (Example.load_and_parse w) in
  ∃ rc w', Example.run Example.not_a_repository "ckpt" true w = Ok ("ckpt/2", rc) w'
    ∧ __parsed (FLAGS w') = true
    ∧ __flags (FLAGS w') = Example.second_run_flags ∪ __flags (FLAGS w2)
    ∧ (∀ k v, Example.second_run_flags !! k = Some v →
              __flags (FLAGS w') !! k = Some v)
    ∧ (∀ k, Example.second_run_flags !! k = None →
            __flags (FLAGS w') !! k = __flags (FLAGS w2) !! k).
Proof.
  intros w w2.
  apply (resume_overlays_the_flag_file (list string) Example.load_source
           Example.import_module Example.parse Example.not_a_repository
           "ckpt" "cfg/data.py" "cfg/model.py" w "ckpt/2" w w2
           Example.second_run_flags).
  - vm_compute. reflexivity.
  - vm_compute. reflexivity.
  - vm_compute. reflexivity.
Defined.


(** C6, as the code has it, on a folder with the one entry
    [a.ckpt-5.index]. *)
Lemma find_model_files_maps_to_stripped_paths_witness :
  let w := Example.start Example.index_only Example.argv in
  ∃ m, find_model_files "run" w = Ok m w
    ∧ ∀ itr, m !! itr =
        (λ g, OsPath.join "run" g) <$>
          last (filter (λ g, extract_itr_from_modelfile g = inr itr)
                  (filter (λ g, Re.search g = true)
                     ((λ f, Py.replace f ".index" "") <$> ["a.ckpt-5.index"]))).
Proof.
  intros w.
  apply (find_model_files_maps_to_stripped_paths (list string) "run" w
           ["a.ckpt-5.index"]).
  reflexivity.
Defined.

(** C6 as it is stated fails on two folders.  For the entry
    [a.ckpt-5.index] the code gives the path of [a.ckpt-5], the stripped
    name, where the specification has the original path of the entry.  For
    the entry [m.ckpt-.index7] the code removes the marker in the middle of
    the name and finds a checkpoint of iteration 7, where the specification
    leaves the name as it is and finds nothing. *)
Lemma find_model_files_strips_everywhere :
  let w1 := Example.start Example.index_only Example.argv in
  let w2 := Example.start Example.index_inside Example.argv in
  Fs.listdir (fs w1) "run" = Some ["a.ckpt-5.index"]
  ∧ find_model_files "run" w1 = Ok (<[5 := "run/a.ckpt-5"]> ∅) w1
  ∧ Spec.model_files_as_specified "run" ["a.ckpt-5.index"] ∅
    = inr (<[5 := "run/a.ckpt-5.index"]> ∅)
  ∧ Fs.listdir (fs w2) "run" = Some ["m.ckpt-.index7"]
  ∧ find_model_files "run" w2 = Ok (<[7 := "run/m.ckpt-7"]> ∅) w2
  ∧ Spec.model_files_as_specified "run" ["m.ckpt-.index7"] ∅ = inr ∅.
Proof. repeat split; vm_compute; reflexivity. Qed.



(** C8 on a path with a directory and an extension, and on a name without
    iteration number. *)
Lemma extract_itr_is_the_iteration_segment_witness :
  extract_itr_from_modelfile "runs/1/model.ckpt-17.meta" = inr 17
  ∧ ∃ msg, extract_itr_from_modelfile "model.ckpt" = inl (ValueError msg).
Proof.
  split.
  - apply (proj1 extract_itr_is_the_iteration_segment). reflexivity.
  - apply (proj1 (proj2 extract_itr_is_the_iteration_segment)). reflexivity.
Defined.


(** C10 on a registry in which [data] is set to [preset] and a command line
    with [--data=mnist]. *)
Lemma parse_flags_restores_registry_witness :
  let w := Example.preset Example.argv in
  ∃ flags w', parse_flags Example.parse w = Ok flags w'
    ∧ flags = __flags (FLAGS w')
    ∧ ∀ k v, __flags (FLAGS w) !! k = Some v → flags !! k = Some v.
Proof.
  intros w.
  eapply (parse_flags_restores_registry (list string) Example.parse w).
  reflexivity.
Defined.

(** The run that the witness of C10 is about, evaluated: the command line
    does not replace the value of the registry. *)
Example preset_flag_wins :
  ∃ w', parse_flags Example.parse (Example.preset Example.argv)
        = Ok {["data" := VStr "preset"]} w'
    ∧ sys_argv w' = ["train.py"].
Proof.
  exists (final (parse_flags Example.parse (Example.preset Example.argv))).
  split; vm_compute; reflexivity.
Qed.

(** * Beyond the specification: the rest of the module *)

Section decimal_text.
Implicit Types (s t : string) (n : Z).

Lemma str_negative p : Py.str (Z.neg p) = String "-" (Py.str (Z.pos p)).
Proof. done. Qed.

(** The characters of [str(n)] are a sign or digits. *)
Lemma str_without c n :
  Re.is_digit c = false → c ≠ "-"%char → Spec.contains c (Py.str n) = false.
Proof.
  intros Hc Hm.
  assert (∀ p, Spec.contains c (Py.str (Z.pos p)) = false) as Hpos.
  { intros p. destruct (str_pos_digits (Z.pos p)) as (a & s & -> & Ha & Hs); [lia|].
    simpl. rewrite (all_digits_contains c s) by done.
    destruct (Ascii.eqb_spec a c) as [->|]; [congruence|done]. }
  destruct n as [|p|p]; [|apply Hpos|].
  - change (Py.str 0) with "0". cbn [Spec.contains].
    destruct (Ascii.eqb_spec "0" c) as [<-|]; [by vm_compute in Hc|done].
  - rewrite str_negative. cbn [Spec.contains]. rewrite Hpos.
    destruct (Ascii.eqb_spec "-" c) as [<-|]; [done|done].
Qed.

Lemma length_str_take k s : String.length (Py.take k s) = (k `min` String.length s)%nat.
Proof.
  revert s; induction k as [|k IH]; intros [|a s]; simpl; [done..|].
  by rewrite IH.
Qed.

Lemma length_str_drop k s : String.length (Py.drop k s) = (String.length s - k)%nat.
Proof.
  revert s; induction k as [|k IH]; intros [|a s]; simpl; [done..|].
  by rewrite IH.
Qed.

Lemma length_append s t :
  String.length (s +:+ t) = (String.length s + String.length t)%nat.
Proof.
  induction s as [|a s IH]; [done|].
  change (String a s +:+ t) with (String a (s +:+ t)). simpl. by rewrite IH.
Qed.

Lemma length_zero s : String.length s = 0%nat → s = "".
Proof. by destruct s. Qed.

End decimal_text.

Section joined.
Implicit Types (s t : string) (l : list string).

(** The pieces of [l] put together without a separator. *)
Local Abbreviation together := (foldr String.append "").

Lemma together_app l l' : together (l ++ l') = together l +:+ together l'.
Proof.
  induction l as [|x l IH]; [done|]. simpl. rewrite IH.
  by rewrite app_assoc_string.
Qed.

Lemma together_without c l :
  Spec.contains c (together l) = false → Forall (λ x, Spec.contains c x = false) l.
Proof.
  induction l as [|x l IH]; simpl; [constructor|].
  rewrite contains_app. intros [Hx Hl]%orb_false_iff. constructor; auto.
Qed.

Lemma concat_sep_cons sep x y l :
  String.concat sep (x :: y :: l) = x +:+ sep +:+ String.concat sep (y :: l).
Proof. done. Qed.

Lemma prefix_space a s : String.prefix " " (String a s) = Ascii.eqb a " ".
Proof.
  cbn [String.prefix]. destruct (Ascii.ascii_dec " " a) as [<-|Hne].
  - rewrite Ascii.eqb_refl. by destruct s.
  - destruct (Ascii.eqb_spec a " ") as [->|]; done.
Qed.

(** [s.replace(' ', '')] takes the spaces out. *)
Lemma replace_space_cons a s :
  Py.replace (String a s) " " "" =
  if Ascii.eqb a " " then Py.replace s " " "" else String a (Py.replace s " " "").
Proof.
  unfold Py.replace. cbn [Py.replace_go]. rewrite prefix_space.
  by destruct (Ascii.eqb a " ").
Qed.

Lemma replace_space_app s t :
  Py.replace (s +:+ t) " " "" = Py.replace s " " "" +:+ Py.replace t " " "".
Proof.
  induction s as [|a s IH]; [done|].
  change (String a s +:+ t) with (String a (s +:+ t)).
  rewrite !replace_space_cons, IH. by destruct (Ascii.eqb a " ").
Qed.

Lemma replace_space_without s :
  Spec.contains " " s = false → Py.replace s " " "" = s.
Proof.
  induction s as [|a s IH]; [done|].
  cbn [Spec.contains]. intros [Ha Hs]%orb_false_iff.
  by rewrite replace_space_cons, Ha, IH.
Qed.

Lemma replace_space_concat l :
  Forall (λ x, Spec.contains " " x = false) l →
  Py.replace (String.concat " " l) " " "" = together l.
Proof.
  induction 1 as [|x l Hx Hl IH]; [done|].
  destruct l as [|y l].
  - simpl. rewrite app_empty_r. by apply replace_space_without.
  - rewrite concat_sep_cons, !replace_space_app, IH, replace_space_without by done.
    done.
Qed.

(** [' '.join(l).split(' ')] gives [l] back when no piece has a space. *)
Lemma split_concat l :
  Forall (λ x, Spec.contains " " x = false) l → l ≠ [] →
  Py.split " " (String.concat " " l) = l.
Proof.
  induction 1 as [|x l Hx Hl IH]; [done|]. intros _.
  destruct l as [|y l].
  - simpl. by apply split_without.
  - rewrite concat_sep_cons.
    change (x +:+ " " +:+ String.concat " " (y :: l))
      with (x +:+ String " " (String.concat " " (y :: l))).
    rewrite split_app, IH, split_without by done. done.
Qed.

End joined.

Section format_integer_properties.
Implicit Types (number part : string) (parts : list string).

Local Abbreviation together := (foldr String.append "").

(** The loop ends within one round for each character, and what it adds
    to [parts] are the groups from right to left: all of [group_size]
    characters but the last one added, the leftmost group. *)
Lemma split_groups_spec group_size fuel number parts :
  (0 < group_size)%nat → (String.length number ≤ fuel)%nat →
  ∃ new, split_groups fuel group_size number parts = Some (parts ++ new)
    ∧ together (reverse new) = number
    ∧ match reverse new with
      | [] => number = ""
      | first :: rest =>
          (1 ≤ String.length first ≤ group_size)%nat
          ∧ Forall (λ x, String.length x = group_size) rest
      end.
Proof.
  intros Hg. revert number parts.
  induction fuel as [|fuel IH]; intros number parts Hfuel.
  - apply Nat.le_0_r, length_zero in Hfuel as ->.
    exists []. by rewrite app_nil_r.
  - destruct number as [|a s] eqn:Hnumber.
    { exists []. by rewrite app_nil_r. }
    rewrite <- Hnumber in *. cbn [split_groups].
    replace (match number with "" => Some parts | _ => _ end)
      with (split_groups fuel group_size
              (Py.take (String.length number - group_size) number)
              (parts ++ [Py.drop (String.length number - group_size) number]))
      by (by rewrite Hnumber).
    set (cut := (String.length number - group_size)%nat).
    assert (0 < String.length number)%nat as Hlen by (rewrite Hnumber; simpl; lia).
    destruct (IH (Py.take cut number) (parts ++ [Py.drop cut number]))
      as (new & -> & Htogether & Hshape).
    { rewrite length_str_take. unfold cut. lia. }
    exists (Py.drop cut number :: new). split; [by rewrite <- app_assoc|].
    rewrite reverse_cons, together_app. cbn [foldr].
    rewrite Htogether, app_empty_r, take_drop. split; [done|].
    destruct (reverse new) as [|first rest] eqn:Hrev.
    + cbn [app]. assert (cut = 0)%nat as Hcut.
      { apply (f_equal String.length) in Hshape.
        rewrite length_str_take in Hshape. simpl in Hshape. lia. }
      rewrite Hcut. cbn [Py.drop]. split; [|constructor]. unfold cut in Hcut. lia.
    + cbn [app]. destruct Hshape as [Hfirst Hrest]. split; [done|].
      apply Forall_app. split; [done|]. constructor; [|constructor].
      rewrite length_str_drop.
      apply (f_equal String.length) in Htogether. cbn [foldr] in Htogether.
      rewrite length_append, length_str_take in Htogether. unfold cut in *. lia.
Qed.

Lemma length_together l (group_size : nat) :
  Forall (λ x, String.length x = group_size) l →
  String.length (together l) = (group_size * length l)%nat.
Proof.
  induction 1 as [|x l Hx Hl IH]; simpl; [lia|].
  rewrite length_append, IH, Hx. lia.
Qed.

(** What [format_integer] returns for a positive [group_size]. *)
Lemma format_integer_shape (number group_size : Z) :
  0 < group_size →
  ∃ first rest,
    format_integer number group_size = Some (inr (String.concat " " (first :: rest)))
    ∧ together (first :: rest) = Py.str number
    ∧ (1 ≤ String.length first ≤ Z.to_nat group_size)%nat
    ∧ Forall (λ x, String.length x = Z.to_nat group_size) rest.
Proof.
  intros Hg. unfold format_integer. rewrite bool_decide_eq_true_2 by lia.
  destruct (split_groups_spec (Z.to_nat group_size) (String.length (Py.str number))
              (Py.str number) []) as (new & -> & Htogether & Hshape); [lia|done|].
  cbn [mbind option_bind app]. destruct (reverse new) as [|first rest].
  - by destruct (str_nonempty number).
  - destruct Hshape. by exists first, rest.
Qed.

End format_integer_properties.

(** X1. [format_integer] fails, on its assertion, exactly when
    [group_size] is not positive.  Otherwise it returns a text from which
    [str(number)] comes back when the spaces are taken out, and whose
    pieces between the spaces are groups of [group_size] characters, but
    for the first one, which has from one to [group_size] characters. *)
Theorem format_integer_groups (number group_size : Z) :
  (group_size ≤ 0 →
   format_integer number group_size = Some (inl (OtherError "AssertionError")))
  ∧ (0 < group_size →
     ∃ r first rest,
       format_integer number group_size = Some (inr r)
       ∧ Py.replace r " " "" = Py.str number
       ∧ Py.int (Py.replace r " " "") = Some number
       ∧ Py.split " " r = first :: rest
       ∧ 1 ≤ Z.of_nat (String.length first) ≤ group_size
       ∧ Forall (λ x, Z.of_nat (String.length x) = group_size) rest).
Proof.
  split.
  - intros Hg. unfold format_integer. by rewrite bool_decide_eq_false_2 by lia.
  - intros Hg.
    destruct (format_integer_shape number group_size Hg)
      as (first & rest & Hr & Htogether & Hfirst & Hrest).
    assert (Forall (λ x, Spec.contains " " x = false) (first :: rest)) as Hspace.
    { apply together_without. rewrite Htogether. by apply str_without. }
    exists (String.concat " " (first :: rest)), first, rest.
    rewrite replace_space_concat, Htogether, int_str, split_concat by done.
    repeat split; [done|lia|lia|].
    eapply Forall_impl; [exact Hrest|]. simpl. lia.
Qed.

(** X2. The sign of a negative number is grouped like a digit: when the
    number of digits is a multiple of [group_size], the text that
    [format_integer] returns starts with the sign alone and a space, as in
    [- 123 456]. *)
Theorem format_integer_groups_the_sign (number group_size : Z) :
  number < 0 → 0 < group_size →
  (group_size | Z.of_nat (String.length (Py.str (- number)))) →
  ∃ r, format_integer number group_size = Some (inr ("- " +:+ r)).
Proof.
  intros Hneg Hg [k Hk].
  destruct (format_integer_shape number group_size Hg)
    as (first & rest & Hr & Htogether & Hfirst & Hrest).
  destruct number as [|p|p]; [lia..|]. rewrite str_negative in Htogether.
  change (- Z.neg p) with (Z.pos p) in Hk.
  pose proof (f_equal String.length Htogether) as Hlen.
  cbn [foldr] in Hlen. rewrite length_append, (length_together _ _ Hrest) in Hlen.
  cbn [String.length] in Hlen.
  assert (String.length (Py.str (Z.pos p)) ≠ 0)%nat as Hdigits.
  { intros Hz%length_zero. by destruct (str_nonempty (Z.pos p)). }
  assert (String.length first = 1)%nat as Hone.
  { assert (Z.of_nat (String.length first) - 1
            = group_size * (k - Z.of_nat (length rest))) as Hdiff by nia.
    assert (k - Z.of_nat (length rest) = 0) as Hzero by nia.
    rewrite Hzero in Hdiff. lia. }
  destruct first as [|a [|b first]]; [done| |done].
  cbn [foldr] in Htogether.
  change (String a "" +:+ ?t) with (String a t) in Htogether.
  injection Htogether as -> Hrest'.
  destruct rest as [|x rest].
  { simpl in Hlen. lia. }
  exists (String.concat " " (x :: rest)). by rewrite Hr.
Qed.

Section imports.
Variable parser : Type.
Variable load_source : string → Fs.content → FlagValues parser → exn + FlagValues parser.
Variable import_module : string → FlagValues parser → exn + FlagValues parser.
Implicit Types (w : world parser) (p q : string).

Local Abbreviation _import_module' := (_import_module parser load_source import_module).
Local Abbreviation _load_flags' := (_load_flags parser load_source import_module).

(** The name that [_import_module] returns beside the module. *)
Local Abbreviation short_name := (λ module_name : string,
  default "" (Py.last_item (Py.split "/"
    (default "" (Py.last_item (Py.split "." module_name)))))).

Lemma run_module_Ok name run w u w1 :
  run_module parser name run w = Ok u w1 →
  name ∈ sys_modules w1 ∧ fs w1 = fs w ∧ sys_argv w1 = sys_argv w.
Proof.
  unfold run_module. unfold_monad. destruct (run (FLAGS w)); [done|].
  intros [= _ <-]. simpl. split; [set_solver|done].
Qed.

(** A module that was imported is in [sys.modules] under its name; the
    import changes neither the files nor the arguments. *)
Lemma _import_module_Ok p w name w1 :
  _import_module' p w = Ok name w1 →
  name = short_name (module_name_of p)
  ∧ module_name_of p ∈ sys_modules w1
  ∧ fs w1 = fs w ∧ sys_argv w1 = sys_argv w
  ∧ (Py.endswith p ".py" = true → Fs.exists_ (fs w) p = true).
Proof.
  unfold _import_module, module_name_of. unfold_monad.
  destruct (Py.endswith p ".py") eqn:Hpy.
  - destruct (Fs.exists_ (fs w) p) eqn:Hex; [|done]. cbn [negb].
    destruct (decide (OsPath.basename (OsPath.splitext_root p) ∈ sys_modules w))
      as [Hin|Hin].
    + intros [= <- <-]. done.
    + destruct (Fs.read (fs w) p) as [source|]; [|done].
      destruct (run_module parser _ _ w) as [u w2|e w2] eqn:Hrun; [|done].
      apply run_module_Ok in Hrun as (? & ? & ?).
      intros [= <- <-]. done.
  - destruct (decide (p ∈ sys_modules w)) as [Hin|Hin].
    + intros [= <- <-]. done.
    + destruct (run_module parser _ _ w) as [u w2|e w2] eqn:Hrun; [|done].
      apply run_module_Ok in Hrun as (? & ? & ?).
      intros [= <- <-]. done.
Qed.

(** A module that is in [sys.modules] is not run again. *)
Lemma _import_module_cached q w :
  module_name_of q ∈ sys_modules w →
  (Py.endswith q ".py" = true → Fs.exists_ (fs w) q = true) →
  _import_module' q w = Ok (short_name (module_name_of q)) w.
Proof.
  unfold _import_module, module_name_of. unfold_monad. intros Hin Hex.
  destruct (Py.endswith q ".py") eqn:Hpy.
  - rewrite Hex by done. cbn [negb]. by rewrite decide_True.
  - by rewrite decide_True.
Qed.

Lemma _load_flags_cons p paths w :
  _load_flags' (p :: paths) w =
  match _import_module' p w with
  | Ok _ w1 => _load_flags' paths w1
  | Raise e w1 => Raise e w1
  end.
Proof.
  unfold _load_flags. cbn [for_each]. unfold bind at 1 2.
  destruct (_import_module' p w); done.
Qed.

End imports.

(** X3. A config module is run once for each module name.  After
    [_import_module] has returned for [p], importing any [q] that has the
    same module name (the file name without directory and extension, or the
    dotted name) returns at once and changes nothing, also when [q] is
    another file; so [_load_flags] on a model config and a data config of
    the same module name runs the model config alone. *)
Theorem a_module_name_is_loaded_once {parser}
    (load_source : string → Fs.content → FlagValues parser → exn + FlagValues parser)
    (import_module : string → FlagValues parser → exn + FlagValues parser)
    (p q : string) (w : world parser) :
  module_name_of q = module_name_of p →
  (Py.endswith q ".py" = true → Fs.exists_ (fs w) q = true) →
  (∀ name w1, _import_module parser load_source import_module p w = Ok name w1 →
     _import_module parser load_source import_module q w1 = Ok name w1)
  ∧ _load_flags parser load_source import_module [p; q] w
    = _load_flags parser load_source import_module [p] w.
Proof.
  intros Hname Hex.
  assert (∀ name w1, _import_module parser load_source import_module p w = Ok name w1 →
     _import_module parser load_source import_module q w1 = Ok name w1) as Hcached.
  { intros name w1 Himport.
    apply _import_module_Ok in Himport as (-> & Hin & Hfs & _ & _).
    rewrite <- Hname in *. apply _import_module_cached; [done|].
    rewrite Hfs. done. }
  split; [done|].
  rewrite !_load_flags_cons.
  destruct (_import_module parser load_source import_module p w) as [name w1|e w1] eqn:Hp;
    [|done].
  rewrite !_load_flags_cons, (Hcached name w1) by done. done.
Qed.

Section command_line.
Variable parser : Type.
Implicit Types (w : world parser) (flag_dict : list (string * value)).

(** The argument that [set_flags] appends for an item. *)
Local Abbreviation argument := (λ '(k, v), "--" +:+ k +:+ "=" +:+ format_value v).

Lemma set_argv_same w : set_argv (sys_argv w) w = w.
Proof. by destruct w. Qed.

Lemma set_flags_Ok flag_dict w :
  set_flags flag_dict w = Ok () (set_argv (sys_argv w ++ (argument <$> flag_dict)) w).
Proof.
  unfold set_flags. revert w. induction flag_dict as [|[k v] flag_dict IH]; intros w.
  - cbn [for_each fmap list_fmap]. rewrite app_nil_r, set_argv_same. done.
  - cbn [for_each]. unfold bind at 1. unfold modify at 1. rewrite IH.
    cbn [fmap list_fmap]. unfold set_argv. simpl. by rewrite <- app_assoc.
Qed.

Lemma argument_is_a_flag k v : Py.startswith (argument (k, v)) "--" = true.
Proof.
  unfold Py.startswith.
  change ("--" +:+ k +:+ "=" +:+ format_value v)
    with (String "-" (String "-" (k +:+ "=" +:+ format_value v))).
  cbn [String.prefix]. destruct (Ascii.ascii_dec "-" "-"); [|done].
  by destruct (k +:+ "=" +:+ format_value v).
Qed.

Lemma assert_all_flags_parsed_cases w :
  assert_all_flags_parsed parser w =
  match filter (λ a, Py.startswith a "--" = true) (drop 1 (sys_argv w)) with
  | [] => Ok () w
  | _ => Raise (RuntimeError "Failed to parse following flags") w
  end.
Proof.
  unfold assert_all_flags_parsed. unfold_monad.
  by destruct (filter _ (drop 1 (sys_argv w))).
Qed.

End command_line.

(** X4. Flags that [set_flags] puts on the command line have to be parsed:
    it appends one argument [--name=value] for each item, in order, and
    changes nothing else; when the command line has its program name, a
    call of [assert_all_flags_parsed] after it raises [RuntimeError] until
    the arguments are consumed.  On an empty command line the first flag
    takes the place of the program name: a single one is not found. *)
Theorem set_flags_have_to_be_parsed {parser}
    (flag_dict : list (string * value)) (w : world parser) :
  ∃ w', set_flags flag_dict w = Ok () w'
    ∧ fs w' = fs w ∧ FLAGS w' = FLAGS w ∧ sys_modules w' = sys_modules w
    ∧ sys_argv w' = sys_argv w
        ++ ((λ '(k, v), "--" +:+ k +:+ "=" +:+ format_value v) <$> flag_dict)
    ∧ (flag_dict ≠ [] → sys_argv w ≠ [] →
       ∃ msg, assert_all_flags_parsed parser w' = Raise (RuntimeError msg) w')
    ∧ (length flag_dict = 1%nat → sys_argv w = [] →
       assert_all_flags_parsed parser w' = Ok () w').
Proof.
  eexists. split; [apply set_flags_Ok|]. do 4 (split; [done|]).
  rewrite assert_all_flags_parsed_cases. cbn [sys_argv set_argv]. split.
  - intros Hd Hargv. destruct (sys_argv w) as [|a argv]; [done|].
    destruct flag_dict as [|[k v] flag_dict]; [done|].
    cbn [app drop fmap list_fmap]. rewrite drop_0, filter_app, filter_cons_True
      by apply (argument_is_a_flag k v).
    destruct (filter _ argv); eauto.
  - intros Hd ->. destruct flag_dict as [|[k v] [|? ?]]; done.
Qed.

(** X5. [set_flags_if_notebook] is [set_flags] under a notebook kernel
    ([ZMQInteractiveShell]); it does nothing under a terminal shell and
    where [get_ipython] is not defined; under any other shell it raises
    the [ValueError] of [is_notebook], also when there is no flag to set. *)
Theorem set_flags_if_notebook_by_interpreter {parser}
    (get_ipython : option string) (flags_to_set : list (string * value))
    (w : world parser) :
  (get_ipython = Some "ZMQInteractiveShell" →
   set_flags_if_notebook get_ipython flags_to_set w = set_flags flags_to_set w)
  ∧ (get_ipython = None ∨ get_ipython = Some "TerminalInteractiveShell" →
     set_flags_if_notebook get_ipython flags_to_set w = Ok () w)
  ∧ (∀ interpreter, get_ipython = Some interpreter →
     interpreter ≠ "ZMQInteractiveShell" →
     interpreter ≠ "TerminalInteractiveShell" →
     ∃ msg, is_notebook get_ipython w = Raise (ValueError msg) w
       ∧ set_flags_if_notebook get_ipython flags_to_set w = Raise (ValueError msg) w).
Proof.
  unfold set_flags_if_notebook, is_notebook. repeat split.
  - intros ->. cbn. destruct flags_to_set; done.
  - intros [-> | ->]; done.
  - intros interpreter -> Hzmq Hterminal.
    destruct (String.eqb_spec interpreter "ZMQInteractiveShell"); [done|].
    destruct (String.eqb_spec interpreter "TerminalInteractiveShell"); [done|].
    cbn. eauto.
Qed.

Section loading.
Variable parser : Type.
Variable load_source : string → Fs.content → FlagValues parser → exn + FlagValues parser.
Variable import_module : string → FlagValues parser → exn + FlagValues parser.
Variable FLAGS_parse_flags :
  FlagValues parser → list string → exn + (FlagValues parser * list string).
Variable loaded : Type.
Variable module_load : string → option (M parser loaded).
Implicit Types (w : world parser).

Lemma load_steps conf_path w :
  load load_source import_module FLAGS_parse_flags module_load conf_path w =
  match _import_module parser load_source import_module conf_path w with
  | Raise e w1 => Raise e w1
  | Ok _ w1 =>
      match module_load (module_name_of conf_path) with
      | None =>
          Raise (ValueError "The config file should specify 'load' function but no such function was found") w1
      | Some load_func =>
          match parse_flags FLAGS_parse_flags w1 with
          | Raise e w2 => Raise e w2
          | Ok _ w2 => load_func w2
          end
      end
  end.
Proof.
  unfold load. unfold bind at 1.
  destruct (_import_module parser _ _ conf_path w) as [name w1|]; [|done].
  destruct (module_load (module_name_of conf_path)); [|done].
  unfold bind at 1. by destruct (parse_flags FLAGS_parse_flags w1).
Qed.

End loading.


(** ** What a change of the file system leaves alone *)

Section tree_frames.
Import Fs.
Implicit Types (t x : node) (cs ds : list string) (es : list (string * node)).

Local Ltac obind := cbn [mbind option_bind].

Lemma set_entry_names c x y es :
  lookup_entry c es = Some y → (set_entry c x es).*1 = es.*1.
Proof.
  induction es as [|[n z] es IH]; [done|]. cbn [lookup_entry set_entry].
  destruct (decide (n = c)) as [->|]; [done|].
  intros Hl. cbn [fmap list_fmap]. f_equal. by apply IH.
Qed.

(** [put] goes through directories only. *)
Lemma put_through_dirs ds c rest x t t' :
  put (ds ++ c :: rest) x t = Some t' → ∃ es, walk ds t = Some (Dir es).
Proof.
  revert t t'. induction ds as [|d ds IH]; intros t t'.
  - destruct t as [|es]; [done|]. eauto.
  - destruct t as [|es]; [done|].
    change ((d :: ds) ++ c :: rest) with (d :: (ds ++ c :: rest)).
    destruct (ds ++ c :: rest) as [|a l] eqn:Hl; [destruct ds; simpl in Hl; discriminate|].
    rewrite put_cons. destruct (lookup_entry d es) as [sub|] eqn:Hd; obind; [|done].
    destruct (put (a :: l) x sub) as [sub'|] eqn:Hp; obind; [|done].
    intros _. cbn [walk]. rewrite Hd. obind. exact (IH _ _ Hp).
Qed.

(** What is neither above nor below the place of a [put] is not changed. *)
Lemma walk_put_apart cs x t t' ds :
  put cs x t = Some t' → ¬ cs `prefix_of` ds → ¬ ds `prefix_of` cs →
  walk ds t' = walk ds t.
Proof.
  revert t t' ds. induction cs as [|a cs IH]; intros t t' ds Hp Hcd Hdc.
  { destruct Hcd. apply prefix_nil. }
  destruct t as [|es]; [done|].
  destruct ds as [|d ds]; [destruct Hdc; apply prefix_nil|].
  destruct cs as [|a' cs].
  - injection Hp as <-. cbn [walk].
    destruct (decide (a = d)) as [->|Had]; [|by rewrite lookup_set_entry_ne].
    destruct Hcd. by apply (prefix_app_r [d] [d] ds).
  - rewrite put_cons in Hp.
    destruct (lookup_entry a es) as [sub|] eqn:Ha; obind; [|done].
    revert Hp. obind.
    destruct (put (a' :: cs) x sub) as [sub'|] eqn:Hput; obind; [|done].
    intros [= <-]. cbn [walk].
    destruct (decide (a = d)) as [->|Had]; [|by rewrite lookup_set_entry_ne].
    rewrite lookup_set_entry, Ha. obind. apply (IH sub); [done| |].
    + intros Hpre. apply Hcd. by apply prefix_cons.
    + intros Hpre. apply Hdc. by apply prefix_cons.
Qed.

(** Above the place of a [put] the directories stay; one that is not the
    parent of the place keeps the names of its entries. *)
Lemma walk_put_above ds c c' rest x t t' es :
  put (ds ++ c :: c' :: rest) x t = Some t' →
  walk ds t = Some (Dir es) →
  ∃ es', walk ds t' = Some (Dir es') ∧ es'.*1 = es.*1.
Proof.
  revert t t'. induction ds as [|d ds IH]; intros t t'.
  - cbn [app]. destruct t as [|es0]; [done|]. rewrite put_cons.
    destruct (lookup_entry c es0) as [sub|] eqn:Hc; obind; [|done].
    destruct (put (c' :: rest) x sub) as [sub'|]; obind; [|done].
    intros [= <-] [= <-]. eexists. split; [done|]. by eapply set_entry_names.
  - destruct t as [|es0]; [done|].
    change ((d :: ds) ++ c :: c' :: rest) with (d :: (ds ++ c :: c' :: rest)).
    destruct (ds ++ c :: c' :: rest) as [|a l] eqn:Hl; [destruct ds; simpl in Hl; discriminate|].
    rewrite put_cons. destruct (lookup_entry d es0) as [sub|] eqn:Hd; obind; [|done].
    destruct (put (a :: l) x sub) as [sub'|] eqn:Hp; obind; [|done].
    intros [= <-]. cbn [walk]. rewrite lookup_set_entry, Hd. obind.
    by apply IH.
Qed.

(** A file that is there stays when something is put where nothing was
    or where a file was. *)
Lemma put_keeps_files cs x t t' ds c0 :
  put cs x t = Some t' → cs ≠ ds →
  (∀ es, walk cs t ≠ Some (Dir es)) →
  walk ds t = Some (File c0) → walk ds t' = Some (File c0).
Proof.
  intros Hp Hne Hnd Hw.
  destruct (decide (cs `prefix_of` ds)) as [[rest ->]|Hcd].
  { rewrite walk_app in Hw. destruct (walk cs t) as [[c1|es]|] eqn:Hcs; [| |done].
    - destruct rest; [by rewrite app_nil_r in Hne|done].
    - by destruct (Hnd es). }
  destruct (decide (ds `prefix_of` cs)) as [[rest ->]|Hdc].
  { destruct rest as [|c rest]; [by rewrite app_nil_r in Hne|].
    apply put_through_dirs in Hp as [es Hes]. congruence. }
  by rewrite (walk_put_apart _ _ _ _ _ Hp).
Qed.

(** A directory that is there stays when something is put where no
    directory was. *)
Lemma put_keeps_dirs cs x t t' ds es :
  put cs x t = Some t' →
  (∀ es, walk cs t ≠ Some (Dir es)) →
  walk ds t = Some (Dir es) → ∃ es', walk ds t' = Some (Dir es').
Proof.
  intros Hp Hnd Hw.
  destruct (decide (cs `prefix_of` ds)) as [[rest ->]|Hcd].
  { rewrite walk_app in Hw. destruct (walk cs t) as [[c1|es1]|] eqn:Hcs; [| |done].
    - destruct rest; done.
    - by destruct (Hnd es1). }
  destruct (decide (ds `prefix_of` cs)) as [[rest ->]|Hdc].
  { destruct rest as [|c [|c' rest]].
    - rewrite app_nil_r in Hnd. by destruct (Hnd es).
    - destruct (put_child ds c x t es Hw) as (t'' & Hp' & Hw').
      rewrite Hp in Hp'. injection Hp' as <-. eauto.
    - destruct (walk_put_above _ _ _ _ _ _ _ _ Hp Hw) as (es' & ? & _). eauto. }
  rewrite (walk_put_apart _ _ _ _ _ Hp) by done. eauto.
Qed.

(** [ensure] adds directories only. *)
Lemma ensure_keeps_files cs t t' ds c0 :
  ensure cs t = Some t' →
  walk ds t = Some (File c0) → walk ds t' = Some (File c0).
Proof.
  revert t t' ds. induction cs as [|a cs IH]; intros t t' ds.
  { by intros [= <-]. }
  destruct t as [|es]; [done|]. cbn [ensure].
  destruct (ensure cs (default (Dir []) (lookup_entry a es))) as [sub'|] eqn:He;
    obind; [|done].
  intros [= <-]. destruct ds as [|d ds]; [done|]. cbn [walk].
  destruct (decide (a = d)) as [->|Had]; [|by rewrite lookup_set_entry_ne].
  rewrite lookup_set_entry. destruct (lookup_entry d es) as [sub|]; obind; [|done].
  by apply (IH sub).
Qed.

Lemma ensure_keeps_dirs cs t t' ds es :
  ensure cs t = Some t' →
  walk ds t = Some (Dir es) → ∃ es', walk ds t' = Some (Dir es').
Proof.
  revert t t' ds es. induction cs as [|a cs IH]; intros t t' ds es.
  { intros [= <-]. eauto. }
  destruct t as [|es0]; [done|]. cbn [ensure].
  destruct (ensure cs (default (Dir []) (lookup_entry a es0))) as [sub'|] eqn:He;
    obind; [|done].
  intros [= <-]. destruct ds as [|d ds]; [cbn [walk]; eauto|]. cbn [walk].
  destruct (decide (a = d)) as [->|Had]; [|rewrite lookup_set_entry_ne by done; eauto].
  rewrite lookup_set_entry. destruct (lookup_entry d es0) as [sub|]; obind; [|done].
  by apply (IH sub).
Qed.

(** [ensure] succeeds unless a regular file is in the way. *)
Lemma ensure_Some cs t :
  (∀ k c, walk (take k cs) t ≠ Some (File c)) → is_Some (ensure cs t).
Proof.
  revert t. induction cs as [|a cs IH]; intros t Hfree; [by eexists|].
  destruct t as [c|es]; [by destruct (Hfree 0%nat c)|]. cbn [ensure].
  destruct (IH (default (Dir []) (lookup_entry a es))) as [sub' ->]; [|by eexists].
  intros k c. specialize (Hfree (S k) c). cbn [take walk] in Hfree.
  destruct (lookup_entry a es) as [sub|]; [done|]. cbn [default].
  destruct (take k cs); [done|]. done.
Qed.

End tree_frames.

Section path_frames.
Import Fs.
Implicit Types (t : node) (p q : string).

(** The text of a number is the name of an entry that is not hidden. *)
Lemma str_entry_name n :
  Spec.contains "/" (Py.str n) = false ∧ Py.str n ≠ "" ∧ Py.str n ≠ "."
  ∧ Py.startswith (Py.str n) "_" = false ∧ Py.startswith (Py.str n) "." = false.
Proof.
  split; [by apply str_without|]. split; [apply str_nonempty|].
  assert (Spec.contains "." (Py.str n) = false) as Hdot by by apply str_without.
  split; [by intros Heq; rewrite Heq in Hdot|].
  split; apply startswith_contains; [by apply str_without|done].
Qed.

Lemma locate_join_number dir n :
  locate (OsPath.join dir (Py.str n)) = Some (components dir ++ [Py.str n]).
Proof.
  destruct (str_entry_name n) as (? & ? & ? & _). by apply locate_join_name.
Qed.

(** A new entry can be made in a listed directory. *)
Lemma mkdir_entry t dir names name :
  listdir t dir = Some names →
  Spec.contains "/" name = false → name ≠ "" → name ≠ "." → name ∉ names →
  exists_ t (OsPath.join dir name) = false
  ∧ ∃ t', mkdir t (OsPath.join dir name) = Some t'
       ∧ resolve t' (OsPath.join dir name) = Some (Dir [])
       ∧ listdir t' dir = Some (names ++ [name]).
Proof.
  intros Hl Hs Hne Hdot Hnew. apply listdir_walk in Hl as (Hdir & es & Hw & ->).
  pose proof (locate_join_name dir name Hs Hne Hdot) as Hloc.
  assert (exists_ t (OsPath.join dir name) = false) as Hex.
  { apply (exists_false _ _ _ Hloc). rewrite walk_app, Hw.
    simpl. apply lookup_entry_None in Hnew. by rewrite Hnew. }
  split; [done|]. unfold mkdir. rewrite Hex, Hloc. simpl.
  destruct (put_child _ name (Dir []) _ _ Hw) as (t' & Hp & Hw').
  exists t'. split; [done|]. split.
  - rewrite (resolve_located _ _ _ Hloc). by eapply walk_put.
  - unfold listdir. rewrite (resolve_located _ _ _ (locate_nonempty dir Hdir)), Hw'.
    rewrite set_entry_new by by apply lookup_entry_None.
    by rewrite fmap_app.
Qed.

Lemma read_walk t q c :
  read t q = Some c ↔ ∃ ds, locate q = Some ds ∧ walk ds t = Some (File c).
Proof.
  unfold read, resolve. destruct (locate q) as [ds|]; simpl.
  - destruct (walk ds t) as [[c1|es]|] eqn:Hw; split;
      try (intros [= <-]; eauto); try done;
      intros (ds' & [= <-] & Hw'); congruence.
  - split; [done|]. by intros (? & ? & _).
Qed.

(** [os.mkdir] and [os.makedirs] leave the files and the directories that
    are there. *)
Lemma mkdir_keeps_file t p t' q c :
  mkdir t p = Some t' → read t q = Some c → read t' q = Some c.
Proof.
  unfold mkdir. destruct (exists_ t p) eqn:Hex; [done|].
  destruct (locate p) as [cs|] eqn:Hcs; simpl; [|done].
  intros Hp (ds & Hds & Hw)%read_walk. apply read_walk. exists ds. split; [done|].
  apply (exists_false _ _ _ Hcs) in Hex.
  eapply put_keeps_files; [done| |by rewrite Hex|done]. congruence.
Qed.

Lemma mkdir_keeps_dir t p t' q :
  mkdir t p = Some t' → isdir t q = true → isdir t' q = true.
Proof.
  unfold mkdir. destruct (exists_ t p) eqn:Hex; [done|].
  destruct (locate p) as [cs|] eqn:Hcs; simpl; [|done].
  intros Hp (ds & es & Hds & Hw)%isdir_walk. apply isdir_walk.
  apply (exists_false _ _ _ Hcs) in Hex.
  destruct (put_keeps_dirs _ _ _ _ _ _ Hp ltac:(by rewrite Hex) Hw) as [es' ?].
  eauto.
Qed.

Lemma makedirs_keeps_file t p t' q c :
  makedirs t p = Some t' → read t q = Some c → read t' q = Some c.
Proof.
  unfold makedirs. destruct (exists_ t p); [done|].
  destruct (locate p) as [cs|]; simpl; [|done].
  intros He (ds & Hds & Hw)%read_walk. apply read_walk. exists ds. split; [done|].
  by eapply ensure_keeps_files.
Qed.

Lemma makedirs_keeps_dir t p t' q :
  makedirs t p = Some t' → isdir t q = true → isdir t' q = true.
Proof.
  unfold makedirs. destruct (exists_ t p); [done|].
  destruct (locate p) as [cs|]; simpl; [|done].
  intros He (ds & es & Hds & Hw)%isdir_walk. apply isdir_walk.
  destruct (ensure_keeps_dirs _ _ _ _ _ He Hw) as [es' ?]. eauto.
Qed.

End path_frames.

Section any_numbers.
Variable parser : Type.
Implicit Types (w : world parser) (names : list string).

(** A number above the numbers of the job folders is the name of no
    entry. *)
Lemma number_is_free names n :
  (∀ f m, f ∈ job_folders names → Py.int f = Some m → m < n) → Py.str n ∉ names.
Proof.
  intros Hlt Hin. destruct (str_entry_name n) as (_ & _ & _ & H1 & H2).
  assert (Py.str n ∈ job_folders names) as Hjob by by apply job_folders_elem.
  specialize (Hlt _ n Hjob (int_str n)). lia.
Qed.

(** The greatest number among job folders whose names are all numbers. *)
Lemma greatest_number names :
  Forall (λ f, is_Some (Py.int f)) (job_folders names) → job_folders names ≠ [] →
  ∃ by_number highest n,
    sorted_by_int (job_folders names) = inr by_number
    ∧ Py.last_item by_number = Some highest
    ∧ int highest = inr n
    ∧ highest ∈ job_folders names ∧ Py.int highest = Some n
    ∧ ∀ f m, f ∈ job_folders names → Py.int f = Some m → m ≤ n.
Proof.
  intros Hall Hne.
  destruct (sorted_by_int_last _ Hall Hne) as (l' & h & n & Hs & Hlast & Hh & Hn & Hmax).
  exists l', h, n. repeat split; try done. by apply int_Some.
Qed.

Lemma assign_resume_listed dir w names :
  Fs.listdir (fs w) dir = Some names →
  Forall (λ f, is_Some (Py.int f)) (job_folders names) → job_folders names ≠ [] →
  ∃ highest n,
    assign_experiment_folder dir true w = Ok (OsPath.join dir (Py.str n)) w
    ∧ highest ∈ job_folders names ∧ Py.int highest = Some n
    ∧ ∀ f m, f ∈ job_folders names → Py.int f = Some m → m ≤ n.
Proof.
  intros Hl Hall Hne.
  destruct (greatest_number names Hall Hne)
    as (l' & h & n & Hs & Hlast & Hint & Hh & Hn & Hmax).
  exists h, n. split; [|done].
  rewrite (assign_listed _ dir true w names Hl). cbv zeta.
  destruct (job_folders names); [done|]. by rewrite Hs, Hlast, Hint.
Qed.

Lemma assign_fresh_listed dir w names :
  Fs.listdir (fs w) dir = Some names →
  Forall (λ f, is_Some (Py.int f)) (job_folders names) →
  ∃ n t',
    assign_experiment_folder dir false w = Ok (OsPath.join dir (Py.str n)) (set_fs t' w)
    ∧ Fs.mkdir (fs w) (OsPath.join dir (Py.str n)) = Some t'
    ∧ Fs.exists_ (fs w) (OsPath.join dir (Py.str n)) = false
    ∧ Fs.listdir t' dir = Some (names ++ [Py.str n])
    ∧ Fs.resolve t' (OsPath.join dir (Py.str n)) = Some (Fs.Dir [])
    ∧ (∀ f m, f ∈ job_folders names → Py.int f = Some m → m < n)
    ∧ match job_folders names with
      | [] => n = 1
      | _ => ∃ f, f ∈ job_folders names ∧ Py.int f = Some (n - 1)
      end.
Proof.
  intros Hl Hall.
  assert (∀ n, (∀ f m, f ∈ job_folders names → Py.int f = Some m → m < n) →
    ∃ t', Fs.mkdir (fs w) (OsPath.join dir (Py.str n)) = Some t'
      ∧ Fs.exists_ (fs w) (OsPath.join dir (Py.str n)) = false
      ∧ Fs.listdir t' dir = Some (names ++ [Py.str n])
      ∧ Fs.resolve t' (OsPath.join dir (Py.str n)) = Some (Fs.Dir [])) as Hmake.
  { intros n Hlt. destruct (str_entry_name n) as (? & ? & ? & _).
    destruct (mkdir_entry (fs w) dir names (Py.str n) Hl) as (? & t' & ? & ? & ?);
      [done..|by apply number_is_free|]. by exists t'. }
  rewrite (assign_listed _ dir false w names Hl). cbv zeta.
  destruct (decide (job_folders names = [])) as [Hnil|Hne].
  - rewrite Hnil in *. destruct (Hmake 1) as (t' & Hmk & ? & ? & ?).
    { by intros f m Hf%elem_of_nil. }
    exists 1, t'. rewrite Hmk. repeat split; try done. by intros f m Hf%elem_of_nil.
  - destruct (greatest_number names Hall Hne)
      as (l' & h & n & Hs & Hlast & Hint & Hh & Hn & Hmax).
    assert (∀ f m, f ∈ job_folders names → Py.int f = Some m → m < n + 1) as Hlt.
    { intros f m Hf Hm. specialize (Hmax f m Hf Hm). lia. }
    destruct (Hmake (n + 1) Hlt) as (t' & Hmk & ? & ? & ?).
    exists (n + 1), t'.
    destruct (job_folders names) as [|f0 fs0] eqn:Hjob; [done|].
    rewrite Hs, Hlast, Hint, Hmk.
    repeat split; try done. exists h.
    by replace (n + 1 - 1) with n by lia.
Qed.

End any_numbers.

Section numbering_properties.
Variable parser : Type.
Variable load_source : string → Fs.content → FlagValues parser → exn + FlagValues parser.
Variable import_module : string → FlagValues parser → exn + FlagValues parser.
Variable FLAGS_parse_flags :
  FlagValues parser → list string → exn + (FlagValues parser * list string).
Variable git_rev_parse : exn + string.
Implicit Types (w : world parser) (names : list string).

Local Abbreviation init_checkpoint' :=
  (init_checkpoint load_source import_module FLAGS_parse_flags git_rev_parse).
Local Abbreviation load_and_parse_flags' :=
  (load_and_parse_flags load_source import_module FLAGS_parse_flags).


(** X8. A job folder whose name is no number stops every call.  When an
    entry of the checkpoint directory that does not start with [_] or
    [.] has a name that [int] rejects (a file of notes, a folder with a
    word for its name), [init_checkpoint] raises [ValueError], resuming
    or not, and changes nothing. *)
Theorem an_entry_that_is_no_number_stops_the_run dir dc mc resume w names :
  Fs.listdir (fs w) dir = Some names →
  Exists (λ f, Py.int f = None) (job_folders names) →
  ∃ msg, init_checkpoint' dir dc mc resume w = Raise (ValueError msg) w.
Proof.
  intros Hl Hstray.
  destruct (sorted_by_int_fail _ Hstray) as [msg Hs].
  exists msg. apply init_assign_Raise.
  rewrite (assign_listed _ dir resume w names Hl). cbv zeta.
  destruct (job_folders names); [by apply Exists_nil in Hstray|].
  by rewrite Hs.
Qed.

(** X9. Resuming goes by the value of the names, not by their text.  The
    folder that a resuming call selects is the checkpoint directory
    joined with [str(n)] for the greatest number [n] that a job folder's
    name stands for.  When that number is spelled in another way only
    (as in [007]) and no entry is named [str(n)], the call goes on to
    parse the flags and then raises [IOError] for the flag file of a
    folder that does not exist. *)
Theorem resume_goes_by_the_value_of_the_names dir dc mc w names :
  Fs.listdir (fs w) dir = Some names →
  Forall (λ f, is_Some (Py.int f)) (job_folders names) →
  job_folders names ≠ [] →
  ∃ highest n,
    highest ∈ job_folders names ∧ Py.int highest = Some n
    ∧ (∀ f m, f ∈ job_folders names → Py.int f = Some m → m ≤ n)
    ∧ assign_experiment_folder dir true w = Ok (OsPath.join dir (Py.str n)) w
    ∧ (∀ r w', init_checkpoint' dir dc mc true w = Ok r w' →
         r.1 = OsPath.join dir (Py.str n))
    ∧ (Py.str n ∉ names →
       ∀ w2, load_and_parse_flags' dc mc w = Ok () w2 →
         init_checkpoint' dir dc mc true w
         = Raise (IOError (OsPath.join (OsPath.join dir (Py.str n)) FLAG_FILE)) w2).
Proof.
  intros Hl Hall Hne.
  destruct (assign_resume_listed parser dir w names Hl Hall Hne)
    as (h & n & Hassign & Hh & Hn & Hmax).
  exists h, n. repeat split; try done.
  - intros [p rc] w' Hinit.
    apply init_Ok_inv in Hinit as (w1 & w2 & Ha & _). cbn [fst] in *.
    rewrite Hassign in Ha. by simplify_eq.
  - intros Hmissing w2 Hload.
    erewrite init_resume_steps; [|exact Hassign|exact Hload].
    assert (fs w2 = fs w) as Hfs.
    { apply (preserves_Ok _ same_fs _ _ _ _ (load_and_parse_flags_same_fs _ _ _ _ dc mc) Hload). }
    assert (Fs.read (fs w2) (OsPath.join (OsPath.join dir (Py.str n)) FLAG_FILE) = None)
      as Hread.
    { rewrite Hfs. destruct (Fs.read (fs w) _) as [c|] eqn:Hr; [|done].
      apply read_walk in Hr as (ds & Hds & Hw).
      rewrite locate_join_flag_file in Hds. injection Hds as <-.
      pose proof (locate_join_number dir n) as Hloc.
      apply locate_Some in Hloc as [_ Hloc]. rewrite <- Hloc in Hw.
      apply listdir_walk in Hl as (_ & es & Hes & ->).
      rewrite <- app_assoc, walk_app, Hes in Hw. cbn in Hw.
      apply lookup_entry_None in Hmissing. by rewrite Hmissing in Hw. }
    unfold restore_and_find_checkpoint, json_load. unfold_monad. by rewrite Hread.
Qed.

End numbering_properties.

Section first_use.
Import Fs.
Implicit Types (t : node) (cs : list string).

Local Ltac obind := cbn [mbind option_bind].

(** [ensure] fails when a regular file is in the way. *)
Lemma ensure_None cs t k c :
  walk (take k cs) t = Some (File c) → (k < length cs)%nat → ensure cs t = None.
Proof.
  revert t k. induction cs as [|a cs IH]; intros t k Hw Hk; [simpl in Hk; lia|].
  destruct t as [c1|es]; [done|]. destruct k as [|k]; [done|].
  cbn [take walk] in Hw. cbn [ensure].
  destruct (lookup_entry a es) as [sub|]; [|done]. cbn [default].
  revert Hw. obind. intros Hw. unfold id. rewrite (IH sub k); [done..|]. simpl in Hk. lia.
Qed.

End first_use.

Section first_use_properties.
Variable parser : Type.
Variable load_source : string → Fs.content → FlagValues parser → exn + FlagValues parser.
Variable import_module : string → FlagValues parser → exn + FlagValues parser.
Variable FLAGS_parse_flags :
  FlagValues parser → list string → exn + (FlagValues parser * list string).
Variable git_rev_parse : exn + string.
Implicit Types (w : world parser) (names : list string).

Local Abbreviation init_checkpoint' :=
  (init_checkpoint load_source import_module FLAGS_parse_flags git_rev_parse).

(** X10. The checkpoint directory is made on first use.  When it does
    not exist and the call does not resume, [os.makedirs] makes it with
    the directories above it that are missing, and the job gets the
    folder [1], the only entry of the new directory; what was there
    before stays.  When the path is empty or a regular file is on the
    way, the call raises [OSError] and changes nothing. *)
Theorem checkpoint_dir_is_made_on_first_use dir dc mc w :
  Fs.exists_ (fs w) dir = false →
  (dir ≠ "" →
   (∀ k c, Fs.walk (take k (Fs.components dir)) (fs w) ≠ Some (Fs.File c)) →
   ∃ w1,
     assign_experiment_folder dir false w = Ok (OsPath.join dir (Py.str 1)) w1
     ∧ Fs.listdir (fs w1) dir = Some [Py.str 1]
     ∧ Fs.listdir (fs w1) (OsPath.join dir (Py.str 1)) = Some []
     ∧ (∀ q, Fs.isdir (fs w) q = true → Fs.isdir (fs w1) q = true)
     ∧ (∀ q c, Fs.read (fs w) q = Some c → Fs.read (fs w1) q = Some c)
     ∧ ∀ r w', init_checkpoint' dir dc mc false w = Ok r w' →
         r = (OsPath.join dir (Py.str 1), None))
  ∧ (dir = ""
     ∨ (∃ k c, (k < length (Fs.components dir))%nat
          ∧ Fs.walk (take k (Fs.components dir)) (fs w) = Some (Fs.File c)) →
     init_checkpoint' dir dc mc false w = Raise (OSError dir) w).
Proof.
  intros Hex. pose proof (assign_missing_fresh parser dir w Hex) as Hassign. split.
  - intros Hdir Hfree.
    assert (is_Some (Fs.makedirs (fs w) dir)) as [t Hmk].
    { unfold Fs.makedirs. rewrite Hex, (locate_nonempty dir Hdir). cbn.
      by apply ensure_Some. }
    rewrite Hmk in Hassign. destruct Hassign as (t' & Hmkdir & Hassign).
    pose proof (makedirs_listdir _ _ _ Hmk) as Hlist.
    destruct (str_entry_name 1) as (? & ? & ? & _).
    destruct (mkdir_entry t dir [] (Py.str 1) Hlist) as (_ & t'' & Hmkdir' & Hres & Hlist');
      [done..|apply not_elem_of_nil|].
    rewrite Hmkdir in Hmkdir'. injection Hmkdir' as <-.
    exists (set_fs t' w). cbn [fs set_fs]. repeat split; try done.
    + unfold Fs.listdir. by rewrite Hres.
    + intros q Hq. eapply mkdir_keeps_dir; [done|]. by eapply makedirs_keeps_dir.
    + intros q c Hq. eapply mkdir_keeps_file; [done|]. by eapply makedirs_keeps_file.
    + intros [p rc] w' Hinit.
      apply init_Ok_inv in Hinit as (w1 & w2 & Ha & _ & _ & Hrc). cbn [fst snd] in *.
      rewrite Hassign in Ha. by simplify_eq.
  - intros Hway. apply init_assign_Raise.
    assert (Fs.makedirs (fs w) dir = None) as Hmk.
    { unfold Fs.makedirs. rewrite Hex. destruct Hway as [->|(k & c & Hk & Hw)]; [done|].
      destruct (Fs.locate dir) as [cs|] eqn:Hcs; [|done].
      apply locate_Some in Hcs as [_ ->]. cbn. by eapply ensure_None. }
    by rewrite Hmk in Hassign.
Qed.

End first_use_properties.

Section checkpoints_found.
Variable parser : Type.
Implicit Types (w : world parser) (names : list string).

(** X11. [find_model_files] fails on a folder that cannot be listed, with
    [OSError], and on no other: a name that the pattern finds has a
    number.  The keys of the mapping are not negative; each key is the
    number that [extract_itr_from_modelfile] gives back for the path the
    key is sent to, whatever the folder is called, and the path is the
    folder joined with the stripped name of an entry; every entry whose
    stripped name the pattern finds has its number among the keys. *)
Theorem find_model_files_keys_are_the_numbers_of_the_paths model_dir w :
  match Fs.listdir (fs w) model_dir with
  | None => find_model_files model_dir w = Raise (OSError model_dir) w
  | Some names =>
      ∃ m, find_model_files model_dir w = Ok m w
        ∧ (∀ itr path, m !! itr = Some path →
             0 ≤ itr
             ∧ extract_itr_from_modelfile path = inr itr
             ∧ ∃ f, f ∈ names ∧ Re.search (stripped f) = true
                 ∧ path = OsPath.join model_dir (stripped f))
        ∧ (∀ f, f ∈ names → Re.search (stripped f) = true →
             ∃ itr, extract_itr_from_modelfile (stripped f) = inr itr
               ∧ is_Some (m !! itr))
  end.
Proof.
  destruct (Fs.listdir (fs w) model_dir) as [names|] eqn:Hl.
  - rewrite (find_model_files_listing _ _ _ names Hl).
    destruct (model_files_dict_lookup model_dir (checkpoint_names names) ∅
                (checkpoint_names_search names)) as (m & -> & Hm).
    exists m. split; [done|]. split.
    + intros itr path. rewrite Hm.
      destruct (last _) as [g|] eqn:Hlast; [|by rewrite lookup_empty].
      intros [= <-]. apply last_filter_elem in Hlast as [Hg Hitr].
      unfold checkpoint_names in Hg.
      apply list_elem_of_filter in Hg as [Hsearch Hg].
      apply list_elem_of_fmap in Hg as (f & -> & Hf).
      destruct (search_extract _ Hsearch) as (n & Hn & Hpos).
      rewrite extract_itr_join by done.
      split; [congruence|]. split; [done|]. by exists f.
    + intros f Hf Hsearch.
      destruct (search_extract _ Hsearch) as (n & Hn & _).
      exists n. split; [done|]. rewrite Hm.
      assert (stripped f ∈ checkpoint_names names) as Hg.
      { unfold checkpoint_names. apply list_elem_of_filter. split; [done|].
        by apply list_elem_of_fmap_2. }
      destruct (last_filter_some (λ g, extract_itr_from_modelfile g = inr n)
                  (checkpoint_names names) (stripped f) Hg Hn) as [g ->].
      by eexists.
  - unfold find_model_files. unfold_monad. by rewrite Hl.
Qed.


End checkpoints_found.

(** ** What [init_checkpoint] writes, and where *)

Section under_the_run_folder.
Import Fs.
Implicit Types (t : node) (p q d folder : string).

(** A file that is written under [folder] leaves the entries of the
    directory above [folder] as they are. *)
Lemma write_under_keeps_listing t q c t' d folder name rest :
  write t q c = Some t' →
  d ≠ "" → folder ≠ "" → components folder = components d ++ [name] →
  locate q = Some (components folder ++ rest) →
  isdir t folder = true →
  isdir t' folder = true ∧ listdir t' d = listdir t d.
Proof.
  intros Hw Hd Hf Hcs Hq Hdir. split; [by eapply write_keeps_dirs|].
  revert Hw. unfold write. destruct (isdir t q) eqn:Hnd; [done|].
  rewrite Hq. cbn [mbind option_bind]. intros Hput.
  destruct rest as [|r rest].
  { rewrite app_nil_r in Hq. revert Hnd Hdir. unfold isdir, resolve.
    rewrite Hq, (locate_nonempty folder Hf). cbn. congruence. }
  apply isdir_walk in Hdir as (cs & es & Hloc & Hwalk).
  apply locate_Some in Hloc as [_ ->]. rewrite Hcs, walk_app in Hwalk.
  destruct (walk (components d) t) as [[c1|es0]|] eqn:Hwd; [done| |done].
  rewrite Hcs, <- app_assoc in Hput. cbn [app] in Hput.
  destruct (walk_put_above _ _ _ _ _ _ _ _ Hput Hwd) as (es' & Hwd' & Hnames).
  unfold listdir, resolve. rewrite (locate_nonempty d Hd). cbn.
  by rewrite Hwd, Hwd', Hnames.
Qed.

(** A file that is there is not under a path that does not exist. *)
Lemma file_not_under t q c cs rest :
  read t q = Some c → walk cs t = None → locate q ≠ Some (cs ++ rest).
Proof.
  intros (ds & Hds & Hw)%read_walk Hcs Hq. rewrite Hds in Hq. injection Hq as ->.
  by rewrite walk_app, Hcs in Hw.
Qed.

Lemma write_Some_locate t q c t' : write t q c = Some t' → ∃ cs, locate q = Some cs.
Proof.
  unfold write. destruct (isdir t q); [done|]. destruct (locate q); [eauto|done].
Qed.

(** Where [shutil.copy] to [folder/basename(src)] writes. *)
Lemma copy_target_under folder src (b : bool) :
  folder ≠ "" →
  let dst := OsPath.join folder (OsPath.basename src) in
  let dst' := if b then OsPath.join dst (OsPath.basename src) else dst in
  ∀ cs, locate dst' = Some cs → ∃ rest, cs = components folder ++ rest.
Proof.
  intros Hf dst dst' cs [_ ->]%locate_Some.
  destruct (components_join_basename folder src) as [Hj _].
  unfold dst'. destruct b.
  - rewrite components_join by (apply startswith_contains, basename_no_slash).
    fold dst. unfold dst. rewrite Hj, <- app_assoc. eauto.
  - unfold dst. rewrite Hj. eauto.
Qed.

End under_the_run_folder.

Section store_frames.
Variable parser : Type.
Variable git_rev_parse : exn + string.
Implicit Types (w : world parser) (folder d q : string).

Global Instance listing_kept_preorder folder d : PreOrder (@listing_kept parser folder d).
Proof.
  split.
  - by intros w Hd.
  - intros w1 w2 w3 H12 H23 Hd. destruct (H12 Hd) as [Hd2 Hl2].
    destruct (H23 Hd2) as [Hd3 Hl3]. split; [done|congruence].
Qed.

Lemma same_fs_listing_kept folder d w w' : same_fs w w' → listing_kept folder d w w'.
Proof. unfold same_fs, listing_kept. by intros ->. Qed.

(** The flag file and the copies are written under the run folder: the
    files that are somewhere else stay, and so do the entries of the
    checkpoint directory. *)
Lemma json_store_under folder name data q :
  (∀ rest, Fs.locate q ≠ Some (Fs.components folder ++ rest)) →
  Fs.locate (OsPath.join folder name) = Some (Fs.components folder ++ [name]) →
  preserves (file_kept q) (json_store (parser:=parser) (OsPath.join folder name) data).
Proof.
  intros Hout Hloc. apply json_store_file_kept. rewrite Hloc. intros Heq.
  by apply (Hout [name]).
Qed.

Lemma json_store_listing_kept folder d name0 name data :
  d ≠ "" → folder ≠ "" → Fs.components folder = Fs.components d ++ [name0] →
  Fs.locate (OsPath.join folder name) = Some (Fs.components folder ++ [name]) →
  preserves (listing_kept folder d)
    (json_store (parser:=parser) (OsPath.join folder name) data).
Proof.
  intros Hd Hf Hcs Hloc w. unfold json_store. unfold_monad.
  destruct (Fs.write (fs w) _ _) as [t|] eqn:Hw; cbn [final]; [|done].
  intros Hdir. cbn [fs set_fs]. by eapply write_under_keeps_listing.
Qed.

Lemma shutil_copy_under folder src q :
  folder ≠ "" →
  (∀ rest, Fs.locate q ≠ Some (Fs.components folder ++ rest)) →
  preserves (file_kept q)
    (shutil_copy parser src (OsPath.join folder (OsPath.basename src))).
Proof.
  intros Hf Hout w. unfold shutil_copy. unfold_monad.
  pose proof (copy_target_under folder src
                (Fs.isdir (fs w) (OsPath.join folder (OsPath.basename src))) Hf) as Hunder.
  cbv zeta in Hunder.
  repeat case_match; simplify_eq/=; try done.
  all: intros c0; eapply write_keeps_file; [done|];
    match goal with H : Fs.write _ ?x _ = Some _ |- _ =>
      destruct (write_Some_locate _ _ _ _ H) as [cs Hcs] end;
    destruct (Hunder cs Hcs) as [rest ->]; rewrite Hcs; intros Heq;
    by apply (Hout rest).
Qed.

Lemma shutil_copy_listing_kept folder d name0 src :
  d ≠ "" → folder ≠ "" → Fs.components folder = Fs.components d ++ [name0] →
  preserves (listing_kept folder d)
    (shutil_copy parser src (OsPath.join folder (OsPath.basename src))).
Proof.
  intros Hd Hf Hcs w. unfold shutil_copy. unfold_monad.
  pose proof (copy_target_under folder src
                (Fs.isdir (fs w) (OsPath.join folder (OsPath.basename src))) Hf) as Hunder.
  cbv zeta in Hunder.
  repeat case_match; simplify_eq/=; try done.
  all: intros Hdir;
    match goal with H : Fs.write _ ?x _ = Some _ |- _ =>
      destruct (write_Some_locate _ _ _ _ H) as [cs Hloc] end;
    destruct (Hunder cs Hloc) as [rest ->];
    by eapply write_under_keeps_listing.
Qed.

Lemma store_flags_and_configs_under folder dc mc q :
  folder ≠ "" →
  (∀ rest, Fs.locate q ≠ Some (Fs.components folder ++ rest)) →
  preserves (file_kept q)
    (store_flags_and_configs (parser:=parser) git_rev_parse folder
       (OsPath.join folder FLAG_FILE) dc mc).
Proof.
  intros Hf Hout. unfold store_flags_and_configs.
  apply preserves_bind; [tc_solve| |intros _].
  { eapply preserves_weaken; [apply same_fs_file_kept|apply record_revision_same_fs]. }
  apply preserves_bind; [tc_solve|apply preserves_get; tc_solve|intros w0].
  apply preserves_bind; [tc_solve| |intros _].
  { apply json_store_under; [done|apply locate_join_flag_file]. }
  apply preserves_for_each; [tc_solve|intros src]. by apply shutil_copy_under.
Qed.

Lemma store_flags_and_configs_listing_kept folder d name0 dc mc :
  d ≠ "" → folder ≠ "" → Fs.components folder = Fs.components d ++ [name0] →
  preserves (listing_kept folder d)
    (store_flags_and_configs (parser:=parser) git_rev_parse folder
       (OsPath.join folder FLAG_FILE) dc mc).
Proof.
  intros Hd Hf Hcs. unfold store_flags_and_configs.
  apply preserves_bind; [tc_solve| |intros _].
  { eapply preserves_weaken; [apply same_fs_listing_kept|apply record_revision_same_fs]. }
  apply preserves_bind; [tc_solve|apply preserves_get; tc_solve|intros w0].
  apply preserves_bind; [tc_solve| |intros _].
  { eapply json_store_listing_kept; [done..|apply locate_join_flag_file]. }
  apply preserves_for_each; [tc_solve|intros src]. by eapply shutil_copy_listing_kept.
Qed.

(** The flags that a call of the [else] branch that returns has stored. *)
Lemma store_flags_and_configs_Ok folder flag_path dc mc w w' :
  store_flags_and_configs (parser:=parser) git_rev_parse folder flag_path dc mc w
    = Ok () w' →
  ∃ flags, stored_flags git_rev_parse (__flags (FLAGS w)) = Some flags.
Proof.
  unfold store_flags_and_configs, stored_flags, try_except, get_git_revision_hash.
  unfold bind at 1. unfold bind at 1. unfold from_sum.
  destruct git_rev_parse as [[]|out]; cbn; eauto; done.
Qed.

End store_frames.

Section assign_frames.
Variable parser : Type.
Implicit Types (w : world parser) (names : list string).

(** How a call of the first part that does not resume has made the
    folder it returns. *)
Lemma assign_fresh_made dir w p w1 :
  assign_experiment_folder dir false w = Ok p w1 →
  ∃ t0 n, (t0 = fs w ∨ Fs.makedirs (fs w) dir = Some t0)
    ∧ p = OsPath.join dir (Py.str n)
    ∧ Fs.mkdir t0 p = Some (fs w1)
    ∧ w1 = set_fs (fs w1) w.
Proof.
  destruct (Fs.exists_ (fs w) dir) eqn:He.
  - destruct (Fs.isdir (fs w) dir) eqn:Hd.
    + destruct (isdir_listdir _ _ Hd) as [names Hl].
      rewrite (assign_listed _ dir false w names Hl). simpl.
      repeat case_match; try done; intros [= <- <-]; eexists (fs w), _; eauto.
    + destruct (assign_not_a_directory _ dir false w He Hd) as [msg ->]. done.
  - pose proof (assign_missing_fresh _ dir w He) as H.
    destruct (Fs.makedirs (fs w) dir) as [t|] eqn:Hmk; [|by rewrite H].
    destruct H as (t' & Hm & ->). intros [= <- <-]. eexists t, _; eauto.
Qed.

(** The first part leaves what is there, and the folder it makes was
    not there. *)
Lemma assign_fresh_keeps dir w p w1 :
  assign_experiment_folder dir false w = Ok p w1 →
  dirs_kept w w1 ∧ (∀ q, file_kept q w w1)
  ∧ Fs.walk (Fs.components p) (fs w) = None.
Proof.
  intros (t0 & n & Ht0 & -> & Hmk & _)%assign_fresh_made.
  assert (Fs.walk (Fs.components (OsPath.join dir (Py.str n))) t0 = None) as Hnew.
  { revert Hmk. unfold Fs.mkdir. destruct (Fs.exists_ t0 _) eqn:Hex; [done|].
    intros _. pose proof (locate_join_number dir n) as Hloc.
    apply (exists_false _ _ _ Hloc) in Hex.
    apply locate_Some in Hloc as [_ Heq]. by rewrite <- Heq. }
  destruct Ht0 as [->|Hmake].
  - split; [|split; [|done]].
    + intros q. by eapply mkdir_keeps_dir.
    + intros q c. by eapply mkdir_keeps_file.
  - split; [|split].
    + intros q Hq. eapply mkdir_keeps_dir; [done|]. by eapply makedirs_keeps_dir.
    + intros q c Hq. eapply mkdir_keeps_file; [done|]. by eapply makedirs_keeps_file.
    + destruct (Fs.walk _ (fs w)) as [[c|es]|] eqn:Hw; [| |done].
      * revert Hmake. unfold Fs.makedirs. destruct (Fs.exists_ (fs w) dir); [done|].
        destruct (Fs.locate dir) as [cs|]; cbn; [|done]. intros He.
        by rewrite (ensure_keeps_files _ _ _ _ _ He Hw) in Hnew.
      * revert Hmake. unfold Fs.makedirs. destruct (Fs.exists_ (fs w) dir); [done|].
        destruct (Fs.locate dir) as [cs|]; cbn; [|done]. intros He.
        destruct (ensure_keeps_dirs _ _ _ _ _ He Hw) as [es' Hw']. congruence.
Qed.

(** The entries of the checkpoint directory after the first part. *)
Lemma assign_fresh_listing dir w p w1 :
  assign_experiment_folder dir false w = Ok p w1 →
  ∃ names n,
    p = OsPath.join dir (Py.str n)
    ∧ Fs.listdir (fs w1) dir = Some (names ++ [Py.str n])
    ∧ Forall (λ f, is_Some (Py.int f)) (job_folders names)
    ∧ ∀ f m, f ∈ job_folders names → Py.int f = Some m → m < n.
Proof.
  intros Hassign. destruct (Fs.exists_ (fs w) dir) eqn:He.
  - destruct (Fs.isdir (fs w) dir) eqn:Hd.
    + destruct (isdir_listdir _ _ Hd) as [names Hl].
      assert (Forall (λ f, is_Some (Py.int f)) (job_folders names)) as Hall.
      { destruct (Forall_Exists_dec (λ f, is_Some (Py.int f)) (λ f, Py.int f = None)
                    (λ f, match Py.int f as o return {is_Some o} + {o = None} with
                          | Some n => left (ex_intro _ n eq_refl)
                          | None => right eq_refl
                          end) (job_folders names)) as [?|Hstray]; [done|].
        destruct (sorted_by_int_fail _ Hstray) as [msg Hs].
        rewrite (assign_listed _ dir false w names Hl) in Hassign. cbv zeta in Hassign.
        destruct (job_folders names); [by apply Exists_nil in Hstray|].
        by rewrite Hs in Hassign. }
      destruct (assign_fresh_listed parser dir w names Hl Hall)
        as (n & t' & Ha & _ & _ & Hlist & _ & Hlt & _).
      rewrite Ha in Hassign. injection Hassign as <- <-. by exists names, n.
    + destruct (assign_not_a_directory _ dir false w He Hd) as [msg Hr]. congruence.
  - pose proof (assign_missing_fresh _ dir w He) as H.
    destruct (Fs.makedirs (fs w) dir) as [t|] eqn:Hmk; [|congruence].
    destruct H as (t' & Hm & Ha). rewrite Ha in Hassign. injection Hassign as <- <-.
    pose proof (makedirs_listdir _ _ _ Hmk) as Hlist.
    destruct (str_entry_name 1) as (? & ? & ? & _).
    destruct (mkdir_entry t dir [] (Py.str 1) Hlist) as (_ & t'' & Hm' & _ & Hlist');
      [done..|apply not_elem_of_nil|].
    rewrite Hm in Hm'. injection Hm' as <-.
    exists [], 1. repeat split; try done. by intros f m Hf%elem_of_nil.
Qed.

End assign_frames.

Section runs.
Variable parser : Type.
Variable load_source : string → Fs.content → FlagValues parser → exn + FlagValues parser.
Variable import_module : string → FlagValues parser → exn + FlagValues parser.
Variable FLAGS_parse_flags :
  FlagValues parser → list string → exn + (FlagValues parser * list string).
Variable git_rev_parse : exn + string.
Implicit Types (w v : world parser) (names : list string).

Local Abbreviation init_checkpoint' :=
  (init_checkpoint load_source import_module FLAGS_parse_flags git_rev_parse).
Local Abbreviation load_and_parse_flags' :=
  (load_and_parse_flags load_source import_module FLAGS_parse_flags).

Lemma load_and_parse_flags_final_fs dc mc w :
  fs (final (load_and_parse_flags' dc mc w)) = fs w.
Proof. apply (load_and_parse_flags_same_fs _ load_source import_module). Qed.


(** The job folders after a new folder was added to the entries. *)
Lemma job_folders_with_new names n :
  Forall (λ f, is_Some (Py.int f)) (job_folders names) →
  (∀ f m, f ∈ job_folders names → Py.int f = Some m → m < n) →
  Forall (λ f, is_Some (Py.int f)) (job_folders (names ++ [Py.str n]))
  ∧ Py.str n ∈ job_folders (names ++ [Py.str n])
  ∧ ∀ f m, f ∈ job_folders (names ++ [Py.str n]) → Py.int f = Some m → m ≤ n.
Proof.
  intros Hall Hlt. destruct (str_entry_name n) as (_ & _ & _ & H1 & H2).
  assert (∀ f, f ∈ job_folders (names ++ [Py.str n]) →
               f ∈ job_folders names ∨ f = Py.str n) as Hcases.
  { intros f [Hf [Hin|Hin%list_elem_of_singleton]%elem_of_app]%job_folders_elem;
      [left; by apply job_folders_elem|by right]. }
  split; [|split].
  - apply Forall_forall. intros f [Hf| ->]%Hcases.
    + by eapply (proj1 (Forall_forall _ _) Hall).
    + rewrite int_str. by eexists.
  - apply job_folders_elem. split; [done|]. apply elem_of_app. right.
    by apply list_elem_of_singleton.
  - intros f m [Hf| ->]%Hcases Hm.
    + specialize (Hlt f m Hf Hm). lia.
    + rewrite int_str in Hm. injection Hm as <-. lia.
Qed.


End runs.

Section copies.
Import Fs.
Variable parser : Type.
Implicit Types (t : node) (es : list (string * node)) (w : world parser).

(** A folder whose entries are regular files. *)
Local Abbreviation only_files := (Forall (λ e : string * node, ∃ c, e.2 = File c)).

Lemma lookup_only_files es b :
  only_files es → match lookup_entry b es with Some (Dir _) => False | _ => True end.
Proof.
  induction 1 as [|[n x] es [c Hx] Hes IH]; [done|]. cbn [lookup_entry].
  destruct (decide (n = b)); [|done]. simpl in Hx. by rewrite Hx.
Qed.

Lemma set_entry_only_files b c es : only_files es → only_files (set_entry b (File c) es).
Proof.
  induction 1 as [|[n x] es Hx Hes IH]; cbn [set_entry].
  - repeat constructor. by exists c.
  - destruct (decide (n = b)); constructor; try done. by exists c.
Qed.

Lemma isdir_components t q :
  q ≠ "" →
  isdir t q = match walk (components q) t with Some (Dir _) => true | _ => false end.
Proof. intros Hq. unfold isdir, resolve. by rewrite (locate_nonempty q Hq). Qed.

Lemma join_folder_nonempty folder src :
  folder ≠ "" → OsPath.join folder (OsPath.basename src) ≠ "".
Proof.
  intros Hf. unfold OsPath.join.
  rewrite (startswith_contains _ _ (basename_no_slash src)).
  destruct (_ || _); destruct folder; done.
Qed.

(** [shutil.copy] of [src] to its name in a folder of regular files. *)
Lemma shutil_copy_into_folder folder src w w' es :
  folder ≠ "" → resolve (fs w) folder = Some (Dir es) → only_files es →
  shutil_copy parser src (OsPath.join folder (OsPath.basename src)) w = Ok () w' →
  ∃ c, read (fs w) src = Some c
    ∧ locate (OsPath.join folder (OsPath.basename src))
      = Some (components folder ++ [OsPath.basename src])
    ∧ resolve (fs w') folder
      = Some (Dir (set_entry (OsPath.basename src) (File c) es)).
Proof.
  intros Hf [_ Hwalk]%resolve_Some Hfiles.
  pose proof (join_folder_nonempty folder src Hf) as Hdst.
  destruct (components_join_basename folder src) as [Hj Hc].
  set (b := OsPath.basename src) in *. set (dst := OsPath.join folder b) in *.
  assert (Py.startswith b "/" = false) as Hb
    by apply startswith_contains, basename_no_slash.
  unfold shutil_copy. unfold_monad. destruct Hc as [Hc|Hc]; rewrite Hc in Hj.
  - (* the name is empty or a dot: the target is the folder itself *)
    rewrite app_nil_r in Hj.
    assert (isdir (fs w) dst = true) as Hd by by rewrite isdir_components, Hj, Hwalk.
    rewrite Hd.
    assert (OsPath.join dst b ≠ "") as Hdst'.
    { unfold OsPath.join at 1. rewrite Hb. destruct (_ || _); by destruct dst. }
    assert (isdir (fs w) (OsPath.join dst b) = true) as Hd'.
    { rewrite isdir_components by done.
      by rewrite components_join, Hj, Hc, app_nil_r, Hwalk. }
    cbv beta iota zeta. fold b. unfold write. rewrite Hd'. by repeat case_match.
  - assert (isdir (fs w) dst = false) as Hd.
    { rewrite isdir_components, Hj, walk_app, Hwalk by done. cbn.
      pose proof (lookup_only_files es b Hfiles) as Hl.
      destruct (lookup_entry b es) as [[|]|]; done. }
    rewrite Hd. cbv beta iota zeta. destruct (_ && _); [done|].
    destruct (read (fs w) src) as [c|]; [|done].
    unfold write. rewrite Hd, (locate_nonempty dst Hdst), Hj. cbn.
    destruct (put_child _ b (File c) _ _ Hwalk) as (t' & -> & Hwalk').
    intros [= <-]. exists c. split; [done|]. split; [done|].
    unfold resolve. rewrite (locate_nonempty folder Hf). done.
Qed.

End copies.

Section the_run_folder.
Variable parser : Type.
Variable load_source : string → Fs.content → FlagValues parser → exn + FlagValues parser.
Variable import_module : string → FlagValues parser → exn + FlagValues parser.
Variable FLAGS_parse_flags :
  FlagValues parser → list string → exn + (FlagValues parser * list string).
Variable git_rev_parse : exn + string.
Implicit Types (w : world parser).

Local Abbreviation init_checkpoint' :=
  (init_checkpoint load_source import_module FLAGS_parse_flags git_rev_parse).


End the_run_folder.

Section command_line_frames.
Variable parser : Type.
Variable load_source : string → Fs.content → FlagValues parser → exn + FlagValues parser.
Variable import_module : string → FlagValues parser → exn + FlagValues parser.
Variable git_rev_parse : exn + string.
Implicit Types (w : world parser).

Global Instance same_argv_preorder : PreOrder (@same_argv parser).
Proof. split; [done|]. intros w1 w2 w3 H12 H23. unfold same_argv in *. congruence. Qed.

Lemma _load_flags_same_argv paths :
  preserves same_argv (_load_flags parser load_source import_module paths).
Proof.
  unfold _load_flags, _import_module, run_module. repeat preserves_step; done.
Qed.

Lemma restore_and_find_checkpoint_same_argv folder flag_path :
  preserves same_argv (restore_and_find_checkpoint (parser:=parser) folder flag_path).
Proof.
  unfold restore_and_find_checkpoint, json_load, flags_update, _restore_flags,
    find_model_files.
  repeat preserves_step; done.
Qed.

Lemma store_flags_and_configs_same_argv folder flag_path dc mc :
  preserves same_argv
    (store_flags_and_configs (parser:=parser) git_rev_parse folder flag_path dc mc).
Proof.
  unfold store_flags_and_configs, get_git_revision_hash, flags_setitem, json_store,
    shutil_copy.
  repeat preserves_step; done.
Qed.

Lemma filter_nil_Forall {A} (P : A → Prop) `{!∀ x, Decision (P x)} (l : list A) :
  filter P l = [] → Forall (λ x, ¬ P x) l.
Proof.
  induction l as [|x l IH]; [constructor|].
  destruct (decide (P x)).
  - by rewrite filter_cons_True.
  - rewrite filter_cons_False by done. by constructor; [|apply IH].
Qed.

End command_line_frames.

Section parsed.
Variable parser : Type.
Variable load_source : string → Fs.content → FlagValues parser → exn + FlagValues parser.
Variable import_module : string → FlagValues parser → exn + FlagValues parser.
Variable FLAGS_parse_flags :
  FlagValues parser → list string → exn + (FlagValues parser * list string).
Variable git_rev_parse : exn + string.
Implicit Types (w : world parser).

Local Abbreviation init_checkpoint' :=
  (init_checkpoint load_source import_module FLAGS_parse_flags git_rev_parse).
Local Abbreviation load_and_parse_flags' :=
  (load_and_parse_flags load_source import_module FLAGS_parse_flags).

Lemma load_and_parse_flags_Ok_argv dc mc w w2 :
  load_and_parse_flags' dc mc w = Ok () w2 →
  filter (λ a, Py.startswith a "--" = true) (drop 1 (sys_argv w2)) = [].
Proof.
  unfold load_and_parse_flags. intros H.
  apply bind_Ok_inv in H as (? & wa & _ & H).
  apply bind_Ok_inv in H as (? & wb & _ & H).
  rewrite assert_all_flags_parsed_cases in H.
  destruct (filter _ _) eqn:Hf; [|done]. by injection H as <-.
Qed.

(** X16. [init_checkpoint] returns only with the command line parsed.
    When a call returns, resuming or not, no argument after the program
    name starts with [--], so that [assert_all_flags_parsed] passes if it
    is called again, and the registry is marked as parsed when the call
    resumed. *)
Theorem init_checkpoint_returns_with_the_flags_parsed dir dc mc resume w r w' :
  init_checkpoint' dir dc mc resume w = Ok r w' →
  Forall (λ a, Py.startswith a "--" ≠ true) (drop 1 (sys_argv w'))
  ∧ assert_all_flags_parsed parser w' = Ok () w'
  ∧ (resume = true → __parsed (FLAGS w') = true).
Proof.
  intros Hinit. apply init_Ok_inv in Hinit as (w1 & w2 & Ha & Hl & Hrest).
  pose proof (load_and_parse_flags_Ok_argv _ _ _ _ Hl) as Hargv.
  assert (sys_argv w' = sys_argv w2) as Heq.
  { destruct resume.
    - apply (preserves_Ok _ same_argv _ _ _ _
               (restore_and_find_checkpoint_same_argv _ _ _) Hrest).
    - destruct Hrest as [Hstore _].
      apply (preserves_Ok _ same_argv _ _ _ _
               (store_flags_and_configs_same_argv _ git_rev_parse _ _ _ _) Hstore). }
  rewrite <- Heq in Hargv. split.
  { by apply (filter_nil_Forall (λ a, Py.startswith a "--" = true)). }
  split.
  - by rewrite assert_all_flags_parsed_cases, Hargv.
  - intros ->. unfold restore_and_find_checkpoint in Hrest.
    apply bind_Ok_inv in Hrest as (restored & wa & _ & Hrest).
    apply bind_Ok_inv in Hrest as ([] & wb & _ & Hrest).
    apply bind_Ok_inv in Hrest as (wc' & wc & _ & Hrest).
    apply bind_Ok_inv in Hrest as ([] & wd & Hrestore & Hrest).
    assert (__parsed (FLAGS wd) = true) as Hparsed.
    { revert Hrestore. unfold _restore_flags, modify. by intros [= <-]. }
    assert (FLAGS w' = FLAGS wd) as ->; [|done].
    refine (preserves_Ok _ same_FLAGS _ _ _ _ _ Hrest).
    unfold find_model_files. repeat preserves_step; done.
Qed.

End parsed.

(** * The further properties on concrete runs *)

(** [format_integer] on [1234567] with groups of three, and with a group
    size of zero. *)
Lemma format_integer_groups_witness :
  format_integer 1234567 0 = Some (inl (OtherError "AssertionError"))
  ∧ ∃ r first rest,
      format_integer 1234567 3 = Some (inr r)
      ∧ Py.replace r " " "" = Py.str 1234567
      ∧ Py.int (Py.replace r " " "") = Some 1234567
      ∧ Py.split " " r = first :: rest
      ∧ 1 ≤ Z.of_nat (String.length first) ≤ 3
      ∧ Forall (λ x, Z.of_nat (String.length x) = 3) rest.
Proof.
  split.
  - apply (proj1 (format_integer_groups 1234567 0)). lia.
  - apply (proj2 (format_integer_groups 1234567 3)). lia.
Defined.

(** [format_integer] on [-123456]: six digits, groups of three. *)
Lemma format_integer_groups_the_sign_witness :
  ∃ r, format_integer (-123456) 3 = Some (inr ("- " +:+ r)).
Proof.
  apply (format_integer_groups_the_sign (-123456) 3); [lia|lia|].
  exists 2. vm_compute. reflexivity.
Defined.

(** Two model configs named [model.py] in two directories: the second one
    is not run. *)
Lemma a_module_name_is_loaded_once_witness :
  let w := Example.start Example.other_model Example.argv in
  _load_flags (list string) Example.load_source Example.import_module
    ["cfg/model.py"; "other/model.py"] w
  = _load_flags (list string) Example.load_source Example.import_module
      ["cfg/model.py"] w.
Proof.
  intros w.
  apply (proj2 (a_module_name_is_loaded_once Example.load_source Example.import_module
                  "cfg/model.py" "other/model.py" w
                  ltac:(vm_compute; reflexivity)
                  ltac:(intros _; vm_compute; reflexivity))).
Defined.

(** Two flags set on the command line of [train.py]. *)
Lemma set_flags_have_to_be_parsed_witness :
  let w := Example.start [] ["train.py"] in
  ∃ w', set_flags [("data", VStr "mnist"); ("steps", VInt 100)] w = Ok () w'
    ∧ sys_argv w' = ["train.py"; "--data=mnist"; "--steps=100"]
    ∧ ∃ msg, assert_all_flags_parsed (list string) w' = Raise (RuntimeError msg) w'.
Proof.
  intros w.
  destruct (set_flags_have_to_be_parsed [("data", VStr "mnist"); ("steps", VInt 100)] w)
    as (w' & Hset & _ & _ & _ & Hargv & Hraise & _).
  exists w'. split; [exact Hset|]. split.
  - rewrite Hargv. vm_compute. reflexivity.
  - apply Hraise; discriminate.
Defined.

(** Under a notebook kernel, outside of IPython, and under a shell that
    [is_notebook] does not know. *)
Lemma set_flags_if_notebook_by_interpreter_witness :
  let w := Example.start [] ["notebook"] in
  set_flags_if_notebook (Some "ZMQInteractiveShell") [("data", VStr "mnist")] w
  = set_flags [("data", VStr "mnist")] w
  ∧ set_flags_if_notebook None [("data", VStr "mnist")] w = Ok () w
  ∧ ∃ msg, set_flags_if_notebook (Some "PyDevShell") [] w = Raise (ValueError msg) w.
Proof.
  intros w. split; [|split].
  - apply (proj1 (set_flags_if_notebook_by_interpreter
                    (Some "ZMQInteractiveShell") [("data", VStr "mnist")] w)).
    reflexivity.
  - apply (proj1 (proj2 (set_flags_if_notebook_by_interpreter
                           None [("data", VStr "mnist")] w))).
    left. reflexivity.
  - destruct (proj2 (proj2 (set_flags_if_notebook_by_interpreter
                              (Some "PyDevShell") [] w))
                "PyDevShell" eq_refl ltac:(discriminate) ltac:(discriminate))
      as (msg & _ & Hraise).
    exists msg. exact Hraise.
Defined.



(** A file of notes beside the run folder [1]. *)
Lemma an_entry_that_is_no_number_stops_the_run_witness :
  let w := Example.start Example.with_notes Example.argv in
  (∃ msg, Example.run Example.not_a_repository "ckpt" false w = Raise (ValueError msg) w)
  ∧ (∃ msg, Example.run Example.not_a_repository "ckpt" true w = Raise (ValueError msg) w).
Proof.
  intros w.
  assert (Exists (λ f, Py.int f = None) (job_folders ["1"; "notes.txt"])) as Hstray.
  { change (Exists (λ f, Py.int f = None) ["1"; "notes.txt"]).
    apply Exists_cons_tl, Exists_cons_hd. reflexivity. }
  split.
  - apply (an_entry_that_is_no_number_stops_the_run (list string) Example.load_source
             Example.import_module Example.parse Example.not_a_repository
             "ckpt" "cfg/data.py" "cfg/model.py" false w ["1"; "notes.txt"]
             ltac:(reflexivity) Hstray).
  - apply (an_entry_that_is_no_number_stops_the_run (list string) Example.load_source
             Example.import_module Example.parse Example.not_a_repository
             "ckpt" "cfg/data.py" "cfg/model.py" true w ["1"; "notes.txt"]
             ltac:(reflexivity) Hstray).
Defined.

(** Resuming beside the run folders [007], [3] and [1]: the folder [7] is
    selected, and it does not exist. *)
Lemma resume_goes_by_the_value_of_the_names_witness :
  let w := Example.start Example.odd_runs Example.argv in
  let w2 := final (Example.load_and_parse w) in
  assign_experiment_folder "ckpt" true w = Ok "ckpt/7" w
  ∧ Example.run Example.not_a_repository "ckpt" true w
    = Raise (IOError "ckpt/7/flags.json") w2.
Proof.
  intros w w2.
  destruct (resume_goes_by_the_value_of_the_names (list string) Example.load_source
              Example.import_module Example.parse Example.not_a_repository
              "ckpt" "cfg/data.py" "cfg/model.py" w ["007"; "3"; ".git"; "1"]
              ltac:(reflexivity)
              ltac:(change (Forall (λ f, is_Some (Py.int f)) ["007"; "3"; "1"]);
                    repeat constructor; eexists; reflexivity)
              ltac:(discriminate))
    as (h & n & Hh & Hn & Hmax & Hassign & _ & Hmissing).
  assert (n = 7) as ->.
  { assert (7 ≤ n) as Hge.
    { apply (Hmax "007" 7); [|reflexivity].
      change ("007" ∈ ["007"; "3"; "1"]). by left. }
    change (h ∈ ["007"; "3"; "1"]) in Hh.
    apply elem_of_cons in Hh as [->|Hh]; [vm_compute in Hn; congruence|].
    apply elem_of_cons in Hh as [->|Hh]; [vm_compute in Hn; injection Hn as <-; lia|].
    apply elem_of_cons in Hh as [->|Hh]; [vm_compute in Hn; injection Hn as <-; lia|].
    by apply elem_of_nil in Hh. }
  split; [exact Hassign|].
  apply (Hmissing ltac:(apply (bool_decide_unpack _); vm_compute; exact I) w2).
  vm_compute. reflexivity.
Defined.

(** A checkpoint directory that is two levels down in an empty tree, and
    one whose path goes through a config file. *)
Lemma checkpoint_dir_is_made_on_first_use_witness :
  let w := Example.start [] Example.argv in
  (∃ w1,
     assign_experiment_folder "runs/ckpt" false w
     = Ok (OsPath.join "runs/ckpt" (Py.str 1)) w1
     ∧ Fs.listdir (fs w1) "runs/ckpt" = Some [Py.str 1]
     ∧ Fs.listdir (fs w1) (OsPath.join "runs/ckpt" (Py.str 1)) = Some []
     ∧ Fs.read (fs w1) "cfg/data.py" = Some (Fs.Text "flags of the data"))
  ∧ Example.run Example.not_a_repository "cfg/data.py/ckpt" false w
    = Raise (OSError "cfg/data.py/ckpt") w.
Proof.
  intros w. split.
  - destruct (proj1 (checkpoint_dir_is_made_on_first_use (list string)
                       Example.load_source Example.import_module Example.parse
                       Example.not_a_repository "runs/ckpt" "cfg/data.py" "cfg/model.py" w
                       ltac:(reflexivity))
                ltac:(discriminate)
                ltac:(intros [|[|[|k]]] c; vm_compute; discriminate))
      as (w1 & Hassign & Hlist & Hempty & _ & Hfiles & _).
    exists w1. split; [exact Hassign|]. split; [exact Hlist|]. split; [exact Hempty|].
    apply Hfiles. reflexivity.
  - apply (proj2 (checkpoint_dir_is_made_on_first_use (list string)
                    Example.load_source Example.import_module Example.parse
                    Example.not_a_repository "cfg/data.py/ckpt" "cfg/data.py"
                    "cfg/model.py" w ltac:(reflexivity))).
    right. exists 2%nat, (Fs.Text "flags of the data"). split; [vm_compute; lia|reflexivity].
Defined.





(** After a first run the command line holds the program name alone. *)
Lemma init_checkpoint_returns_with_the_flags_parsed_witness :
  let w := Example.start [] Example.argv in
  let w' := final (Example.run Example.revision "ckpt" false w) in
  assert_all_flags_parsed (list string) w' = Ok () w'.
Proof.
  intros w w'.
  apply (init_checkpoint_returns_with_the_flags_parsed (list string) Example.load_source
           Example.import_module Example.parse Example.revision
           "ckpt" "cfg/data.py" "cfg/model.py" false w ("ckpt/1", None) w'
           ltac:(vm_compute; reflexivity)).
Defined.
